(** * dependencyUpdater.js: a shallow embedding and its verified properties

    The script rewrites the entry of one package (the main package) in
    [package.json], then walks over every other declared dependency, asks
    the npm registry for its metadata and decides from the peer-dependency
    declarations whether the entry may stay or has to be replaced.

    The embedding follows the script statement by statement.  JavaScript
    objects are association lists kept in [Object.keys] order, the [async]
    body of [run] lives in a small monad that carries the in-memory
    [packageJson] object, the trace of effects (console lines, registry
    requests, inquirer prompts, file writes) and abrupt completions
    ([throw], [return], [process.exit]).  The [semver] package is an
    external library: the development is parametric in it, and a small
    instance covering plain versions and caret ranges is used to run the
    model on concrete registry documents. *)

From Stdlib Require Import String Ascii List Bool Arith NArith Lia.
Import ListNotations.
Local Open Scope string_scope.
Local Open Scope list_scope.

(** ** Decimal strings *)

Module Decimal.

Definition digit (c : ascii) : option N :=
  let n := N_of_ascii c in
  if ((48 <=? n) && (n <=? 57))%N then Some (n - 48)%N else None.

Fixpoint digits (acc : N) (s : string) : option N :=
  match s with
  | EmptyString => Some acc
  | String c s' =>
      match digit c with
      | Some d => digits (acc * 10 + d)%N s'
      | None => None
      end
  end.

(** A non-empty run of digits without a leading zero (["0"] itself is
    accepted): the numeric identifiers of semver and the canonical
    numeric strings of ECMAScript. *)
Definition canonical (s : string) : option N :=
  match s with
  | EmptyString => None
  | String "0" EmptyString => Some 0%N
  | String "0" _ => None
  | _ => digits 0 s
  end.

End Decimal.

(** ** JavaScript values used by the script *)

Module Js.

(** [Boolean(s)] for a string: only the empty string is falsy. *)
Definition truthy (s : string) : bool :=
  match s with EmptyString => false | _ => true end.

(** An ordinary object with string keys, as the list of its own
    enumerable properties in the order [Object.keys] reports them.  Its
    prototype is [Object.prototype], as for every object [JSON.parse],
    an object literal or a spread creates. *)
Definition Obj (V : Type) : Type := list (string * V).

(** The properties of [Object.prototype].  A read [o[k]] of a name the
    object does not own finds them: a function, or for [__proto__] the
    prototype object itself; each is truthy and none is a string. *)
Definition prototypeKeys : list string :=
  ["constructor"; "__defineGetter__"; "__defineSetter__"; "hasOwnProperty";
   "__lookupGetter__"; "__lookupSetter__"; "isPrototypeOf";
   "propertyIsEnumerable"; "toString"; "valueOf"; "__proto__";
   "toLocaleString"].

Definition inherited (k : string) : bool :=
  existsb (String.eqb k) prototypeKeys.

Section Objects.
Context {V : Type}.

Definition keys (o : Obj V) : list string := map fst o.

Fixpoint get (o : Obj V) (k : string) : option V :=
  match o with
  | [] => None
  | (k', v) :: o' => if String.eqb k' k then Some v else get o' k
  end.

(** An array index is a canonical numeric string below [2^32 - 1];
    such keys are enumerated first, in ascending numeric order. *)
Definition arrayIndex (k : string) : option N :=
  match Decimal.canonical k with
  | Some n => if (n <? 4294967295)%N then Some n else None
  | None => None
  end.

(** Position of a fresh array-index key: before the first property
    that is not an array index or has a greater index. *)
Fixpoint insertIndex (n : N) (k : string) (v : V) (o : Obj V) : Obj V :=
  match o with
  | [] => [(k, v)]
  | (k', v') :: o' =>
      match arrayIndex k' with
      | Some n' =>
          if (n <? n')%N then (k, v) :: o
          else (k', v') :: insertIndex n k v o'
      | None => (k, v) :: o
      end
  end.

Fixpoint overwrite (o : Obj V) (k : string) (v : V) : Obj V :=
  match o with
  | [] => []
  | (k', v') :: o' =>
      if String.eqb k' k then (k', v) :: o'
      else (k', v') :: overwrite o' k v
  end.

Definition has (o : Obj V) (k : string) : bool :=
  match get o k with Some _ => true | None => false end.

(** Defining the own property [k] with value [v], as a spread and
    [JSON.parse] do: an existing property keeps its place, a new one is
    created at the place its key kind gives it. *)
Definition set (o : Obj V) (k : string) (v : V) : Obj V :=
  if has o k then overwrite o k v
  else
    match arrayIndex k with
    | Some n => insertIndex n k v o
    | None => o ++ [(k, v)]
    end.

(** [{...a, ...b}]: the properties of [a], then those of [b] defined
    on top of them. *)
Definition spread (a b : Obj V) : Obj V :=
  fold_left (fun acc kv => set acc (fst kv) (snd kv)) b a.

(** Whether the assignment [o[k] = v] of a primitive value reaches the
    object: it does for every name but [__proto__], which, unless the
    object owns a property of that name, is the accessor of
    [Object.prototype], whose setter ignores a value that is neither an
    object nor [null]. *)
Definition assignable (o : Obj V) (k : string) : bool :=
  has o k || negb (String.eqb k "__proto__").

(** [o[k] = v] for a primitive [v]. *)
Definition assign (o : Obj V) (k : string) (v : V) : Obj V :=
  if assignable o k then set o k v else o.

End Objects.

(** [o || {}] and [{...o}] for a possibly undefined object. *)
Definition orEmpty {V} (o : option (Obj V)) : Obj V :=
  match o with Some o => o | None => [] end.

(** [o?.[k]] *)
Definition getOpt {V} (o : option (Obj V)) (k : string) : option V :=
  match o with Some o => get o k | None => None end.

(** Truthiness of [o?.[k]] for an object whose own properties are
    strings: an own property counts by its string, a name found on
    [Object.prototype] is truthy, any other name reads [undefined]. *)
Definition truthyAt (o : option (Obj string)) (k : string) : bool :=
  match o with
  | Some o' =>
      match get o' k with
      | Some s => truthy s
      | None => inherited k
      end
  | None => false
  end.

End Js.

(** ** The semver library, as the script sees it *)

(** A parsed version.  Build metadata plays no role in what the script
    asks of the library and is not kept. *)
Record SemVer : Type := mkSemVer {
  major : N;
  minor : N;
  patch : N;
  prerelease : list string
}.

(** The two entry points the script relies on: the strict parser behind
    [semver.valid] and [semver.prerelease] ([None] where it rejects the
    string), and [semver.satisfies version range], which returns [false]
    rather than throwing on input it cannot read. *)
Class SemverLib : Type := {
  semver_parse : string -> option SemVer;
  semver_satisfies : string -> string -> bool
}.

Section SemverApi.
Context `{SemverLib}.

(** Truthiness of [semver.valid(v)]: the result is [null] or a non-empty
    version string. *)
Definition semver_valid (v : string) : bool :=
  match semver_parse v with Some _ => true | None => false end.

(** [semver.prerelease(v)]: the prerelease identifiers when there are
    some, [null] otherwise and for an invalid version. *)
Definition semver_prerelease (v : string) : option (list string) :=
  match semver_parse v with
  | Some sv =>
      match prerelease sv with
      | [] => None
      | ids => Some ids
      end
  | None => None
  end.

(** [semver.satisfies(version, range)] where [range] may be [undefined]:
    the library fails internally on it and answers [false]. *)
Definition satisfiesRange (version : string) (range : option string) : bool :=
  match range with
  | Some r => semver_satisfies version r
  | None => false
  end.

End SemverApi.

Definition isNull {A : Type} (o : option A) : bool :=
  match o with None => true | Some _ => false end.

(** Precedence of two versions on their numeric triple, major first,
    then minor, then patch. *)
Definition compareMain (a b : SemVer) : comparison :=
  match (major a ?= major b)%N with
  | Eq =>
      match (minor a ?= minor b)%N with
      | Eq => (patch a ?= patch b)%N
      | c => c
      end
  | c => c
  end.

(** ** Documents *)

(** One entry of [versions] in a registry document: [null], or a value
    with its [peerDependencies], if it has any.  ([None] also stands
    for a [peerDependencies] that is [null], and for an entry that is a
    number, a string or a boolean, which has no such property.) *)
Inductive VersionDoc : Type :=
| NullVersion
| mkVersionDoc (peerDependencies : option (Js.Obj string)).

(** The registry's answer for a package.  [versions = None] stands for an
    answer that parses as JSON but carries no [versions] mapping (the
    registry's error documents). *)
Record PackageDoc : Type := mkPackageDoc {
  versions : option (Js.Obj VersionDoc)
}.

(** The registry: [None] is a request whose promise is rejected (network
    error, or a body that is not JSON). *)
Definition Registry : Type := string -> option PackageDoc.

(** The two dependency classes of [package.json]; the script reads and
    writes no other field. *)
Record PackageJson : Type := mkPackageJson {
  dependencies : option (Js.Obj string);
  devDependencies : option (Js.Obj string)
}.

(** What is at [./package.json] when the script starts. *)
Inductive ManifestFile : Type :=
| Missing
| Malformed
| Parsed (packageJson : PackageJson).

(** ** Effects *)

Inductive Question : Type :=
| SelectMain (mainPkgName : string) (choices : list string)
| SelectCompatible (dep mainPkgName selectedMainVersion : string)
    (choices : list string).

(** The operator behind inquirer: the chosen value, or [None] when the
    prompt's promise is rejected. *)
Definition Operator : Type := Question -> option string.

Inductive Level : Type := Log | Warn | Error.

Inductive Message : Type :=
| MissingName
| ManifestNotFound
| Fetching (pkg : string)
| NoStableVersions
| Updating (pkg written : string)
| IsCompatible (dep : string) (installedRange : option string)
    (mainPkgName selectedMainVersion : string)
| NotCompatible (dep : string) (installedRange : option string)
    (mainPkgName selectedMainVersion : string)
| Replaced (dep selectedCompatible : string)
| NoCompatibleVersion (dep mainPkgName selectedMainVersion : string)
| FailedToCheck (dep : string)
| ManifestUpdated.

Inductive Event : Type :=
| Console (level : Level) (message : Message)
| Fetch (pkg : string)
| Prompt (question : Question)
| WriteFile (packageJson : PackageJson).

(** How a piece of the script ends. *)
Inductive Completion (A : Type) : Type :=
| Normal (a : A)
| Thrown
| Returned
| Exited (code : nat).

Arguments Normal {A} a.
Arguments Thrown {A}.
Arguments Returned {A}.
Arguments Exited {A} code.

Record Outcome (A : Type) : Type := mkOutcome {
  trace : list Event;
  memory : PackageJson;
  completion : Completion A
}.

Arguments mkOutcome {A} trace memory completion.
Arguments trace {A} o.
Arguments memory {A} o.
Arguments completion {A} o.

(** A computation over the in-memory [packageJson] object. *)
Definition M (A : Type) : Type := PackageJson -> Outcome A.

Definition ret {A : Type} (a : A) : M A :=
  fun pj => mkOutcome [] pj (Normal a).

Definition bind {A B : Type} (m : M A) (f : A -> M B) : M B :=
  fun pj =>
    match m pj with
    | mkOutcome t pj' (Normal a) =>
        match f a pj' with
        | mkOutcome t' pj'' c => mkOutcome (t ++ t') pj'' c
        end
    | mkOutcome t pj' Thrown => mkOutcome t pj' Thrown
    | mkOutcome t pj' Returned => mkOutcome t pj' Returned
    | mkOutcome t pj' (Exited code) => mkOutcome t pj' (Exited code)
    end.

Declare Scope js_scope.
Delimit Scope js_scope with js.
Notation "x <- m ;; k" := (bind m (fun x => k))
  (at level 61, m at next level, right associativity) : js_scope.
Notation "m ;; k" := (bind m (fun _ => k))
  (at level 61, right associativity) : js_scope.
Local Open Scope js_scope.

Definition emit (e : Event) : M unit :=
  fun pj => mkOutcome [e] pj (Normal tt).

Definition throw {A : Type} : M A :=
  fun pj => mkOutcome [] pj Thrown.

Definition returnEarly {A : Type} : M A :=
  fun pj => mkOutcome [] pj Returned.

Definition readMemory : M PackageJson :=
  fun pj => mkOutcome [] pj (Normal pj).

Definition mutate (f : PackageJson -> PackageJson) : M unit :=
  fun pj => mkOutcome [] (f pj) (Normal tt).

(** A partial operation of the language: [None] is a [TypeError]. *)
Definition orThrow {A : Type} (o : option A) : M A :=
  match o with Some a => ret a | None => throw end.

(** [try { body } catch (err) { handler }] *)
Definition tryCatch {A : Type} (body handler : M A) : M A :=
  fun pj =>
    match body pj with
    | mkOutcome t pj' Thrown =>
        match handler pj' with
        | mkOutcome t' pj'' c => mkOutcome (t ++ t') pj'' c
        end
    | r => r
    end.

(** [for (const k of ks) body(k)] *)
Fixpoint forOf (ks : list string) (body : string -> M unit) : M unit :=
  match ks with
  | [] => ret tt
  | k :: ks' => body k ;; forOf ks' body
  end.

(** ** A small semver instance

    Versions follow the grammar of Semantic Versioning 2.0.0,
    [MAJOR.MINOR.PATCH[-PRERELEASE][+BUILD]]; ranges are the empty range
    and ["*"] (any release), a caret range [^MAJOR.MINOR.PATCH] and an
    exact version.  On these inputs it answers as the library does; any
    other range syntax is answered [false].  It serves to run the model
    on concrete documents. *)

Module SemverLite.

(** [s.split(sep)] *)
Fixpoint splitOn (sep : ascii) (s : string) : list string :=
  match s with
  | EmptyString => [EmptyString]
  | String c s' =>
      if Ascii.eqb c sep then EmptyString :: splitOn sep s'
      else
        match splitOn sep s' with
        | w :: ws => String c w :: ws
        | [] => [String c EmptyString]
        end
  end.

(** The text before the first [sep], and the text after it if there is
    one. *)
Fixpoint cutAt (sep : ascii) (s : string) : string * option string :=
  match s with
  | EmptyString => (EmptyString, None)
  | String c s' =>
      if Ascii.eqb c sep then (EmptyString, Some s')
      else let (before, after) := cutAt sep s' in (String c before, after)
  end.

Definition identifierChar (c : ascii) : bool :=
  let n := N_of_ascii c in
  (((48 <=? n) && (n <=? 57)) || ((65 <=? n) && (n <=? 90))
   || ((97 <=? n) && (n <=? 122)) || (n =? 45))%N.

Fixpoint allChars (p : ascii -> bool) (s : string) : bool :=
  match s with
  | EmptyString => true
  | String c s' => p c && allChars p s'
  end.

Definition buildIdentifier (s : string) : bool :=
  Js.truthy s && allChars identifierChar s.

Definition isDigit (c : ascii) : bool := negb (isNull (Decimal.digit c)).

(** A prerelease identifier: numeric ones carry no leading zero. *)
Definition prereleaseIdentifier (s : string) : bool :=
  buildIdentifier s
  && (negb (allChars isDigit s) || negb (isNull (Decimal.canonical s))).

Definition parseMain (s : string) : option (N * N * N) :=
  match splitOn "." s with
  | [a; b; c] =>
      match Decimal.canonical a, Decimal.canonical b, Decimal.canonical c with
      | Some x, Some y, Some z => Some (x, y, z)
      | _, _, _ => None
      end
  | _ => None
  end.

Definition parse (v : string) : option SemVer :=
  let (core, build) := cutAt "+" v in
  let buildOk :=
    match build with
    | Some b => forallb buildIdentifier (splitOn "." b)
    | None => true
    end in
  let (main, pre) := cutAt "-" core in
  match parseMain main with
  | Some (x, y, z) =>
      match pre with
      | None => if buildOk then Some (mkSemVer x y z []) else None
      | Some p =>
          let ids := splitOn "." p in
          if buildOk && forallb prereleaseIdentifier ids
          then Some (mkSemVer x y z ids) else None
      end
  | None => None
  end.

(** [^x.y.z]: at least [x.y.z], below the next change of the leftmost
    non-zero component. *)
Definition caret (low v : SemVer) : bool :=
  match compareMain v low with
  | Lt => false
  | _ =>
      if (0 <? major low)%N then (major v =? major low)%N
      else if (0 <? minor low)%N
           then (major v =? 0)%N && (minor v =? minor low)%N
           else (major v =? 0)%N && (minor v =? 0)%N
                && (patch v =? patch low)%N
  end.

Definition release (v : SemVer) : bool :=
  match prerelease v with [] => true | _ => false end.

Definition sameVersion (a b : SemVer) : bool :=
  match compareMain a b with
  | Eq =>
      if list_eq_dec string_dec (prerelease a) (prerelease b)
      then true else false
  | _ => false
  end.

Definition satisfies (version range : string) : bool :=
  match parse version with
  | None => false
  | Some v =>
      match range with
      | EmptyString => release v
      | String "*" EmptyString => release v
      | String "^" low =>
          match parse low with
          | Some l => release l && release v && caret l v
          | None => false
          end
      | _ =>
          match parse range with
          | Some r => sameVersion v r
          | None => false
          end
      end
  end.

Definition lib : SemverLib :=
  {| semver_parse := parse; semver_satisfies := satisfies |}.

End SemverLite.

(** ** The script *)

(** The flags and the package name read from [process.argv]. *)
Record Config : Type := mkConfig {
  mainPkgName : string;
  useLatest : bool;
  showIncompatible : bool;
  autoUpdate : bool
}.

(** [args.includes(flag)] *)
Definition includes (args : list string) (flag : string) : bool :=
  existsb (String.eqb flag) args.

(** The constants computed from [args] at the top of the script;
    [None] when [mainPkgName] is [undefined] or empty, where the script
    exits. *)
Definition parseArgs (args : list string) : option Config :=
  match find (fun arg => negb (String.prefix "--" arg)) args with
  | Some name =>
      if Js.truthy name then
        Some (mkConfig name
                (includes args "--latest")
                (includes args "--check-incompatibilities")
                (includes args "--autoupdate"))
      else None
  | None => None
  end.

(** [getAllDependencies]: [{...dependencies, ...devDependencies}]. *)
Definition getAllDependencies (packageJson : PackageJson) : Js.Obj string :=
  Js.spread (Js.orEmpty (dependencies packageJson))
            (Js.orEmpty (devDependencies packageJson)).

(** [packageJson.dependencies[k] = v] on an existing mapping. *)
Definition setDependency (pj : PackageJson) (k v : string) : PackageJson :=
  mkPackageJson (option_map (fun o => Js.assign o k v) (dependencies pj))
                (devDependencies pj).

(** [packageJson.devDependencies[k] = v] on an existing mapping. *)
Definition setDevDependency (pj : PackageJson) (k v : string) : PackageJson :=
  mkPackageJson (dependencies pj)
                (option_map (fun o => Js.assign o k v) (devDependencies pj)).

(** Lines 184-188: where a replacement version is stored. *)
Definition writeDependency (dep selectedCompatible : string)
    (pj : PackageJson) : PackageJson :=
  if Js.truthyAt (dependencies pj) dep then
    setDependency pj dep selectedCompatible
  else if Js.truthyAt (devDependencies pj) dep then
    setDevDependency pj dep selectedCompatible
  else pj.

(** [depMeta.versions[version].peerDependencies || {}]; reading a
    property of [null] or [undefined] is a [TypeError]. *)
Definition peerOf (vs : Js.Obj VersionDoc) (version : string)
    : option (Js.Obj string) :=
  match Js.get vs version with
  | Some (mkVersionDoc peerDependencies) =>
      Some (Js.orEmpty peerDependencies)
  | Some NullVersion => None
  | None => None
  end.

Section Script.
Context `{SemverLib}.
Variable cfg : Config.
Variable registry : Registry.
Variable operator : Operator.

(** The filter of lines 100 and 142. *)
Definition isStable (v : string) : bool :=
  semver_valid v && isNull (semver_prerelease v).

(** Lines 99-101 and 141-143:
    [Object.keys(versions).filter(...).reverse()]. *)
Definition stableVersions (vs : Js.Obj VersionDoc) : list string :=
  rev (filter isStable (Js.keys vs)).

(** [fetchJson('https://registry.npmjs.org/' + pkg)], awaited. *)
Definition fetchJson (pkg : string) : M PackageDoc :=
  emit (Fetch pkg) ;; orThrow (registry pkg).

(** [(await inquirer.prompt([question])).version] *)
Definition prompt (q : Question) : M string :=
  emit (Prompt q) ;; orThrow (operator q).

(** What is stored for the main package (lines 125, 127, 130). *)
Definition written (selectedMainVersion : string) : string :=
  if useLatest cfg then "^" ++ selectedMainVersion else selectedMainVersion.

(** Lines 124-131. *)
Definition applyMainVersion (selectedMainVersion : string)
    (pj : PackageJson) : PackageJson :=
  let main := mainPkgName cfg in
  if Js.truthyAt (dependencies pj) main then
    setDependency pj main (written selectedMainVersion)
  else if Js.truthyAt (devDependencies pj) main then
    setDevDependency pj main (written selectedMainVersion)
  else
    mkPackageJson
      (Some (Js.assign (Js.orEmpty (dependencies pj)) main
                       (written selectedMainVersion)))
      (devDependencies pj).

(** The test of lines 148 and 163:
    [!peer[mainPkgName] ||
     semver.satisfies(selectedMainVersion, peer[mainPkgName])].
    Where [peer] has no own property of that name, the read finds
    [undefined], or, for a name of [Object.prototype], a truthy value
    that is no range: [semver.satisfies] answers [false] for it. *)
Definition peerAccepts (selectedMainVersion : string)
    (peer : Js.Obj string) : bool :=
  match Js.get peer (mainPkgName cfg) with
  | Some range =>
      negb (Js.truthy range) || semver_satisfies selectedMainVersion range
  | None => negb (Js.inherited (mainPkgName cfg))
  end.

(** The loop of lines 145-154: the value of [alreadyCompatible] when it
    ends. *)
Fixpoint alreadyCompatible (selectedMainVersion : string)
    (vs : Js.Obj VersionDoc) (installedRange : option string)
    (versions : list string) : option bool :=
  match versions with
  | [] => Some false
  | version :: rest =>
      match peerOf vs version with
      | Some peer =>
          if peerAccepts selectedMainVersion peer
          then Some (satisfiesRange version installedRange)
          else alreadyCompatible selectedMainVersion vs installedRange rest
      | None => None
      end
  end.

(** The filter of lines 161-164. *)
Fixpoint compatibleVersions (selectedMainVersion : string)
    (vs : Js.Obj VersionDoc) (versions : list string)
    : option (list string) :=
  match versions with
  | [] => Some []
  | version :: rest =>
      match peerOf vs version with
      | Some peer =>
          match compatibleVersions selectedMainVersion vs rest with
          | Some kept =>
              Some (if peerAccepts selectedMainVersion peer
                    then version :: kept else kept)
          | None => None
          end
      | None => None
      end
  end.

(** The [try] block of the loop body, lines 139-191. *)
Definition checkDependencyBody (allDeps : Js.Obj string)
    (selectedMainVersion dep : string) : M unit :=
  let main := mainPkgName cfg in
  depMeta <- fetchJson dep ;;
  let installedRange := Js.get allDeps dep in
  vs <- orThrow (versions depMeta) ;;
  let versions := stableVersions vs in
  compatible <-
    orThrow (alreadyCompatible selectedMainVersion vs installedRange
               versions) ;;
  if compatible : bool then
    emit (Console Log
            (IsCompatible dep installedRange main selectedMainVersion))
  else
    candidates <- orThrow (compatibleVersions selectedMainVersion vs
                             versions) ;;
    match candidates with
    | first :: _ =>
        emit (Console Warn
                (NotCompatible dep installedRange main
                   selectedMainVersion)) ;;
        selectedCompatible <-
          (if autoUpdate cfg then ret first
           else prompt (SelectCompatible dep main selectedMainVersion
                          (firstn 20 candidates))) ;;
        emit (Console Log (Replaced dep selectedCompatible)) ;;
        mutate (writeDependency dep selectedCompatible)
    | [] =>
        if showIncompatible cfg then
          emit (Console Warn
                  (NoCompatibleVersion dep main selectedMainVersion))
        else ret tt
    end.

(** One turn of the loop for a dependency other than the main package,
    lines 138-195: the [try] block and its [catch]. *)
Definition checkDependency (allDeps : Js.Obj string)
    (selectedMainVersion dep : string) : M unit :=
  tryCatch (checkDependencyBody allDeps selectedMainVersion dep)
           (emit (Console Warn (FailedToCheck dep))).

(** Lines 135-196. *)
Definition iterateDependencies (allDeps : Js.Obj string)
    (selectedMainVersion : string) : M unit :=
  forOf (Js.keys allDeps)
    (fun dep =>
       if String.eqb dep (mainPkgName cfg) then ret tt
       else checkDependency allDeps selectedMainVersion dep).

(** Lines 97-199, once [package.json] has been read. *)
Definition runLoaded : M unit :=
  let main := mainPkgName cfg in
  emit (Console Log (Fetching main)) ;;
  metadata <- fetchJson main ;;
  vs <- orThrow (versions metadata) ;;
  let allVersions := stableVersions vs in
  match allVersions with
  | [] => emit (Console Error NoStableVersions) ;; returnEarly
  | first :: _ =>
      selectedMainVersion <-
        (if useLatest cfg then ret first
         else prompt (SelectMain main (firstn 50 allVersions))) ;;
      emit (Console Log (Updating main (written selectedMainVersion))) ;;
      mutate (applyMainVersion selectedMainVersion) ;;
      packageJson <- readMemory ;;
      let allDeps := getAllDependencies packageJson in
      iterateDependencies allDeps selectedMainVersion ;;
      final <- readMemory ;;
      emit (WriteFile final) ;;
      emit (Console Log ManifestUpdated)
  end.

(** No [packageJson] object exists before the file is read. *)
Definition unloaded : PackageJson := mkPackageJson None None.

(** [run]. *)
Definition run (file : ManifestFile) : Outcome unit :=
  match file with
  | Missing =>
      mkOutcome [Console Error ManifestNotFound] unloaded (Exited 1)
  | Malformed => mkOutcome [] unloaded Thrown
  | Parsed packageJson => runLoaded packageJson
  end.

End Script.

(** The whole script: the argument check of lines 53-62, then [run()]. *)
Definition script `{SemverLib} (args : list string) (registry : Registry)
    (operator : Operator) (file : ManifestFile) : Outcome unit :=
  match parseArgs args with
  | Some cfg => run cfg registry operator file
  | None => mkOutcome [Console Error MissingName] unloaded (Exited 1)
  end.

(** What is on disk after the effects in [events], starting from
    [file]. *)
Fixpoint persisted (file : ManifestFile) (events : list Event) : ManifestFile :=
  match events with
  | [] => file
  | WriteFile pj :: rest => persisted (Parsed pj) rest
  | _ :: rest => persisted file rest
  end.

(** ** Notions used to state the properties *)

Section Notions.
Context `{SemverLib}.
Variable cfg : Config.
Variable registry : Registry.
Variable operator : Operator.

(** [a] has strictly higher precedence than [b], both being valid. *)
Definition descends (a b : string) : bool :=
  match semver_parse a, semver_parse b with
  | Some x, Some y =>
      match compareMain x y with Gt => true | _ => false end
  | _, _ => false
  end.

(** The version [run] goes on with after lines 97-120, when it gets
    that far: [None] where the registry request for the main package
    fails, its document has no stable version or the prompt is
    rejected. *)
Definition selectedMain : option string :=
  match registry (mainPkgName cfg) with
  | Some metadata =>
      match versions metadata with
      | Some vs =>
          match stableVersions vs with
          | first :: rest =>
              if useLatest cfg then Some first
              else operator (SelectMain (mainPkgName cfg)
                               (firstn 50 (first :: rest)))
          | [] => None
          end
      | None => None
      end
  | None => None
  end.

(** The effects of lines 97-120, up to the choice of the main package's
    version. *)
Definition selectionEvents : list Event :=
  Console Log (Fetching (mainPkgName cfg))
  :: Fetch (mainPkgName cfg)
  :: match registry (mainPkgName cfg) with
     | Some metadata =>
         match versions metadata with
         | Some vs =>
             match stableVersions vs with
             | first :: rest =>
                 if useLatest cfg then []
                 else [Prompt (SelectMain (mainPkgName cfg)
                                 (firstn 50 (first :: rest)))]
             | [] => [Console Error NoStableVersions]
             end
         | None => []
         end
     | None => []
     end.

(** The version one turn of the loop stores for [dep], if it stores
    one: the turn finds the dependency incompatible, has candidates,
    and takes the first of them or the operator's answer. *)
Definition replacement (allDeps : Js.Obj string)
    (selectedMainVersion dep : string) : option string :=
  match registry dep with
  | Some depMeta =>
      match versions depMeta with
      | Some vs =>
          match alreadyCompatible cfg selectedMainVersion vs
                  (Js.get allDeps dep) (stableVersions vs),
                compatibleVersions cfg selectedMainVersion vs
                  (stableVersions vs) with
          | Some false, Some (first :: rest) =>
              if autoUpdate cfg then Some first
              else operator (SelectCompatible dep (mainPkgName cfg)
                               selectedMainVersion
                               (firstn 20 (first :: rest)))
          | _, _ => None
          end
      | None => None
      end
  | None => None
  end.

(** The semver library reads the empty range as "any release". *)
Definition EmptyRangeMatchesReleases : Prop :=
  forall v, isStable v = true -> semver_satisfies v "" = true.

End Notions.

(** Every two neighbours of [l] are related by [R]. *)
Fixpoint chain {A : Type} (R : A -> A -> bool) (l : list A) : bool :=
  match l with
  | a :: rest =>
      match rest with
      | b :: _ => R a b && chain R rest
      | [] => true
      end
  | [] => true
  end.

Definition strictlyDescending `{SemverLib} (l : list string) : bool :=
  chain descends l.

Definition strictlyAscending `{SemverLib} (l : list string) : bool :=
  chain (fun a b => descends b a) l.

Definition isPrompt (e : Event) : bool :=
  match e with Prompt _ => true | _ => false end.

Definition isWrite (e : Event) : bool :=
  match e with WriteFile _ => true | _ => false end.

(** A prompt about the dependency [dep]. *)
Definition isPromptFor (dep : string) (e : Event) : bool :=
  match e with
  | Prompt (SelectCompatible d _ _ _) => String.eqb d dep
  | _ => false
  end.

(** The two entries a package can have in the manifest. *)
Definition entries (pj : PackageJson) (k : string)
    : option string * option string :=
  (Js.getOpt (dependencies pj) k, Js.getOpt (devDependencies pj) k).

(** The key sets of the two dependency classes. *)
Definition declared (pj : PackageJson) : list string * list string :=
  (Js.keys (Js.orEmpty (dependencies pj)),
   Js.keys (Js.orEmpty (devDependencies pj))).

(** An object has each key once. *)
Definition wellFormed (pj : PackageJson) : Prop :=
  NoDup (Js.keys (Js.orEmpty (dependencies pj)))
  /\ NoDup (Js.keys (Js.orEmpty (devDependencies pj))).

(** What a read [o?.[k]] and an assignment [o[k] = v] go by: whether
    the mapping exists, and the own property it has for [k]. *)
Definition slot (o : option (Js.Obj string)) (k : string)
    : option (option string) :=
  option_map (fun o' => Js.get o' k) o.

Definition slots (pj : PackageJson) (k : string)
    : option (option string) * option (option string) :=
  (slot (dependencies pj) k, slot (devDependencies pj) k).

(** ** Concrete documents *)

Module Examples.

(** A version entry with the given peer dependencies. *)
Definition withPeers (peers : Js.Obj string) : VersionDoc :=
  mkVersionDoc (Some peers).

Definition plain : VersionDoc := mkVersionDoc None.

Definition document (vs : Js.Obj VersionDoc) : PackageDoc :=
  mkPackageDoc (Some vs).

Definition reactVersions : Js.Obj VersionDoc :=
  [("18.2.0", plain); ("19.0.0-rc.1", plain); ("19.1.0", plain)].

Definition reactDomVersions : Js.Obj VersionDoc :=
  [("18.2.0", withPeers [("react", "^18.2.0")]);
   ("19.1.0", withPeers [("react", "^19.0.0")])].

(** A package that released [1.0.1] after [2.0.0]. *)
Definition backportVersions : Js.Obj VersionDoc :=
  [("1.0.0", plain); ("2.0.0", plain); ("1.0.1", plain)].

Definition npm : Registry :=
  fun pkg =>
    if String.eqb pkg "react" then Some (document reactVersions)
    else if String.eqb pkg "react-dom" then Some (document reactDomVersions)
    else if String.eqb pkg "tool" then Some (document backportVersions)
    else if String.eqb pkg "broken" then Some (mkPackageDoc None)
    else None.

(** An operator who is never there. *)
Definition nobody : Operator := fun _ => None.

(** An operator who always picks [answer]. *)
Definition picks (answer : string) : Operator := fun _ => Some answer.

Definition latestAuto (main : string) : Config := mkConfig main true false true.

Definition interactive (main : string) : Config :=
  mkConfig main false false false.

Definition reactApp : PackageJson :=
  mkPackageJson
    (Some [("react", "18.2.0"); ("react-dom", "18.2.0");
           ("left-pad", "1.0.0")])
    None.

(** The main package is there already, with the range npm reads as
    "any version", as a development dependency. *)
Definition emptyDevRangeApp : PackageJson :=
  mkPackageJson None (Some [("react", "")]).

(** A dependency declared in both classes, with the empty range under
    [dependencies]. *)
Definition splitApp : PackageJson :=
  mkPackageJson
    (Some [("react", "18.2.0"); ("react-dom", "")])
    (Some [("react-dom", "18.2.0")]).

(** A registry that knows no react-dom release for react 19. *)
Definition legacyNpm : Registry :=
  fun pkg =>
    if String.eqb pkg "react" then Some (document reactVersions)
    else if String.eqb pkg "react-dom"
         then Some (document
                      [("18.2.0", withPeers [("react", "^18.2.0")])])
         else None.

Definition specApp : PackageJson :=
  mkPackageJson (Some [("react", "18.2.0"); ("react-dom", "18.2.0")]) None.

(** An application that asks for the second major release of [tool]. *)
Definition toolApp : PackageJson :=
  mkPackageJson (Some [("react", "18.2.0"); ("tool", "^2.0.0")]) None.

(** A registry that also knows a package named [constructor]. *)
Definition constructorNpm : Registry :=
  fun pkg =>
    if String.eqb pkg "constructor" then Some (document reactDomVersions)
    else npm pkg.

(** An application with that package as a development dependency. *)
Definition constructorApp : PackageJson :=
  mkPackageJson (Some [("react", "18.2.0")])
                (Some [("constructor", "18.2.0")]).

Definition upToDateApp : PackageJson :=
  mkPackageJson
    (Some [("react", "18.2.0"); ("react-dom", "^19.0.0")])
    None.

End Examples.

(** ** Further notions *)

(** The packages a trace asks the registry about, in order. *)
Fixpoint requests (events : list Event) : list string :=
  match events with
  | [] => []
  | Fetch pkg :: rest => pkg :: requests rest
  | _ :: rest => requests rest
  end.

(** The package an effect is about, for the effects of a turn. *)
Definition subject (e : Event) : option string :=
  match e with
  | Fetch pkg => Some pkg
  | Prompt (SelectCompatible dep _ _ _) => Some dep
  | Console _ (IsCompatible dep _ _ _) => Some dep
  | Console _ (NotCompatible dep _ _ _) => Some dep
  | Console _ (Replaced dep _) => Some dep
  | Console _ (NoCompatibleVersion dep _ _) => Some dep
  | Console _ (FailedToCheck dep) => Some dep
  | _ => None
  end.

(** The notice of line 190. *)
Definition isNotice (e : Event) : bool :=
  match e with
  | Console Warn (NoCompatibleVersion _ _ _) => true
  | _ => false
  end.

(** A trace without the notices of line 190. *)
Definition withoutNotices (events : list Event) : list Event :=
  filter (fun e => negb (isNotice e)) events.

(** An outcome with the notices taken out of its trace. *)
Definition muted {A : Type} (r : Outcome A) : Outcome A :=
  mkOutcome (withoutNotices (trace r)) (memory r) (completion r).

(** [cfg] with [--check-incompatibilities] set or cleared. *)
Definition withCheck (b : bool) (cfg : Config) : Config :=
  mkConfig (mainPkgName cfg) (useLatest cfg) b (autoUpdate cfg).

(** No entry of [k] holds the empty range. *)
Definition noEmptyRange (pj : PackageJson) (k : string) : Prop :=
  fst (entries pj k) <> Some "" /\ snd (entries pj k) <> Some "".

Section FurtherNotions.
Context `{SemverLib}.
Variable cfg : Config.

(** The peer dependencies of the version can be read: its entry is not
    [null]. *)
Definition readable (vs : Js.Obj VersionDoc) (version : string) : bool :=
  negb (isNull (peerOf vs version)).

(** The test of line 163 does not turn the version down: it passes, or
    it cannot be made because the peer dependencies cannot be read. *)
Definition accepted (selectedMainVersion : string)
    (vs : Js.Obj VersionDoc) (version : string) : bool :=
  match peerOf vs version with
  | Some peer => peerAccepts cfg selectedMainVersion peer
  | None => true
  end.

(** The semver library lets a release satisfy the range made of its own
    version string. *)
Definition ReleaseSatisfiesItself : Prop :=
  forall v, isStable v = true -> semver_satisfies v v = true.

(** The semver library rejects the empty string as a version. *)
Definition EmptyStringInvalid : Prop := semver_valid "" = false.

End FurtherNotions.

Section PromptNotions.
Context `{SemverLib}.
Variable cfg : Config.
Variable registry : Registry.

Local Abbreviation main := (mainPkgName cfg).

(** What a prompt about a dependency offers. *)
Definition offersCandidates (selected : string) (q : Question) : Prop :=
  match q with
  | SelectCompatible d m sel choices =>
      d <> main /\ m = main /\ sel = selected
      /\ autoUpdate cfg = false
      /\ choices <> [] /\ length choices <= 20
      /\ exists depMeta vs,
           registry d = Some depMeta /\ versions depMeta = Some vs
           /\ choices
              = firstn 20 (filter (accepted cfg selected vs)
                             (stableVersions vs))
  | SelectMain _ _ => False
  end.

(** What the prompt about the main package offers. *)
Definition offersStableVersions (q : Question) : Prop :=
  match q with
  | SelectMain m choices =>
      m = main /\ useLatest cfg = false
      /\ choices <> [] /\ length choices <= 50
      /\ exists metadata vs,
           registry main = Some metadata /\ versions metadata = Some vs
           /\ choices = firstn 50 (stableVersions vs)
  | SelectCompatible _ _ _ _ => False
  end.

End PromptNotions.

Section ReplacementNotions.
Context `{SemverLib}.
Variable cfg : Config.
Variable registry : Registry.
Variable operator : Operator.

Local Abbreviation main := (mainPkgName cfg).

(** Where a reported replacement comes from. *)
Definition replacedBy (allDeps : Js.Obj string) (selected dep v : string)
    : Prop :=
  exists depMeta vs first rest,
    registry dep = Some depMeta /\ versions depMeta = Some vs
    /\ filter (accepted cfg selected vs) (stableVersions vs) = first :: rest
    /\ satisfiesRange first (Js.get allDeps dep) = false
    /\ if autoUpdate cfg then v = first
       else operator (SelectCompatible dep main selected
                        (firstn 20 (first :: rest))) = Some v.

End ReplacementNotions.

Module MoreExamples.

(** A package that has published release candidates only. *)
Definition previewVersions : Js.Obj VersionDoc :=
  [("1.0.0-rc.1", Examples.plain); ("1.0.0-rc.2", Examples.plain)].

Definition previewNpm : Registry :=
  fun pkg =>
    if String.eqb pkg "preview"
    then Some (Examples.document previewVersions)
    else Examples.npm pkg.

(** An operator who takes the first choice of every list. *)
Definition takesFirst : Operator :=
  fun q =>
    match q with
    | SelectCompatible _ _ _ choices => hd_error choices
    | SelectMain _ choices => hd_error choices
    end.

Definition latestOnly (main : string) : Config :=
  mkConfig main true false false.

(** react-dom is held back at 17. *)
Definition heldBackApp : PackageJson :=
  mkPackageJson
    (Some [("react", "18.2.0"); ("react-dom", "^17.0.0")])
    (Some [("left-pad", "1.0.0")]).

End MoreExamples.

(** * Properties *)

(** ** Objects *)

Section ObjectFacts.
Context {V : Type}.
Implicit Types (o a b : Js.Obj V) (k : string) (v : V).

Lemma get_none_iff o k : Js.get o k = None <-> ~ In k (Js.keys o).
Proof.
  induction o as [|[k' v'] o IH]; simpl.
  - tauto.
  - destruct (String.eqb_spec k' k) as [->|Hne].
    + split; [discriminate | intros Hn; exfalso; apply Hn; now left].
    + rewrite IH. tauto.
Qed.

Lemma get_some_in o k v : Js.get o k = Some v -> In k (Js.keys o).
Proof.
  intros Hget. destruct (in_dec string_dec k (Js.keys o)) as [Hin|Hout].
  - exact Hin.
  - apply get_none_iff in Hout. congruence.
Qed.

Lemma in_keys_get o k : In k (Js.keys o) -> exists v, Js.get o k = Some v.
Proof.
  intros Hin. destruct (Js.get o k) as [v|] eqn:E.
  - now exists v.
  - apply get_none_iff in E. contradiction.
Qed.

Lemma keys_overwrite o k v : Js.keys (Js.overwrite o k v) = Js.keys o.
Proof.
  induction o as [|[k' v'] o IH]; simpl; [reflexivity|].
  destruct (String.eqb k' k); simpl; [reflexivity | now rewrite IH].
Qed.

Lemma get_overwrite o k v k' :
  Js.get (Js.overwrite o k v) k' =
  if String.eqb k k'
  then match Js.get o k with Some _ => Some v | None => None end
  else Js.get o k'.
Proof.
  induction o as [|[k0 v0] o IH]; simpl.
  - now destruct (String.eqb k k').
  - destruct (String.eqb_spec k0 k) as [->|Hne]; simpl.
    + destruct (String.eqb_spec k k') as [->|Hne']; reflexivity.
    + destruct (String.eqb_spec k0 k') as [->|Hne'].
      * destruct (String.eqb_spec k k') as [->|_]; [contradiction|reflexivity].
      * exact IH.
Qed.

Lemma in_keys_insertIndex n o k v k' :
  In k' (Js.keys (Js.insertIndex n k v o)) <-> k' = k \/ In k' (Js.keys o).
Proof.
  induction o as [|[k0 v0] o IH]; simpl.
  - intuition congruence.
  - destruct (Js.arrayIndex k0) as [n'|]; [destruct (n <? n')%N|]; simpl;
      try rewrite IH; intuition congruence.
Qed.

Lemma get_insertIndex n o k v k' :
  Js.get o k = None ->
  Js.get (Js.insertIndex n k v o) k' =
  if String.eqb k k' then Some v else Js.get o k'.
Proof.
  induction o as [|[k0 v0] o IH]; simpl; intros Hnone.
  - reflexivity.
  - destruct (String.eqb_spec k0 k) as [->|Hne]; [discriminate|].
    destruct (Js.arrayIndex k0) as [n'|]; [destruct (n <? n')%N|]; simpl;
      try reflexivity.
    destruct (String.eqb_spec k0 k') as [->|Hne'].
    + destruct (String.eqb_spec k k') as [->|_]; [contradiction|reflexivity].
    + now apply IH.
Qed.

Lemma get_app o o' k :
  Js.get (o ++ o') k =
  match Js.get o k with Some v => Some v | None => Js.get o' k end.
Proof.
  induction o as [|[k0 v0] o IH]; simpl; [reflexivity|].
  now destruct (String.eqb k0 k).
Qed.

Lemma has_true_iff o k : Js.has o k = true <-> In k (Js.keys o).
Proof.
  unfold Js.has. destruct (Js.get o k) as [v|] eqn:E.
  - split; [intros _; eapply get_some_in; eauto | reflexivity].
  - split; [discriminate|]. intros Hin. apply get_none_iff in E. contradiction.
Qed.

(** Reading a property after an assignment. *)
Lemma get_set o k v k' :
  Js.get (Js.set o k v) k' = if String.eqb k k' then Some v else Js.get o k'.
Proof.
  unfold Js.set, Js.has. destruct (Js.get o k) as [v0|] eqn:E.
  - rewrite get_overwrite, E. reflexivity.
  - destruct (Js.arrayIndex k) as [n|].
    + now apply get_insertIndex.
    + rewrite get_app. simpl.
      destruct (String.eqb_spec k k') as [->|Hne].
      * now rewrite E.
      * now destruct (Js.get o k').
Qed.

(** An assignment adds at most its own key and removes none. *)
Lemma in_keys_set o k v k' :
  In k' (Js.keys (Js.set o k v)) <-> k' = k \/ In k' (Js.keys o).
Proof.
  unfold Js.set. destruct (Js.has o k) eqn:E.
  - rewrite keys_overwrite. apply has_true_iff in E.
    split; [tauto | intros [->|Hin]; assumption].
  - destruct (Js.arrayIndex k) as [n|].
    + apply in_keys_insertIndex.
    + unfold Js.keys. rewrite map_app, in_app_iff. simpl. intuition congruence.
Qed.

(** Assigning to a property that exists leaves the key list as it is. *)
Lemma keys_set_present o k v :
  In k (Js.keys o) -> Js.keys (Js.set o k v) = Js.keys o.
Proof.
  intros Hin. unfold Js.set. apply has_true_iff in Hin. rewrite Hin.
  apply keys_overwrite.
Qed.

Lemma nodup_keys_insertIndex n o k v :
  ~ In k (Js.keys o) -> NoDup (Js.keys o) ->
  NoDup (Js.keys (Js.insertIndex n k v o)).
Proof.
  induction o as [|[k0 v0] o IH]; simpl; intros Hout Hnd.
  - constructor; [tauto | constructor].
  - assert (Hcons : NoDup (k :: k0 :: Js.keys o)) by (constructor; assumption).
    destruct (Js.arrayIndex k0) as [n'|]; [destruct (n <? n')%N|]; simpl;
      try exact Hcons.
    inversion Hnd as [|? ? Hk0 Hnd']; subst.
    constructor.
    + rewrite in_keys_insertIndex. intros [->|Hin]; tauto.
    + apply IH; tauto.
Qed.

Lemma nodup_keys_set o k v :
  NoDup (Js.keys o) -> NoDup (Js.keys (Js.set o k v)).
Proof.
  intros Hnd. unfold Js.set. destruct (Js.has o k) eqn:E.
  - now rewrite keys_overwrite.
  - assert (Hout : ~ In k (Js.keys o)).
    { intros Hin. apply has_true_iff in Hin. congruence. }
    destruct (Js.arrayIndex k) as [n|].
    + now apply nodup_keys_insertIndex.
    + unfold Js.keys. rewrite map_app. simpl.
      apply NoDup_app; [exact Hnd | repeat constructor; tauto |].
      intros x Hx [<-|[]]. contradiction.
Qed.

Lemma overwrite_same o k v :
  Js.get o k = Some v -> Js.overwrite o k v = o.
Proof.
  induction o as [|[k' v'] o IH]; simpl; [reflexivity|].
  destruct (String.eqb k' k).
  - now intros [= ->].
  - intros Hget. now rewrite IH.
Qed.

(** Defining a property with the value it holds changes nothing. *)
Lemma set_same o k v : Js.get o k = Some v -> Js.set o k v = o.
Proof.
  intros Hget. unfold Js.set, Js.has. rewrite Hget.
  now apply overwrite_same.
Qed.

(** Reading a property after an assignment. *)
Lemma get_assign o k v k' :
  Js.get (Js.assign o k v) k' =
  if String.eqb k k' && Js.assignable o k then Some v else Js.get o k'.
Proof.
  unfold Js.assign. destruct (Js.assignable o k).
  - rewrite get_set. now destruct (String.eqb k k').
  - now rewrite andb_false_r.
Qed.

(** An assignment adds at most its own key and removes none. *)
Lemma in_keys_assign o k v k' :
  In k' (Js.keys (Js.assign o k v)) <->
  (k' = k /\ Js.assignable o k = true) \/ In k' (Js.keys o).
Proof.
  unfold Js.assign. destruct (Js.assignable o k).
  - rewrite in_keys_set. intuition.
  - intuition discriminate.
Qed.

Lemma keys_assign_present o k v :
  In k (Js.keys o) -> Js.keys (Js.assign o k v) = Js.keys o.
Proof.
  intros Hin. unfold Js.assign.
  destruct (Js.assignable o k); [now apply keys_set_present | reflexivity].
Qed.

Lemma nodup_keys_assign o k v :
  NoDup (Js.keys o) -> NoDup (Js.keys (Js.assign o k v)).
Proof.
  intros Hnd. unfold Js.assign.
  destruct (Js.assignable o k); [now apply nodup_keys_set | exact Hnd].
Qed.

(** Assigning to a property the value it holds changes nothing. *)
Lemma assign_same o k v : Js.get o k = Some v -> Js.assign o k v = o.
Proof.
  intros Hget. unfold Js.assign.
  destruct (Js.assignable o k); [now apply set_same | reflexivity].
Qed.

Lemma in_keys_spread a b k :
  In k (Js.keys (Js.spread a b)) <-> In k (Js.keys a) \/ In k (Js.keys b).
Proof.
  unfold Js.spread. revert a.
  induction b as [|[k0 v0] b IH]; simpl; intros a.
  - tauto.
  - rewrite IH, in_keys_set. intuition congruence.
Qed.

Lemma nodup_keys_spread a b :
  NoDup (Js.keys a) -> NoDup (Js.keys (Js.spread a b)).
Proof.
  unfold Js.spread. revert a.
  induction b as [|[k0 v0] b IH]; simpl; intros a Hnd; [exact Hnd|].
  apply IH, nodup_keys_set, Hnd.
Qed.

(** In [{...a, ...b}] a property of [b] hides the one of [a]. *)
Lemma get_spread a b k :
  NoDup (Js.keys b) ->
  Js.get (Js.spread a b) k =
  match Js.get b k with Some v => Some v | None => Js.get a k end.
Proof.
  unfold Js.spread. revert a.
  induction b as [|[k0 v0] b IH]; simpl; intros a Hnd; [reflexivity|].
  inversion Hnd as [|? ? Hout Hnd']; subst.
  rewrite (IH _ Hnd'), get_set.
  destruct (String.eqb_spec k0 k) as [->|Hne]; [|reflexivity].
  apply get_none_iff in Hout. now rewrite Hout.
Qed.

End ObjectFacts.

(** ** The manifest *)

Lemma get_orEmpty {V : Type} (o : option (Js.Obj V)) (k : string) :
  Js.get (Js.orEmpty o) k = Js.getOpt o k.
Proof. destruct o; reflexivity. Qed.

(** Only an existing mapping gives a truthy read. *)
Lemma truthyAt_some (o : option (Js.Obj string)) (k : string) :
  Js.truthyAt o k = true -> exists o', o = Some o'.
Proof. destruct o as [o'|]; [now exists o' | discriminate]. Qed.

(** For a name that [Object.prototype] does not have, a truthy read is
    the read of an own entry. *)
Lemma truthyAt_present (o : option (Js.Obj string)) (k : string) :
  Js.inherited k = false ->
  Js.truthyAt o k = true ->
  exists o' s, o = Some o' /\ Js.get o' k = Some s /\ Js.truthy s = true
               /\ In k (Js.keys o').
Proof.
  unfold Js.truthyAt. intros Hown. destruct o as [o'|]; [|discriminate].
  destruct (Js.get o' k) as [s|] eqn:E; [|congruence].
  intros Ht. exists o', s. repeat split; try assumption.
  eapply get_some_in; eauto.
Qed.

(** For such a name a read goes by the own entry. *)
Lemma truthyAt_own (o : option (Js.Obj string)) (k : string) :
  Js.inherited k = false ->
  Js.truthyAt o k
  = match Js.getOpt o k with Some s => Js.truthy s | None => false end.
Proof.
  intros Hown. destruct o as [o'|]; simpl; [|reflexivity].
  now destruct (Js.get o' k).
Qed.

Lemma truthyAt_entries (pj pj' : PackageJson) (k : string) :
  Js.inherited k = false ->
  entries pj k = entries pj' k ->
  Js.truthyAt (dependencies pj) k = Js.truthyAt (dependencies pj') k
  /\ Js.truthyAt (devDependencies pj) k = Js.truthyAt (devDependencies pj') k.
Proof.
  unfold entries. intros Hown [= E1 E2].
  now rewrite !(truthyAt_own _ _ Hown), E1, E2.
Qed.

(** A read goes by the slot only. *)
Lemma truthyAt_slot (o o' : option (Js.Obj string)) (k : string) :
  slot o k = slot o' k -> Js.truthyAt o k = Js.truthyAt o' k.
Proof.
  destruct o as [a|], o' as [b|]; simpl; try discriminate;
    [|reflexivity].
  now intros [= ->].
Qed.

Lemma getOpt_slot (o o' : option (Js.Obj string)) (k : string) :
  slot o k = slot o' k -> Js.getOpt o k = Js.getOpt o' k.
Proof.
  destruct o as [a|], o' as [b|]; simpl; try discriminate;
    [|reflexivity].
  now intros [= ->].
Qed.

Lemma slots_entries (pj pj' : PackageJson) (k : string) :
  slots pj k = slots pj' k -> entries pj k = entries pj' k.
Proof.
  unfold slots, entries. intros [= E1 E2].
  now rewrite (getOpt_slot _ _ _ E1), (getOpt_slot _ _ _ E2).
Qed.

Lemma slots_truthyAt (pj pj' : PackageJson) (k : string) :
  slots pj k = slots pj' k ->
  Js.truthyAt (dependencies pj) k = Js.truthyAt (dependencies pj') k
  /\ Js.truthyAt (devDependencies pj) k = Js.truthyAt (devDependencies pj') k.
Proof.
  unfold slots. intros [= E1 E2].
  now rewrite (truthyAt_slot _ _ _ E1), (truthyAt_slot _ _ _ E2).
Qed.

(** What [getAllDependencies] holds for a package: the
    [devDependencies] range when there is one, the [dependencies] range
    otherwise. *)
Lemma getAllDependencies_get (pj : PackageJson) (k : string) :
  wellFormed pj ->
  Js.get (getAllDependencies pj) k =
  match Js.getOpt (devDependencies pj) k with
  | Some range => Some range
  | None => Js.getOpt (dependencies pj) k
  end.
Proof.
  intros [_ Hdev]. unfold getAllDependencies.
  rewrite get_spread by exact Hdev. now rewrite !get_orEmpty.
Qed.

Lemma getAllDependencies_keys (pj : PackageJson) (k : string) :
  In k (Js.keys (getAllDependencies pj)) <->
  In k (fst (declared pj)) \/ In k (snd (declared pj)).
Proof. unfold getAllDependencies, declared. apply in_keys_spread. Qed.

Lemma getAllDependencies_nodup (pj : PackageJson) :
  wellFormed pj -> NoDup (Js.keys (getAllDependencies pj)).
Proof. intros [Hdep _]. now apply nodup_keys_spread. Qed.

(** An assignment to [k] leaves the slots of other names. *)
Lemma slot_assign_other (o : option (Js.Obj string)) (k v k' : string) :
  k' <> k ->
  slot (option_map (fun o' => Js.assign o' k v) o) k' = slot o k'.
Proof.
  intros Hne. destruct o as [a|]; simpl; [|reflexivity].
  rewrite get_assign.
  destruct (String.eqb_spec k k') as [->|_]; [contradiction|reflexivity].
Qed.

(** What an assignment leaves at its own slot depends on that slot
    only. *)
Lemma slot_assign_congr (o o' : option (Js.Obj string)) (k v : string) :
  slot o k = slot o' k ->
  slot (option_map (fun a => Js.assign a k v) o) k
  = slot (option_map (fun a => Js.assign a k v) o') k.
Proof.
  destruct o as [a|], o' as [b|]; simpl; try discriminate;
    [|reflexivity].
  intros [= E]. rewrite !get_assign. unfold Js.assignable, Js.has.
  now rewrite E.
Qed.

(** Storing a replacement touches the slots of that dependency only. *)
Lemma writeDependency_slots_other (dep v k : string) (pj : PackageJson) :
  k <> dep -> slots (writeDependency dep v pj) k = slots pj k.
Proof.
  intros Hne. unfold writeDependency, setDependency, setDevDependency, slots.
  destruct (Js.truthyAt (dependencies pj) dep);
    [|destruct (Js.truthyAt (devDependencies pj) dep)];
    simpl; try reflexivity; now rewrite slot_assign_other.
Qed.

Lemma writeDependency_entries_other (dep v k : string) (pj : PackageJson) :
  k <> dep -> entries (writeDependency dep v pj) k = entries pj k.
Proof.
  intros Hne. now apply slots_entries, writeDependency_slots_other.
Qed.

Lemma writeDependency_slots_congr (dep v : string) (pj pj' : PackageJson) :
  slots pj dep = slots pj' dep ->
  slots (writeDependency dep v pj) dep = slots (writeDependency dep v pj') dep.
Proof.
  intros E. destruct (slots_truthyAt _ _ _ E) as [E1 E2].
  unfold writeDependency. rewrite <- E1, <- E2.
  unfold slots in E. injection E as Ed Ev.
  unfold setDependency, setDevDependency, slots.
  destruct (Js.truthyAt (dependencies pj) dep);
    [|destruct (Js.truthyAt (devDependencies pj) dep)]; simpl.
  - now rewrite (slot_assign_congr _ _ _ _ Ed), Ev.
  - now rewrite (slot_assign_congr _ _ _ _ Ev), Ed.
  - now rewrite Ed, Ev.
Qed.

(** Storing a replacement removes no key. *)
Lemma writeDependency_keeps (dep v k : string) (pj : PackageJson) :
  (In k (fst (declared pj)) ->
   In k (fst (declared (writeDependency dep v pj))))
  /\ (In k (snd (declared pj)) ->
      In k (snd (declared (writeDependency dep v pj)))).
Proof.
  unfold writeDependency, setDependency, setDevDependency, declared.
  destruct (Js.truthyAt (dependencies pj) dep) eqn:E1;
    [|destruct (Js.truthyAt (devDependencies pj) dep) eqn:E2];
    simpl; try tauto.
  - destruct (truthyAt_some _ _ E1) as [o ->]. simpl.
    rewrite in_keys_assign. tauto.
  - destruct (truthyAt_some _ _ E2) as [o ->]. simpl.
    rewrite in_keys_assign. tauto.
Qed.

(** The one key it can add is the dependency itself, where the truthy
    value the script read was a property of [Object.prototype]. *)
Lemma writeDependency_gains (dep v k : string) (pj : PackageJson) :
  (In k (fst (declared (writeDependency dep v pj))) ->
   In k (fst (declared pj)) \/ (k = dep /\ Js.inherited dep = true))
  /\ (In k (snd (declared (writeDependency dep v pj))) ->
      In k (snd (declared pj)) \/ (k = dep /\ Js.inherited dep = true)).
Proof.
  unfold writeDependency, setDependency, setDevDependency, declared.
  destruct (Js.truthyAt (dependencies pj) dep) eqn:E1;
    [|destruct (Js.truthyAt (devDependencies pj) dep) eqn:E2];
    simpl; try tauto.
  - destruct (truthyAt_some _ _ E1) as [o Eo]. rewrite Eo in *. simpl in *.
    split; [|tauto]. rewrite in_keys_assign. intros [[-> _]|Hin]; [|tauto].
    destruct (Js.get o dep) as [s|] eqn:Eg.
    + left. eapply get_some_in; eauto.
    + right. now split.
  - destruct (truthyAt_some _ _ E2) as [o Eo]. rewrite Eo in *. simpl in *.
    split; [tauto|]. rewrite in_keys_assign. intros [[-> _]|Hin]; [|tauto].
    destruct (Js.get o dep) as [s|] eqn:Eg.
    + left. eapply get_some_in; eauto.
    + right. now split.
Qed.

(** For a dependency whose name [Object.prototype] does not have, the
    key lists stay as they are. *)
Lemma writeDependency_declared (dep v : string) (pj : PackageJson) :
  Js.inherited dep = false ->
  declared (writeDependency dep v pj) = declared pj.
Proof.
  intros Hown.
  unfold writeDependency, setDependency, setDevDependency, declared.
  destruct (Js.truthyAt (dependencies pj) dep) eqn:E1;
    [|destruct (Js.truthyAt (devDependencies pj) dep) eqn:E2];
    try reflexivity.
  - apply (truthyAt_present _ _ Hown) in E1 as (o & s & -> & _ & _ & Hin).
    simpl. now rewrite keys_assign_present.
  - apply (truthyAt_present _ _ Hown) in E2 as (o & s & -> & _ & _ & Hin).
    simpl. now rewrite keys_assign_present.
Qed.

Lemma writeDependency_wellFormed (dep v : string) (pj : PackageJson) :
  wellFormed pj -> wellFormed (writeDependency dep v pj).
Proof.
  intros [Hdep Hdev].
  unfold writeDependency, setDependency, setDevDependency, wellFormed.
  destruct (Js.truthyAt (dependencies pj) dep) eqn:E1;
    [|destruct (Js.truthyAt (devDependencies pj) dep) eqn:E2];
    try (split; assumption).
  - destruct (truthyAt_some _ _ E1) as [o Eo]. rewrite Eo in *. simpl in *.
    split; [now apply nodup_keys_assign | exact Hdev].
  - destruct (truthyAt_some _ _ E2) as [o Eo]. rewrite Eo in *. simpl in *.
    split; [exact Hdep | now apply nodup_keys_assign].
Qed.

(** The entry that receives the replacement: the one under
    [dependencies] when it is truthy, else the one under
    [devDependencies] when that one is. *)
Lemma writeDependency_entries (dep v : string) (pj : PackageJson) :
  Js.inherited dep = false ->
  entries (writeDependency dep v pj) dep =
  if Js.truthyAt (dependencies pj) dep
  then (Some v, snd (entries pj dep))
  else if Js.truthyAt (devDependencies pj) dep
       then (fst (entries pj dep), Some v)
       else entries pj dep.
Proof.
  intros Hown.
  unfold writeDependency, setDependency, setDevDependency, entries.
  destruct (Js.truthyAt (dependencies pj) dep) eqn:E1;
    [|destruct (Js.truthyAt (devDependencies pj) dep) eqn:E2];
    try reflexivity.
  - apply (truthyAt_present _ _ Hown) in E1 as (o & s & -> & Eg & _). simpl.
    rewrite get_assign, String.eqb_refl. unfold Js.assignable, Js.has.
    now rewrite Eg.
  - apply (truthyAt_present _ _ Hown) in E2 as (o & s & -> & Eg & _). simpl.
    rewrite get_assign, String.eqb_refl. unfold Js.assignable, Js.has.
    now rewrite Eg.
Qed.

(** Whatever the name, the entries of the dependency stay or one of
    them holds the replacement. *)
Lemma writeDependency_entries_cases (dep v : string) (pj : PackageJson) :
  entries (writeDependency dep v pj) dep = entries pj dep
  \/ fst (entries (writeDependency dep v pj) dep) = Some v
  \/ snd (entries (writeDependency dep v pj) dep) = Some v.
Proof.
  unfold writeDependency, setDependency, setDevDependency, entries.
  destruct (Js.truthyAt (dependencies pj) dep) eqn:E1;
    [|destruct (Js.truthyAt (devDependencies pj) dep) eqn:E2];
    try (now left).
  - destruct (truthyAt_some _ _ E1) as [o ->]. simpl.
    rewrite get_assign, String.eqb_refl. simpl.
    destruct (Js.assignable o dep); [right; now left | now left].
  - destruct (truthyAt_some _ _ E2) as [o ->]. simpl.
    rewrite get_assign, String.eqb_refl. simpl.
    destruct (Js.assignable o dep); [right; now right | now left].
Qed.

(** A mapping whose slot for [k] is the one an assignment of a truthy
    [v] left reads truthy at [k], and the same assignment changes
    nothing in it. *)
Lemma assign_settled (o o' : Js.Obj string) (k v : string) :
  Js.truthy v = true ->
  Js.get o' k = Js.get (Js.assign o k v) k ->
  Js.truthyAt (Some o') k = true /\ Js.assign o' k v = o'.
Proof.
  intros Hv. rewrite get_assign, String.eqb_refl. simpl.
  destruct (Js.assignable o k) eqn:Ea; intros Eg.
  - split; [now rewrite Eg | now apply assign_same].
  - unfold Js.assignable, Js.has in Ea.
    destruct (Js.get o k) as [s|] eqn:Eo; [discriminate|].
    simpl in Ea. apply negb_false_iff, String.eqb_eq in Ea. subst k.
    split; [now rewrite Eg|].
    unfold Js.assign, Js.assignable, Js.has. now rewrite Eg.
Qed.

(** Storing a replacement again, in a manifest whose slots for the
    dependency are those the first storing left, changes nothing. *)
Lemma writeDependency_settled (dep v : string) (pj pj' : PackageJson) :
  Js.truthy v = true ->
  slots pj' dep = slots (writeDependency dep v pj) dep ->
  writeDependency dep v pj' = pj'.
Proof.
  intros Hv. unfold writeDependency at 1, setDependency, setDevDependency, slots.
  destruct (Js.truthyAt (dependencies pj) dep) eqn:E1;
    [|destruct (Js.truthyAt (devDependencies pj) dep) eqn:E2]; simpl.
  - destruct (truthyAt_some _ _ E1) as [o Eo]. rewrite Eo. simpl.
    destruct pj' as [[o'|] dev']; simpl; [|discriminate].
    intros [= Eg _]. destruct (assign_settled o o' dep v Hv Eg) as [Ht Ha].
    unfold writeDependency, setDependency. cbn [dependencies devDependencies].
    rewrite Ht. simpl. now rewrite Ha.
  - destruct (truthyAt_some _ _ E2) as [o Eo]. rewrite Eo. simpl.
    destruct pj' as [deps' [o'|]]; simpl; [|discriminate].
    intros [= Ed Eg]. destruct (assign_settled o o' dep v Hv Eg) as [Ht Ha].
    unfold writeDependency, setDevDependency.
    cbn [dependencies devDependencies].
    rewrite (truthyAt_slot _ _ _ Ed), E1, Ht. simpl. now rewrite Ha.
  - intros [= Ed Ev]. unfold writeDependency.
    now rewrite (truthyAt_slot _ _ _ Ed), E1, (truthyAt_slot _ _ _ Ev), E2.
Qed.

Section MainVersionFacts.
Variable cfg : Config.
Variable selected : string.

Lemma applyMainVersion_entries_other (pj : PackageJson) (k : string) :
  k <> mainPkgName cfg ->
  entries (applyMainVersion cfg selected pj) k = entries pj k.
Proof.
  intros Hne. unfold applyMainVersion, setDependency, setDevDependency, entries.
  destruct (Js.truthyAt (dependencies pj) (mainPkgName cfg)) eqn:E1;
    [|destruct (Js.truthyAt (devDependencies pj) (mainPkgName cfg)) eqn:E2].
  - destruct (truthyAt_some _ _ E1) as [o ->]. simpl.
    rewrite get_assign.
    destruct (String.eqb_spec (mainPkgName cfg) k); [congruence|reflexivity].
  - destruct (truthyAt_some _ _ E2) as [o ->]. simpl.
    rewrite get_assign.
    destruct (String.eqb_spec (mainPkgName cfg) k); [congruence|reflexivity].
  - simpl. rewrite get_assign, get_orEmpty.
    destruct (String.eqb_spec (mainPkgName cfg) k); [congruence|reflexivity].
Qed.

(** Where the main package's version goes, for every name an
    assignment reaches. *)
Lemma applyMainVersion_entries (pj : PackageJson) :
  mainPkgName cfg <> "__proto__" ->
  entries (applyMainVersion cfg selected pj) (mainPkgName cfg) =
  if Js.truthyAt (dependencies pj) (mainPkgName cfg)
  then (Some (written cfg selected), snd (entries pj (mainPkgName cfg)))
  else if Js.truthyAt (devDependencies pj) (mainPkgName cfg)
       then (fst (entries pj (mainPkgName cfg)), Some (written cfg selected))
       else (Some (written cfg selected), snd (entries pj (mainPkgName cfg))).
Proof.
  intros Hname.
  assert (Hassign : forall o : Js.Obj string,
             Js.assignable o (mainPkgName cfg) = true).
  { intros o. unfold Js.assignable.
    destruct (String.eqb_spec (mainPkgName cfg) "__proto__") as [E|_];
      [contradiction | now rewrite orb_true_r]. }
  unfold applyMainVersion, setDependency, setDevDependency, entries.
  destruct (Js.truthyAt (dependencies pj) (mainPkgName cfg)) eqn:E1;
    [|destruct (Js.truthyAt (devDependencies pj) (mainPkgName cfg)) eqn:E2].
  - destruct (truthyAt_some _ _ E1) as [o ->]. simpl.
    now rewrite get_assign, String.eqb_refl, Hassign.
  - destruct (truthyAt_some _ _ E2) as [o ->]. simpl.
    now rewrite get_assign, String.eqb_refl, Hassign.
  - simpl. now rewrite get_assign, String.eqb_refl, Hassign.
Qed.

(** Storing the main package's version removes no key. *)
Lemma applyMainVersion_keeps (pj : PackageJson) (k : string) :
  (In k (fst (declared pj)) ->
   In k (fst (declared (applyMainVersion cfg selected pj))))
  /\ (In k (snd (declared pj)) ->
      In k (snd (declared (applyMainVersion cfg selected pj)))).
Proof.
  unfold applyMainVersion, setDependency, setDevDependency, declared.
  destruct (Js.truthyAt (dependencies pj) (mainPkgName cfg)) eqn:E1;
    [|destruct (Js.truthyAt (devDependencies pj) (mainPkgName cfg)) eqn:E2];
    simpl.
  - destruct (truthyAt_some _ _ E1) as [o ->]. simpl.
    rewrite in_keys_assign. tauto.
  - destruct (truthyAt_some _ _ E2) as [o ->]. simpl.
    rewrite in_keys_assign. tauto.
  - rewrite in_keys_assign. tauto.
Qed.

(** The one key it can add is the main package. *)
Lemma applyMainVersion_gains (pj : PackageJson) (k : string) :
  (In k (fst (declared (applyMainVersion cfg selected pj))) ->
   In k (fst (declared pj)) \/ k = mainPkgName cfg)
  /\ (In k (snd (declared (applyMainVersion cfg selected pj))) ->
      In k (snd (declared pj)) \/ k = mainPkgName cfg).
Proof.
  unfold applyMainVersion, setDependency, setDevDependency, declared.
  destruct (Js.truthyAt (dependencies pj) (mainPkgName cfg)) eqn:E1;
    [|destruct (Js.truthyAt (devDependencies pj) (mainPkgName cfg)) eqn:E2];
    simpl.
  - destruct (truthyAt_some _ _ E1) as [o ->]. simpl.
    rewrite in_keys_assign. tauto.
  - destruct (truthyAt_some _ _ E2) as [o ->]. simpl.
    rewrite in_keys_assign. tauto.
  - rewrite in_keys_assign. tauto.
Qed.

(** The key lists after the main package's version is stored, for a
    name that [Object.prototype] does not have: nothing is lost,
    [devDependencies] keeps its keys, and [dependencies] gains the main
    package exactly when neither mapping held a truthy entry for it. *)
Lemma applyMainVersion_declared (pj : PackageJson) :
  Js.inherited (mainPkgName cfg) = false ->
  snd (declared (applyMainVersion cfg selected pj)) = snd (declared pj)
  /\ forall k,
       In k (fst (declared (applyMainVersion cfg selected pj))) <->
       In k (fst (declared pj))
       \/ (k = mainPkgName cfg
           /\ Js.truthyAt (dependencies pj) k = false
           /\ Js.truthyAt (devDependencies pj) k = false).
Proof.
  intros Hown.
  assert (Hassign : forall o : Js.Obj string,
             Js.assignable o (mainPkgName cfg) = true).
  { intros o. unfold Js.assignable.
    destruct (String.eqb_spec (mainPkgName cfg) "__proto__") as [E|_];
      [|now rewrite orb_true_r].
    now rewrite E in Hown. }
  unfold applyMainVersion, setDependency, setDevDependency, declared.
  destruct (Js.truthyAt (dependencies pj) (mainPkgName cfg)) eqn:E1;
    [|destruct (Js.truthyAt (devDependencies pj) (mainPkgName cfg)) eqn:E2].
  - destruct (truthyAt_present _ _ Hown E1) as (o & s & Eo & _ & _ & Hin).
    rewrite Eo in *. simpl in *.
    split; [reflexivity|]. intros k. rewrite keys_assign_present by exact Hin.
    split; [tauto|]. intros [Hk|(-> & Hf & _)]; [exact Hk | congruence].
  - destruct (truthyAt_present _ _ Hown E2) as (o & s & Eo & _ & _ & Hin).
    rewrite Eo in *. simpl in *.
    split; [now rewrite keys_assign_present|]. intros k.
    split; [tauto|]. intros [Hk|(-> & _ & Hf)]; [exact Hk | congruence].
  - simpl. split; [reflexivity|]. intros k. rewrite in_keys_assign, Hassign.
    split.
    + intros [[-> _]|Hk]; [right; now repeat split | now left].
    + intros [Hk|(-> & _)]; [now right | left; now split].
Qed.

Lemma applyMainVersion_wellFormed (pj : PackageJson) :
  wellFormed pj -> wellFormed (applyMainVersion cfg selected pj).
Proof.
  intros [Hdep Hdev].
  unfold applyMainVersion, setDependency, setDevDependency, wellFormed.
  destruct (Js.truthyAt (dependencies pj) (mainPkgName cfg)) eqn:E1;
    [|destruct (Js.truthyAt (devDependencies pj) (mainPkgName cfg)) eqn:E2].
  - destruct (truthyAt_some _ _ E1) as [o Eo].
    rewrite Eo in *. simpl in *.
    split; [now apply nodup_keys_assign | exact Hdev].
  - destruct (truthyAt_some _ _ E2) as [o Eo].
    rewrite Eo in *. simpl in *.
    split; [exact Hdep | now apply nodup_keys_assign].
  - simpl. split; [now apply nodup_keys_assign | exact Hdev].
Qed.

(** Storing a truthy main version again, in a manifest whose slots for
    the main package are those the first storing left, changes
    nothing. *)
Lemma applyMainVersion_settled (pj pj' : PackageJson) :
  Js.truthy (written cfg selected) = true ->
  slots pj' (mainPkgName cfg)
  = slots (applyMainVersion cfg selected pj) (mainPkgName cfg) ->
  applyMainVersion cfg selected pj' = pj'.
Proof.
  intros Hv.
  unfold applyMainVersion at 1, setDependency, setDevDependency, slots.
  destruct (Js.truthyAt (dependencies pj) (mainPkgName cfg)) eqn:E1;
    [|destruct (Js.truthyAt (devDependencies pj) (mainPkgName cfg)) eqn:E2];
    simpl.
  - destruct (truthyAt_some _ _ E1) as [o Eo]. rewrite Eo. simpl.
    destruct pj' as [[o'|] dev']; simpl; [|discriminate].
    intros [= Eg _].
    destruct (assign_settled o o' _ _ Hv Eg) as [Ht Ha].
    unfold applyMainVersion, setDependency.
    cbn [dependencies devDependencies].
    rewrite Ht. simpl. now rewrite Ha.
  - destruct (truthyAt_some _ _ E2) as [o Eo]. rewrite Eo. simpl.
    destruct pj' as [deps' [o'|]]; simpl; [|discriminate].
    intros [= Ed Eg].
    destruct (assign_settled o o' _ _ Hv Eg) as [Ht Ha].
    unfold applyMainVersion, setDevDependency.
    cbn [dependencies devDependencies].
    rewrite (truthyAt_slot _ _ _ Ed), E1, Ht. simpl. now rewrite Ha.
  - destruct pj' as [[o'|] dev']; simpl; [|discriminate].
    intros [= Eg _].
    destruct (assign_settled _ o' _ _ Hv Eg) as [Ht Ha].
    unfold applyMainVersion, setDependency.
    cbn [dependencies devDependencies].
    rewrite Ht. simpl. now rewrite Ha.
Qed.

End MainVersionFacts.

(** ** Loops *)

Section LoopFacts.
Variable body : string -> M unit.
Hypothesis body_normal : forall k pj, completion (body k pj) = Normal tt.

Lemma forOf_cons (k : string) (ks : list string) (pj : PackageJson) :
  forOf (k :: ks) body pj =
  let r := forOf ks body (memory (body k pj)) in
  mkOutcome (trace (body k pj) ++ trace r) (memory r) (completion r).
Proof.
  simpl. unfold bind. pose proof (body_normal k pj) as Hn.
  destruct (body k pj) as [t pj' c]. simpl in *. subst c.
  now destruct (forOf ks body pj').
Qed.

(** A loop whose turns complete normally does so too. *)
Lemma forOf_normal (ks : list string) (pj : PackageJson) :
  completion (forOf ks body pj) = Normal tt.
Proof.
  revert pj. induction ks as [|k ks IH]; intros pj.
  - reflexivity.
  - rewrite forOf_cons. simpl. apply IH.
Qed.

Lemma forOf_trace_forall (P : Event -> Prop) (ks : list string) :
  (forall k pj, In k ks -> Forall P (trace (body k pj))) ->
  forall pj, Forall P (trace (forOf ks body pj)).
Proof.
  induction ks as [|k ks IH]; intros Hbody pj.
  - constructor.
  - rewrite forOf_cons. simpl. apply Forall_app. split.
    + apply Hbody. now left.
    + apply IH. intros k' pj' Hin. apply Hbody. now right.
Qed.

Lemma forOf_trace_in (e : Event) (k : string) (ks : list string) :
  In k ks -> (forall pj, In e (trace (body k pj))) ->
  forall pj, In e (trace (forOf ks body pj)).
Proof.
  induction ks as [|k' ks IH]; intros Hin Hbody pj; [contradiction|].
  rewrite forOf_cons. simpl. apply in_or_app.
  destruct Hin as [->|Hin]; [left; apply Hbody | right; now apply IH].
Qed.

(** What no turn changes, the loop does not change. *)
Lemma forOf_memory_inv {X : Type} (f : PackageJson -> X) (ks : list string) :
  (forall k pj, In k ks -> f (memory (body k pj)) = f pj) ->
  forall pj, f (memory (forOf ks body pj)) = f pj.
Proof.
  induction ks as [|k ks IH]; intros Hbody pj.
  - reflexivity.
  - rewrite forOf_cons. simpl. rewrite IH.
    + apply Hbody. now left.
    + intros k' pj' Hin. apply Hbody. now right.
Qed.

(** What every turn keeps true of the manifest, the loop keeps true. *)
Lemma forOf_memory_keeps (Inv : PackageJson -> Prop) (ks : list string) :
  (forall k pj, In k ks -> Inv pj -> Inv (memory (body k pj))) ->
  forall pj, Inv pj -> Inv (memory (forOf ks body pj)).
Proof.
  induction ks as [|k ks IH]; intros Hbody pj Hinv.
  - exact Hinv.
  - rewrite forOf_cons. simpl. apply IH.
    + intros k' pj' Hin. apply Hbody. now right.
    + apply Hbody; [now left | exact Hinv].
Qed.

(** What only the turn of [d] changes is, after the loop, what that turn
    made of it. *)
Lemma forOf_memory_at {X : Type} (f : PackageJson -> X) (d : string)
    (ks : list string) :
  NoDup ks -> In d ks ->
  (forall k pj, k <> d -> f (memory (body k pj)) = f pj) ->
  (forall pj pj', f pj = f pj' ->
                  f (memory (body d pj)) = f (memory (body d pj'))) ->
  forall pj, f (memory (forOf ks body pj)) = f (memory (body d pj)).
Proof.
  induction ks as [|k ks IH]; intros Hnd Hin Hother Hcongr pj;
    [contradiction|].
  inversion Hnd as [|? ? Hout Hnd']; subst.
  rewrite forOf_cons. simpl. destruct Hin as [->|Hin].
  - apply forOf_memory_inv. intros k' pj' Hk'. apply Hother.
    intros ->. contradiction.
  - rewrite (IH Hnd' Hin Hother Hcongr). apply Hcongr, Hother.
    intros ->. contradiction.
Qed.

End LoopFacts.

(** ** One turn of the loop *)

Ltac unfold_turn :=
  unfold checkDependency, checkDependencyBody, tryCatch, bind, fetchJson,
    prompt, orThrow, emit, ret, throw, mutate, replacement;
  simpl.

(** Case analysis along the branches of a turn. *)
Ltac split_turn registry operator :=
  repeat
    (simpl;
     match goal with
     | |- context [registry ?d] => destruct (registry d) eqn:?
     | |- context [versions ?m] => destruct (versions m) eqn:?
     | |- context [alreadyCompatible ?a ?b ?c ?d ?e] =>
         destruct (alreadyCompatible a b c d e) as [[|]|] eqn:?
     | |- context [compatibleVersions ?a ?b ?c ?d] =>
         destruct (compatibleVersions a b c d) as [[|? ?]|] eqn:?
     | |- context [autoUpdate ?c] => destruct (autoUpdate c) eqn:?
     | |- context [showIncompatible ?c] => destruct (showIncompatible c) eqn:?
     | |- context [operator ?q] => destruct (operator q) eqn:?
     end).

Section TurnFacts.
Context `{SemverLib}.
Variable cfg : Config.
Variable registry : Registry.
Variable operator : Operator.
Variable allDeps : Js.Obj string.
Variable selected : string.
Variable dep : string.

Local Abbreviation turn :=
  (checkDependency cfg registry operator allDeps selected dep).
Local Abbreviation tryBlock :=
  (checkDependencyBody cfg registry operator allDeps selected dep).

(** The only change a turn can make to the manifest is to store the
    replacement it settled on. *)
Lemma checkDependency_memory (pj : PackageJson) :
  memory (turn pj) =
  match replacement cfg registry operator allDeps selected dep with
  | Some v => writeDependency dep v pj
  | None => pj
  end.
Proof. unfold_turn. split_turn registry operator; reflexivity. Qed.

(** Whatever happens inside a turn, the loop goes on. *)
Lemma checkDependency_normal (pj : PackageJson) :
  completion (turn pj) = Normal tt.
Proof. unfold_turn. split_turn registry operator; reflexivity. Qed.

(** A turn starts with the registry request for its dependency. *)
Lemma checkDependency_fetches (pj : PackageJson) :
  In (Fetch dep) (trace (turn pj)).
Proof. unfold_turn. split_turn registry operator; now left. Qed.

Lemma checkDependency_no_write (pj : PackageJson) :
  Forall (fun e => isWrite e = false) (trace (turn pj)).
Proof.
  unfold_turn. split_turn registry operator;
    repeat apply Forall_cons; try apply Forall_nil; reflexivity.
Qed.

(** A turn prompts only without [--autoupdate], and only about its
    dependency. *)
Lemma checkDependency_prompts (pj : PackageJson) :
  Forall (fun e => isPrompt e = true ->
                   autoUpdate cfg = false /\ isPromptFor dep e = true)
         (trace (turn pj)).
Proof.
  unfold_turn. split_turn registry operator;
    repeat apply Forall_cons; try apply Forall_nil; simpl;
    try discriminate; intros _; split;
    solve [assumption | reflexivity | apply String.eqb_refl].
Qed.




(** The turn of a dependency found compatible. *)
Lemma checkDependency_compatible (pj : PackageJson) depMeta vs :
  registry dep = Some depMeta -> versions depMeta = Some vs ->
  alreadyCompatible cfg selected vs (Js.get allDeps dep) (stableVersions vs)
  = Some true ->
  turn pj =
  mkOutcome [Fetch dep;
             Console Log (IsCompatible dep (Js.get allDeps dep)
                            (mainPkgName cfg) selected)]
            pj (Normal tt).
Proof.
  intros E Ev Ec. unfold_turn. rewrite E. simpl. rewrite Ev. simpl.
  rewrite Ec. reflexivity.
Qed.

(** The turn of a dependency found incompatible, under [--autoupdate]:
    no prompt, and the first candidate is stored. *)
Lemma checkDependency_autoupdate (pj : PackageJson) depMeta vs first rest :
  autoUpdate cfg = true ->
  registry dep = Some depMeta -> versions depMeta = Some vs ->
  alreadyCompatible cfg selected vs (Js.get allDeps dep) (stableVersions vs)
  = Some false ->
  compatibleVersions cfg selected vs (stableVersions vs)
  = Some (first :: rest) ->
  turn pj =
  mkOutcome [Fetch dep;
             Console Warn (NotCompatible dep (Js.get allDeps dep)
                             (mainPkgName cfg) selected);
             Console Log (Replaced dep first)]
            (writeDependency dep first pj) (Normal tt).
Proof.
  intros Ea E Ev Ec Ek. unfold_turn. rewrite E. simpl. rewrite Ev. simpl.
  rewrite Ec. simpl. rewrite Ek. simpl. rewrite Ea. reflexivity.
Qed.

End TurnFacts.

(** ** The loop over the dependencies *)

Section RunFacts.
Context `{SemverLib}.
Variable cfg : Config.
Variable registry : Registry.
Variable operator : Operator.

Local Abbreviation main := (mainPkgName cfg).
Local Abbreviation iterate :=
  (iterateDependencies cfg registry operator).
Local Abbreviation loopBody allDeps selected :=
  (fun dep : string =>
     if String.eqb dep main then ret tt
     else checkDependency cfg registry operator allDeps selected dep).

Lemma loopBody_normal allDeps selected k pj :
  completion (loopBody allDeps selected k pj) = Normal tt.
Proof.
  cbv beta.
  destruct (String.eqb k main); [reflexivity | apply checkDependency_normal].
Qed.

Lemma loopBody_memory allDeps selected k pj :
  memory (loopBody allDeps selected k pj) = pj
  \/ exists v, memory (loopBody allDeps selected k pj) = writeDependency k v pj.
Proof.
  cbv beta. destruct (String.eqb k main); [now left|].
  rewrite checkDependency_memory.
  destruct (replacement cfg registry operator allDeps selected k) as [v|];
    [right; now exists v | now left].
Qed.

Lemma iterate_normal allDeps selected pj :
  completion (iterate allDeps selected pj) = Normal tt.
Proof. apply forOf_normal. intros. apply loopBody_normal. Qed.

(** The loop writes no file. *)
Lemma iterate_no_write allDeps selected pj :
  Forall (fun e => isWrite e = false) (trace (iterate allDeps selected pj)).
Proof.
  apply forOf_trace_forall; [intros; apply loopBody_normal|].
  intros k pj' _. cbv beta. destruct (String.eqb k main);
    [constructor | apply checkDependency_no_write].
Qed.

(** The loop prompts only without [--autoupdate]. *)
Lemma iterate_prompts allDeps selected pj :
  Forall (fun e => isPrompt e = true -> autoUpdate cfg = false)
         (trace (iterate allDeps selected pj)).
Proof.
  apply forOf_trace_forall; [intros; apply loopBody_normal|].
  intros k pj' _. cbv beta. destruct (String.eqb k main); [constructor|].
  eapply Forall_impl; [|apply checkDependency_prompts].
  simpl. intros e He Hp. now apply He.
Qed.

(** Every dependency other than the main package gets its turn. *)
Lemma iterate_fetches allDeps selected pj d :
  In d (Js.keys allDeps) -> d <> main ->
  In (Fetch d) (trace (iterate allDeps selected pj)).
Proof.
  intros Hin Hne.
  apply forOf_trace_in with (k := d);
    [intros; apply loopBody_normal | exact Hin |].
  intros pj'. cbv beta.
  destruct (String.eqb_spec d main) as [->|_]; [contradiction|].
  apply checkDependency_fetches.
Qed.

(** The loop removes no key. *)
Lemma iterate_keeps allDeps selected pj k :
  (In k (fst (declared pj)) ->
   In k (fst (declared (memory (iterate allDeps selected pj)))))
  /\ (In k (snd (declared pj)) ->
      In k (snd (declared (memory (iterate allDeps selected pj))))).
Proof.
  apply (forOf_memory_keeps _ (loopBody_normal allDeps selected)
           (fun cur => (In k (fst (declared pj)) -> In k (fst (declared cur)))
                       /\ (In k (snd (declared pj)) ->
                           In k (snd (declared cur)))));
    [|tauto].
  intros k0 cur _ [Hfst Hsnd].
  destruct (loopBody_memory allDeps selected k0 cur) as [->|[v ->]];
    [tauto|].
  destruct (writeDependency_keeps k0 v k cur). tauto.
Qed.

(** A key the loop adds is a dependency it looped over whose name is a
    property of [Object.prototype]. *)
Lemma iterate_gains allDeps selected pj k :
  (In k (fst (declared (memory (iterate allDeps selected pj)))) ->
   In k (fst (declared pj))
   \/ (In k (Js.keys allDeps) /\ k <> main /\ Js.inherited k = true))
  /\ (In k (snd (declared (memory (iterate allDeps selected pj)))) ->
      In k (snd (declared pj))
      \/ (In k (Js.keys allDeps) /\ k <> main /\ Js.inherited k = true)).
Proof.
  apply (forOf_memory_keeps _ (loopBody_normal allDeps selected)
           (fun cur =>
              (In k (fst (declared cur)) ->
               In k (fst (declared pj))
               \/ (In k (Js.keys allDeps) /\ k <> main
                   /\ Js.inherited k = true))
              /\ (In k (snd (declared cur)) ->
                  In k (snd (declared pj))
                  \/ (In k (Js.keys allDeps) /\ k <> main
                      /\ Js.inherited k = true))));
    [|tauto].
  intros k0 cur Hk0 [Hfst Hsnd]. cbv beta.
  destruct (String.eqb_spec k0 main) as [->|Hne]; [now split|].
  rewrite checkDependency_memory.
  destruct (replacement cfg registry operator allDeps selected k0) as [v|];
    [|now split].
  destruct (writeDependency_gains k0 v k cur) as [Gfst Gsnd].
  split; intros Hin.
  - destruct (Gfst Hin) as [Hold|[-> Hinh]]; [now apply Hfst | right; tauto].
  - destruct (Gsnd Hin) as [Hold|[-> Hinh]]; [now apply Hsnd | right; tauto].
Qed.

(** The loop keeps each key once. *)
Lemma iterate_wellFormed allDeps selected pj :
  wellFormed pj -> wellFormed (memory (iterate allDeps selected pj)).
Proof.
  apply (forOf_memory_keeps _ (loopBody_normal allDeps selected) wellFormed).
  intros k cur _ Hwf.
  destruct (loopBody_memory allDeps selected k cur) as [->|[v ->]];
    [exact Hwf | now apply writeDependency_wellFormed].
Qed.

(** A turn touches the slots of its own dependency only. *)
Lemma loopBody_slots_other allDeps selected k d pj :
  k <> d ->
  slots (memory (loopBody allDeps selected k pj)) d = slots pj d.
Proof.
  intros Hne.
  destruct (loopBody_memory allDeps selected k pj) as [->|[v ->]];
    [reflexivity|].
  apply writeDependency_slots_other. congruence.
Qed.

Lemma loopBody_entries_other allDeps selected k d pj :
  k <> d ->
  entries (memory (loopBody allDeps selected k pj)) d = entries pj d.
Proof.
  intros Hne. now apply slots_entries, loopBody_slots_other.
Qed.

(** The slots of the main package, and of any package that is not
    looped over, survive the loop. *)
Lemma iterate_slots_untouched allDeps selected pj d :
  d = main \/ ~ In d (Js.keys allDeps) ->
  slots (memory (iterate allDeps selected pj)) d = slots pj d.
Proof.
  intros Hd.
  apply forOf_memory_inv with (f := fun pj => slots pj d);
    [intros; apply loopBody_normal|].
  intros k pj' Hin.
  destruct (string_dec k main) as [Hk|Hk];
    [cbv beta; rewrite Hk, String.eqb_refl; reflexivity|].
  apply (loopBody_slots_other allDeps selected k d pj').
  destruct Hd as [->|Hout]; congruence.
Qed.

Lemma iterate_entries_untouched allDeps selected pj d :
  d = main \/ ~ In d (Js.keys allDeps) ->
  entries (memory (iterate allDeps selected pj)) d = entries pj d.
Proof.
  intros Hd. now apply slots_entries, iterate_slots_untouched.
Qed.

(** After the loop the slots of a dependency are what its own turn
    made of them. *)
Lemma iterate_slots_at allDeps selected pj d :
  NoDup (Js.keys allDeps) -> In d (Js.keys allDeps) -> d <> main ->
  slots (memory (iterate allDeps selected pj)) d =
  slots
    (memory (checkDependency cfg registry operator allDeps selected d pj)) d.
Proof.
  intros Hnd Hin Hne. unfold iterateDependencies.
  rewrite (forOf_memory_at _ (loopBody_normal allDeps selected)
             (fun pj => slots pj d) d _ Hnd Hin).
  - cbv beta.
    destruct (String.eqb_spec d main) as [->|_]; [contradiction|reflexivity].
  - intros k pj' Hk. now apply loopBody_slots_other.
  - intros pj1 pj2 E. cbv beta.
    destruct (String.eqb_spec d main) as [->|_]; [contradiction|].
    rewrite !checkDependency_memory.
    destruct (replacement cfg registry operator allDeps selected d) as [v|];
      [|exact E].
    now apply writeDependency_slots_congr.
Qed.

Lemma iterate_entries_at allDeps selected pj d :
  NoDup (Js.keys allDeps) -> In d (Js.keys allDeps) -> d <> main ->
  entries (memory (iterate allDeps selected pj)) d =
  entries
    (memory (checkDependency cfg registry operator allDeps selected d pj)) d.
Proof.
  intros Hnd Hin Hne. now apply slots_entries, iterate_slots_at.
Qed.

End RunFacts.

(** ** The run as a whole *)

Arguments selectionEvents : simpl never.
Arguments iterateDependencies : simpl never.

Ltac unfold_run :=
  unfold runLoaded, selectedMain, selectionEvents, bind, fetchJson, prompt,
    orThrow, emit, ret, throw, returnEarly, mutate, readMemory;
  simpl.

Section WholeRun.
Context `{SemverLib}.
Variable cfg : Config.
Variable registry : Registry.
Variable operator : Operator.

Local Abbreviation main := (mainPkgName cfg).
Local Abbreviation chosen := (selectedMain cfg registry operator).
Local Abbreviation opening := (selectionEvents cfg registry).

(** Once a version of the main package is chosen, the run stores it,
    loops over the dependencies, writes the manifest and ends. *)
Lemma runLoaded_selected (selected : string) (pj : PackageJson) :
  chosen = Some selected ->
  runLoaded cfg registry operator pj =
  let pj1 := applyMainVersion cfg selected pj in
  let r := iterateDependencies cfg registry operator
             (getAllDependencies pj1) selected pj1 in
  mkOutcome
    (opening
     ++ Console Log (Updating main (written cfg selected))
     :: trace r ++ [WriteFile (memory r); Console Log ManifestUpdated])
    (memory r) (Normal tt).
Proof.
  unfold_run.
  destruct (registry main) as [metadata|]; simpl; [|discriminate].
  destruct (versions metadata) as [vs|]; simpl; [|discriminate].
  destruct (stableVersions vs) as [|first rest]; simpl; [discriminate|].
  destruct (useLatest cfg); simpl.
  - intros [= ->].
    pose proof (iterate_normal cfg registry operator
                  (getAllDependencies (applyMainVersion cfg selected pj))
                  selected (applyMainVersion cfg selected pj)) as Hn.
    destruct (iterateDependencies _ _ _ _ _ _) as [t m c]. simpl in *.
    subst c. simpl. rewrite <- ?app_assoc. reflexivity.
  - intros ->. simpl.
    pose proof (iterate_normal cfg registry operator
                  (getAllDependencies (applyMainVersion cfg selected pj))
                  selected (applyMainVersion cfg selected pj)) as Hn.
    destruct (iterateDependencies _ _ _ _ _ _) as [t m c]. simpl in *.
    subst c. simpl. rewrite <- ?app_assoc. reflexivity.
Qed.

(** Without a chosen version the run stops before it touches the
    manifest. *)
Lemma runLoaded_unselected (pj : PackageJson) :
  chosen = None ->
  trace (runLoaded cfg registry operator pj) = opening
  /\ memory (runLoaded cfg registry operator pj) = pj
  /\ completion (runLoaded cfg registry operator pj) <> Normal tt.
Proof.
  unfold_run.
  destruct (registry main) as [metadata|]; simpl;
    [|intros _; repeat split; discriminate].
  destruct (versions metadata) as [vs|]; simpl;
    [|intros _; repeat split; discriminate].
  destruct (stableVersions vs) as [|first rest]; simpl;
    [intros _; repeat split; discriminate|].
  destruct (useLatest cfg); simpl; [discriminate|].
  intros ->. simpl. repeat split; discriminate.
Qed.

Lemma opening_no_write : Forall (fun e => isWrite e = false) opening.
Proof.
  unfold selectionEvents.
  destruct (registry main) as [metadata|];
    [destruct (versions metadata) as [vs|];
     [destruct (stableVersions vs); [|destruct (useLatest cfg)]|]|];
    repeat apply Forall_cons; try apply Forall_nil; reflexivity.
Qed.

(** The opening prompts only without [--latest], and about the main
    package. *)
Lemma opening_prompts :
  Forall (fun e => isPrompt e = true ->
                   useLatest cfg = false
                   /\ forall dep, isPromptFor dep e = false)
         opening.
Proof.
  unfold selectionEvents.
  destruct (registry main) as [metadata|];
    [destruct (versions metadata) as [vs|];
     [destruct (stableVersions vs); [|destruct (useLatest cfg) eqn:E]|]|];
    repeat apply Forall_cons; try apply Forall_nil; simpl;
    try discriminate.
  intros _. split; [reflexivity | intros dep; reflexivity].
Qed.

End WholeRun.

(** ** The stable version list *)

Lemma chain_snoc {A : Type} (R : A -> A -> bool) (l : list A) (a : A) :
  chain R (l ++ [a]) =
  chain R l && match rev l with y :: _ => R y a | [] => true end.
Proof.
  induction l as [|x l IH]; [reflexivity|].
  destruct l as [|y l].
  - simpl. now rewrite andb_true_r.
  - change (chain R ((x :: y :: l) ++ [a]))
      with (R x y && chain R ((y :: l) ++ [a])).
    rewrite IH.
    change (chain R (x :: y :: l)) with (R x y && chain R (y :: l)).
    rewrite <- andb_assoc. f_equal. f_equal.
    change (rev (x :: y :: l)) with (rev (y :: l) ++ [x]).
    destruct (rev (y :: l)) as [|z zs] eqn:E; [|reflexivity].
    apply (f_equal (@length A)) in E. rewrite length_rev in E. discriminate.
Qed.

(** Reading a list backwards turns every neighbour relation around. *)
Lemma chain_rev {A : Type} (R : A -> A -> bool) (l : list A) :
  chain R (rev l) = chain (fun a b => R b a) l.
Proof.
  induction l as [|a l IH]; [reflexivity|].
  simpl rev. rewrite chain_snoc, rev_involutive, IH.
  destruct l as [|b l]; [reflexivity|]. simpl. apply andb_comm.
Qed.

Section StableVersions.
Context `{SemverLib}.

Lemma isStable_iff (v : string) :
  isStable v = true <-> semver_valid v = true /\ semver_prerelease v = None.
Proof.
  unfold isStable. rewrite andb_true_iff.
  destruct (semver_prerelease v); simpl; intuition congruence.
Qed.

Lemma stableVersions_in (vs : Js.Obj VersionDoc) (v : string) :
  In v (stableVersions vs) <-> In v (Js.keys vs) /\ isStable v = true.
Proof. unfold stableVersions. rewrite <- in_rev. apply filter_In. Qed.

(** C1, as the script has it: the stable version list holds exactly the
    keys of the registry document that are valid versions without a
    prerelease part, in the reverse of the document's key order; it is
    strictly descending by precedence exactly when the document lists
    those keys in strictly ascending order.  The script does not sort. *)
Theorem stableVersions_reverse_registry_order (vs : Js.Obj VersionDoc) :
  (forall v, In v (stableVersions vs) <->
             In v (Js.keys vs)
             /\ semver_valid v = true /\ semver_prerelease v = None)
  /\ rev (stableVersions vs) = filter isStable (Js.keys vs)
  /\ strictlyDescending (stableVersions vs)
     = strictlyAscending (filter isStable (Js.keys vs)).
Proof.
  split; [|split].
  - intros v. rewrite stableVersions_in, isStable_iff. reflexivity.
  - unfold stableVersions. apply rev_involutive.
  - unfold strictlyDescending, strictlyAscending, stableVersions.
    apply chain_rev.
Qed.

End StableVersions.

(** C1, refuted as stated: a registry document that lists a backport
    [1.0.1] after [2.0.0] yields a stable version list that is not in
    descending order. *)
Lemma stableVersions_backport_not_descending :
  @stableVersions SemverLite.lib Examples.backportVersions
  = ["1.0.1"; "2.0.0"; "1.0.0"]
  /\ @strictlyDescending SemverLite.lib
       (@stableVersions SemverLite.lib Examples.backportVersions) = false.
Proof. split; reflexivity. Qed.

(** ** The already-compatible test *)

Section AlreadyCompatible.
Context `{SemverLib}.
Variable cfg : Config.
Variable selected : string.
Variable vs : Js.Obj VersionDoc.

(** Only a [null] entry keeps the peer dependencies of a listed version
    from being read. *)
Lemma peerOf_none_listed (version : string) :
  In version (Js.keys vs) ->
  peerOf vs version = None <-> Js.get vs version = Some NullVersion.
Proof.
  intros Hin. apply in_keys_get in Hin as [d Hd]. unfold peerOf.
  rewrite Hd. destruct d; split; congruence.
Qed.

(** The loop ends without an answer exactly when it comes to a version
    whose peer dependencies cannot be read before any version has
    passed the test. *)
Lemma alreadyCompatible_none_iff (range : option string)
    (versions : list string) :
  alreadyCompatible cfg selected vs range versions = None <->
  exists passed unread later,
    versions = passed ++ unread :: later
    /\ Forall (fun version =>
                 exists p, peerOf vs version = Some p
                           /\ peerAccepts cfg selected p = false) passed
    /\ peerOf vs unread = None.
Proof.
  induction versions as [|v rest IH]; simpl.
  - split; [discriminate|].
    intros (passed & u & later & E & _). now destruct passed.
  - destruct (peerOf vs v) as [peer|] eqn:Ep.
    + destruct (peerAccepts cfg selected peer) eqn:Ea.
      * split; [discriminate|].
        intros (passed & u & later & E & Hrej & Hu).
        destruct passed as [|n passed]; simpl in E; inversion E; subst.
        -- congruence.
        -- inversion Hrej as [|? ? (p & Hp & Hr) _]; subst.
           rewrite Ep in Hp. inversion Hp; subst. congruence.
      * rewrite IH. split.
        -- intros (passed & u & later & -> & Hrej & Hu).
           exists (v :: passed), u, later. split; [reflexivity|].
           split; [|exact Hu]. constructor; [|exact Hrej].
           exists peer. now split.
        -- intros (passed & u & later & E & Hrej & Hu).
           destruct passed as [|n passed]; simpl in E; inversion E; subst.
           ++ congruence.
           ++ inversion Hrej; subst.
              exists passed, u, later. repeat split; auto.
    + split; [|reflexivity]. intros _.
      exists [], v, rest. repeat split; [constructor | exact Ep].
Qed.

(** The loop answers [true] exactly when the first version that passes
    the test lies in the installed range. *)
Lemma alreadyCompatible_true_iff (range : option string)
    (versions : list string) :
  alreadyCompatible cfg selected vs range versions = Some true <->
  exists passed decisive later peer,
    versions = passed ++ decisive :: later
    /\ Forall (fun version =>
                 exists p, peerOf vs version = Some p
                           /\ peerAccepts cfg selected p = false) passed
    /\ peerOf vs decisive = Some peer
    /\ peerAccepts cfg selected peer = true
    /\ satisfiesRange decisive range = true.
Proof.
  induction versions as [|v rest IH]; simpl.
  - split; [discriminate|].
    intros (passed & d & later & peer & E & _). now destruct passed.
  - destruct (peerOf vs v) as [peer|] eqn:Ep.
    + destruct (peerAccepts cfg selected peer) eqn:Ea.
      * split.
        -- intros [= Hs]. exists [], v, rest, peer. repeat split; auto.
        -- intros (passed & d & later & peer' & E & Hrej & Ep' & Ea' & Hs).
           destruct passed as [|n passed]; simpl in E; inversion E; subst.
           ++ exact (f_equal Some Hs).
           ++ inversion Hrej as [|? ? (p & Hp & Hr) _]; subst.
              rewrite Ep in Hp. inversion Hp; subst. congruence.
      * rewrite IH. split.
        -- intros (passed & d & later & peer' & -> & Hrej & Hrest).
           exists (v :: passed), d, later, peer'. split; [reflexivity|].
           split; [|exact Hrest]. constructor; [|exact Hrej].
           exists peer. now split.
        -- intros (passed & d & later & peer' & E & Hrej & Ep' & Ea' & Hs).
           destruct passed as [|n passed]; simpl in E; inversion E; subst.
           ++ congruence.
           ++ inversion Hrej; subst.
              exists passed, d, later, peer'. repeat split; auto.
    + split; [discriminate|].
      intros (passed & d & later & peer' & E & Hrej & Ep' & _).
      destruct passed as [|n passed]; simpl in E; inversion E; subst.
      * congruence.
      * inversion Hrej as [|? ? (p & Hp & _) _]; subst. congruence.
Qed.

(** C2, as the script has it: the loop of lines 146-154 goes through
    the stable version list in the order of that list and stops at the
    first version that passes the test of line 148: what the script
    reads for the main package in the version's peer dependencies is
    missing or empty, or is a range that the chosen main version
    satisfies.  The dependency is
    already compatible exactly when that version also lies in the
    installed range; the versions before it are passed over, so a
    version further down the list decides whenever every version before
    it fails the test.  The loop ends without an answer, with a
    [TypeError], exactly when it comes to a version whose entry is
    [null] before any version has passed the test. *)
Theorem alreadyCompatible_first_accepted_decides (range : option string) :
  (alreadyCompatible cfg selected vs range (stableVersions vs) = None
   <->
   exists passed unread later,
     stableVersions vs = passed ++ unread :: later
     /\ Forall (fun version =>
                  exists p, peerOf vs version = Some p
                            /\ peerAccepts cfg selected p = false) passed
     /\ Js.get vs unread = Some NullVersion)
  /\ (alreadyCompatible cfg selected vs range (stableVersions vs) = Some true
      <->
      exists passed decisive later peer,
        stableVersions vs = passed ++ decisive :: later
        /\ Forall (fun version =>
                     exists p, peerOf vs version = Some p
                               /\ peerAccepts cfg selected p = false) passed
        /\ peerOf vs decisive = Some peer
        /\ peerAccepts cfg selected peer = true
        /\ satisfiesRange decisive range = true).
Proof.
  split; [|apply alreadyCompatible_true_iff].
  rewrite alreadyCompatible_none_iff.
  split; intros (passed & u & later & E & Hrej & Hu);
    exists passed, u, later; (split; [exact E|]); (split; [exact Hrej|]);
    apply (peerOf_none_listed u); try exact Hu;
    apply (stableVersions_in vs u); rewrite E; apply in_or_app;
    right; now left.
Qed.

End AlreadyCompatible.

(** C2, refuted as stated: with react 18.2.0 chosen, the newest stable
    react-dom (19.1.0) rejects it through its peer constraint, the loop
    moves on to 18.2.0 and that older version makes the dependency
    already compatible. *)
Lemma alreadyCompatible_older_version_decides :
  @alreadyCompatible SemverLite.lib (Examples.interactive "react") "18.2.0"
    Examples.reactDomVersions (Some "18.2.0")
    (@stableVersions SemverLite.lib Examples.reactDomVersions) = Some true
  /\ hd_error (@stableVersions SemverLite.lib Examples.reactDomVersions)
     = Some "19.1.0"
  /\ option_map
       (@peerAccepts SemverLite.lib (Examples.interactive "react") "18.2.0")
       (peerOf Examples.reactDomVersions "19.1.0") = Some false.
Proof. repeat split; reflexivity. Qed.

(** ** Dependencies that stay, dependencies that are replaced *)

(** Replace a run whose main version is chosen by its stages. *)
Ltac open_run Hsel :=
  unfold run;
  rewrite (runLoaded_selected _ _ _ _ _ Hsel);
  cbv zeta; cbn [trace memory completion].

Lemma in_trace_no_write (l : list Event) (w : PackageJson) :
  Forall (fun e => isWrite e = false) l -> ~ In (WriteFile w) l.
Proof.
  intros Hall Hin. rewrite Forall_forall in Hall.
  specialize (Hall _ Hin). discriminate.
Qed.

Section Dependencies.
Context `{SemverLib}.
Variable cfg : Config.
Variable registry : Registry.
Variable operator : Operator.

Local Abbreviation main := (mainPkgName cfg).
Local Abbreviation chosen := (selectedMain cfg registry operator).

(** Storing the main package's version does not change what
    [getAllDependencies] holds for another package. *)
Lemma allDeps_get_after_main (selected : string) (pj : PackageJson)
    (dep : string) :
  wellFormed pj -> dep <> main ->
  Js.get (getAllDependencies (applyMainVersion cfg selected pj)) dep
  = Js.get (getAllDependencies pj) dep.
Proof.
  intros Hwf Hne.
  rewrite !getAllDependencies_get
    by (try apply applyMainVersion_wellFormed; exact Hwf).
  pose proof (applyMainVersion_entries_other cfg selected pj dep Hne) as E.
  unfold entries in E. inversion E as [[E1 E2]]. now rewrite E1, E2.
Qed.

Lemma allDeps_keys_after_main (selected : string) (pj : PackageJson)
    (dep : string) :
  In dep (Js.keys (getAllDependencies pj)) ->
  In dep (Js.keys (getAllDependencies (applyMainVersion cfg selected pj))).
Proof.
  rewrite !getAllDependencies_keys.
  destruct (applyMainVersion_keeps cfg selected pj dep). tauto.
Qed.

(** What a turn shows, the run shows. *)
Lemma run_shows_turn (selected : string) (pj : PackageJson) (dep : string)
    (e : Event) :
  chosen = Some selected ->
  In dep (Js.keys (getAllDependencies pj)) -> dep <> main ->
  (forall pj',
     In e (trace (checkDependency cfg registry operator
                    (getAllDependencies (applyMainVersion cfg selected pj))
                    selected dep pj'))) ->
  In e (trace (run cfg registry operator (Parsed pj))).
Proof.
  intros Hsel Hin Hne Hturn. open_run Hsel.
  apply in_or_app. right. right. apply in_or_app. left.
  apply forOf_trace_in with (k := dep).
  - intros. apply loopBody_normal.
  - now apply allDeps_keys_after_main.
  - intros pj'. destruct (String.eqb_spec dep main) as [->|_];
      [contradiction | apply Hturn].
Qed.

(** Nothing but the final manifest is ever written. *)
Lemma run_writes_memory (pj w : PackageJson) :
  In (WriteFile w) (trace (run cfg registry operator (Parsed pj))) ->
  w = memory (run cfg registry operator (Parsed pj)).
Proof.
  destruct chosen as [selected|] eqn:Hsel.
  - open_run Hsel.
    intros Hin. apply in_app_or in Hin as [Hin|Hin].
    + now apply in_trace_no_write in Hin; [|apply opening_no_write].
    + destruct Hin as [Hin|Hin]; [discriminate|].
      apply in_app_or in Hin as [Hin|Hin].
      * now apply in_trace_no_write in Hin; [|apply iterate_no_write].
      * destruct Hin as [Hin|[Hin|[]]]; [congruence | discriminate].
  - unfold run. destruct (runLoaded_unselected _ _ _ pj Hsel) as (-> & _).
    intros Hin. now apply in_trace_no_write in Hin; [|apply opening_no_write].
Qed.

(** C3, as the script has it: a declared dependency other than the main
    package is found already compatible, and its manifest entries are
    the same before and after the run, in memory and in whatever is
    written, when the first entry of its stable version list lies in
    its installed range and declares no peer constraint on the main
    package or one the chosen main version satisfies.  That first entry
    is the valid, prerelease-free version the registry document lists
    last; it is the newest one only where the document lists its
    versions in ascending order.  The main package is taken not to bear
    the name of a property of [Object.prototype]. *)
Theorem already_compatible_entry_unchanged
    (pj : PackageJson) (selected dep : string) (depMeta : PackageDoc)
    (vs : Js.Obj VersionDoc) (first : string) (rest : list string)
    (peer : Js.Obj string) :
  wellFormed pj ->
  Js.inherited main = false ->
  In dep (Js.keys (getAllDependencies pj)) -> dep <> main ->
  chosen = Some selected ->
  registry dep = Some depMeta -> versions depMeta = Some vs ->
  stableVersions vs = first :: rest ->
  peerOf vs first = Some peer ->
  (Js.get peer main = None
   \/ exists range, Js.get peer main = Some range
                    /\ semver_satisfies selected range = true) ->
  satisfiesRange first (Js.get (getAllDependencies pj) dep) = true ->
  let installedRange := Js.get (getAllDependencies pj) dep in
  let r := run cfg registry operator (Parsed pj) in
  alreadyCompatible cfg selected vs installedRange (stableVersions vs)
  = Some true
  /\ In (Console Log (IsCompatible dep installedRange main selected))
        (trace r)
  /\ entries (memory r) dep = entries pj dep
  /\ forall w, In (WriteFile w) (trace r) -> entries w dep = entries pj dep.
Proof.
  intros Hwf Hown Hin Hne Hsel Hreg Hvs Hstable Hpeer Haccept Hrange
         installedRange r.
  assert (Hyes : alreadyCompatible cfg selected vs installedRange
                   (stableVersions vs) = Some true).
  { rewrite Hstable. simpl. rewrite Hpeer.
    assert (Ha : peerAccepts cfg selected peer = true).
    { unfold peerAccepts. destruct Haccept as [->|(range & -> & ->)];
        [now rewrite Hown | apply orb_true_r]. }
    rewrite Ha. now f_equal. }
  assert (Hturn : forall pj',
             checkDependency cfg registry operator
               (getAllDependencies (applyMainVersion cfg selected pj))
               selected dep pj'
             = mkOutcome [Fetch dep;
                          Console Log (IsCompatible dep installedRange main
                                         selected)]
                         pj' (Normal tt)).
  { intros pj'.
    rewrite (checkDependency_compatible _ _ _ _ _ _ pj' depMeta vs Hreg Hvs);
      rewrite allDeps_get_after_main by assumption; [reflexivity|exact Hyes]. }
  assert (Hmem : entries (memory r) dep = entries pj dep).
  { subst r. open_run Hsel.
    rewrite iterate_entries_at;
      [| apply getAllDependencies_nodup, applyMainVersion_wellFormed, Hwf
       | now apply allDeps_keys_after_main
       | exact Hne ].
    rewrite Hturn. simpl. now apply applyMainVersion_entries_other. }
  split; [exact Hyes|]. split; [|split; [exact Hmem|]].
  - apply (run_shows_turn selected pj dep); try assumption.
    intros pj'. rewrite Hturn. simpl. tauto.
  - intros w Hw. apply run_writes_memory in Hw. now subst w.
Qed.

End Dependencies.

Lemma not_prompt_for (dep : string) (e : Event) :
  isPrompt e = false -> isPromptFor dep e = false.
Proof. destruct e; simpl; try reflexivity. discriminate. Qed.

Section Candidates.
Context `{SemverLib}.
Variable cfg : Config.
Variable selected : string.
Variable vs : Js.Obj VersionDoc.

Lemma compatibleVersions_incl (versions l : list string) :
  compatibleVersions cfg selected vs versions = Some l -> incl l versions.
Proof.
  revert l. induction versions as [|v rest IH]; simpl; intros l.
  - intros [= <-]. apply incl_refl.
  - destruct (peerOf vs v) as [peer|]; [|discriminate].
    destruct (compatibleVersions cfg selected vs rest) as [kept|];
      [|discriminate].
    specialize (IH kept eq_refl).
    destruct (peerAccepts cfg selected peer); intros [= <-].
    + intros x [->|Hx]; [now left | right; now apply IH].
    + intros x Hx. right. now apply IH.
Qed.

(** The version that decides the already-compatible test is the first
    candidate. *)
Lemma alreadyCompatible_head (range : option string)
    (versions : list string) (first : string) (others : list string) :
  compatibleVersions cfg selected vs versions = Some (first :: others) ->
  alreadyCompatible cfg selected vs range versions
  = Some (satisfiesRange first range).
Proof.
  induction versions as [|v rest IH]; simpl; [discriminate|].
  destruct (peerOf vs v) as [peer|]; [|discriminate].
  destruct (compatibleVersions cfg selected vs rest) as [kept|];
    [|discriminate].
  destruct (peerAccepts cfg selected peer); intros [= E].
  - now subst.
  - subst kept. now apply IH.
Qed.

End Candidates.

Section Replacement.
Context `{SemverLib}.
Variable cfg : Config.
Variable registry : Registry.
Variable operator : Operator.

Local Abbreviation main := (mainPkgName cfg).
Local Abbreviation chosen := (selectedMain cfg registry operator).

(** C4, as the script has it: under [--autoupdate], a dependency found
    incompatible whose list of compatible versions is not empty gets,
    without any prompt about it, the first entry of that list as its
    manifest entry: the version string as the registry lists it, a
    valid version without prerelease part, with nothing put in front.
    The list keeps the order of the stable version list, so its first
    entry is the candidate the registry document lists last, the first
    candidate only where the document lists its versions in ascending
    order.  The entry is the one under [dependencies] when that one
    holds a non-empty range, the one under [devDependencies] otherwise.
    The semver library is taken to read the empty range as any release,
    and the dependency not to bear the name of a property of
    [Object.prototype]. *)
Theorem autoupdate_stores_first_candidate
    (pj : PackageJson) (selected dep : string) (depMeta : PackageDoc)
    (vs : Js.Obj VersionDoc) (first : string) (rest : list string) :
  EmptyRangeMatchesReleases ->
  wellFormed pj ->
  Js.inherited dep = false ->
  autoUpdate cfg = true ->
  In dep (Js.keys (getAllDependencies pj)) -> dep <> main ->
  chosen = Some selected ->
  registry dep = Some depMeta -> versions depMeta = Some vs ->
  alreadyCompatible cfg selected vs (Js.get (getAllDependencies pj) dep)
    (stableVersions vs) = Some false ->
  compatibleVersions cfg selected vs (stableVersions vs)
  = Some (first :: rest) ->
  let r := run cfg registry operator (Parsed pj) in
  completion r = Normal tt
  /\ In (WriteFile (memory r)) (trace r)
  /\ entries (memory r) dep
     = (if Js.truthyAt (dependencies pj) dep
        then (Some first, snd (entries pj dep))
        else (fst (entries pj dep), Some first))
  /\ isStable first = true
  /\ In (Console Log (Replaced dep first)) (trace r)
  /\ Forall (fun e => isPromptFor dep e = false) (trace r).
Proof.
  intros Hlaw Hwf Hown Hauto Hin Hne Hsel Hreg Hvs Hno Hcand r.
  set (pj1 := applyMainVersion cfg selected pj).
  assert (Hstable : isStable first = true).
  { apply compatibleVersions_incl in Hcand.
    specialize (Hcand first (or_introl eq_refl)).
    now apply stableVersions_in in Hcand. }
  assert (Hturn : forall pj',
             checkDependency cfg registry operator (getAllDependencies pj1)
               selected dep pj'
             = mkOutcome
                 [Fetch dep;
                  Console Warn (NotCompatible dep
                                  (Js.get (getAllDependencies pj1) dep)
                                  main selected);
                  Console Log (Replaced dep first)]
                 (writeDependency dep first pj') (Normal tt)).
  { intros pj'.
    apply (checkDependency_autoupdate _ _ _ _ _ _ pj' depMeta vs first rest);
      try assumption.
    unfold pj1. now rewrite allDeps_get_after_main. }
  assert (Hentries : entries pj1 dep = entries pj dep)
    by now apply applyMainVersion_entries_other.
  assert (Htruthy : Js.truthyAt (dependencies pj) dep = false ->
                    Js.truthyAt (devDependencies pj) dep = true).
  { intros Hdeps.
    rewrite (alreadyCompatible_head _ _ _ _ _ _ _ Hcand) in Hno.
    apply in_keys_get in Hin as [range Hrange].
    rewrite Hrange in Hno. simpl in Hno.
    assert (Hrt : Js.truthy range = true).
    { destruct range; [|reflexivity].
      rewrite (Hlaw _ Hstable) in Hno. inversion Hno. }
    rewrite getAllDependencies_get in Hrange by exact Hwf.
    rewrite (truthyAt_own (dependencies pj) _ Hown) in Hdeps.
    rewrite (truthyAt_own (devDependencies pj) _ Hown).
    destruct (Js.getOpt (devDependencies pj) dep) as [d|].
    - inversion Hrange; subst. exact Hrt.
    - rewrite Hrange in Hdeps. congruence. }
  subst r. open_run Hsel. fold pj1.
  split; [reflexivity|]. split; [|split; [|split; [exact Hstable|split]]].
  - apply in_or_app. right. right. apply in_or_app. right. now left.
  - rewrite iterate_entries_at;
      [| apply getAllDependencies_nodup, applyMainVersion_wellFormed, Hwf
       | now apply allDeps_keys_after_main
       | exact Hne ].
    rewrite Hturn. cbn [memory].
    rewrite writeDependency_entries by exact Hown.
    destruct (truthyAt_entries _ _ _ Hown Hentries) as [-> ->].
    rewrite Hentries.
    destruct (Js.truthyAt (dependencies pj) dep); [reflexivity|].
    now rewrite Htruthy.
  - apply in_or_app. right. right. apply in_or_app. left.
    apply forOf_trace_in with (k := dep).
    + intros. apply loopBody_normal.
    + now apply allDeps_keys_after_main.
    + intros pj'. destruct (String.eqb_spec dep main) as [->|_];
        [contradiction|]. rewrite Hturn. simpl. tauto.
  - apply Forall_app. split.
    + eapply Forall_impl; [|apply opening_prompts]. simpl.
      intros e He. destruct (isPrompt e) eqn:Ep.
      * now apply He.
      * now apply not_prompt_for.
    + constructor; [reflexivity|]. apply Forall_app. split.
      * eapply Forall_impl; [|apply iterate_prompts]. simpl.
        intros e He. apply not_prompt_for.
        destruct (isPrompt e); [|reflexivity].
        specialize (He eq_refl). congruence.
      * repeat constructor.
Qed.


End Replacement.

(** ** Prompts *)

Lemma forOf_ext (body body' : string -> M unit) (ks : list string) :
  (forall k pj, body k pj = body' k pj) ->
  forall pj, forOf ks body pj = forOf ks body' pj.
Proof.
  intros Hext. induction ks as [|k ks IH]; intros pj; [reflexivity|].
  simpl. unfold bind. rewrite Hext.
  destruct (body' k pj) as [t pj' [[]| | |c]]; try reflexivity.
  now rewrite IH.
Qed.

Lemma parseArgs_flags (args : list string) (cfg : Config) :
  parseArgs args = Some cfg ->
  useLatest cfg = includes args "--latest"
  /\ showIncompatible cfg = includes args "--check-incompatibilities"
  /\ autoUpdate cfg = includes args "--autoupdate".
Proof.
  unfold parseArgs.
  destruct (find _ args) as [name|]; [|discriminate].
  destruct (Js.truthy name); [|discriminate].
  intros [= <-]. repeat split.
Qed.

Section Prompts.
Context `{SemverLib}.
Variable cfg : Config.
Variable registry : Registry.
Hypothesis latest : useLatest cfg = true.
Hypothesis auto : autoUpdate cfg = true.

(** With both flags the trace of a run holds no prompt. *)
Lemma run_flags_no_prompt (operator : Operator) (file : ManifestFile) :
  Forall (fun e => isPrompt e = false)
         (trace (run cfg registry operator file)).
Proof.
  destruct file as [| |pj]; simpl; [repeat constructor | constructor |].
  assert (Hopening : Forall (fun e => isPrompt e = false)
                       (selectionEvents cfg registry)).
  { eapply Forall_impl; [|apply opening_prompts]. simpl.
    intros e He. destruct (isPrompt e); [|reflexivity].
    destruct (He eq_refl) as [Hl _]. congruence. }
  destruct (selectedMain cfg registry operator) as [selected|] eqn:Hsel.
  - rewrite (runLoaded_selected _ _ _ _ _ Hsel).
    cbv zeta; cbn [trace]. apply Forall_app. split; [exact Hopening|].
    constructor; [reflexivity|]. apply Forall_app. split.
    + eapply Forall_impl; [|apply iterate_prompts]. simpl.
      intros e He. destruct (isPrompt e); [|reflexivity].
      specialize (He eq_refl). congruence.
    + repeat constructor.
  - now destruct (runLoaded_unselected _ _ _ pj Hsel) as (-> & _).
Qed.

(** With both flags the operator has no part in a run. *)
Lemma run_flags_operator_irrelevant (operator operator' : Operator)
    (file : ManifestFile) :
  run cfg registry operator' file = run cfg registry operator file.
Proof.
  destruct file as [| |pj]; simpl; try reflexivity.
  assert (Hloop : forall allDeps selected pj',
             iterateDependencies cfg registry operator' allDeps selected pj'
             = iterateDependencies cfg registry operator allDeps selected pj').
  { intros allDeps selected pj'. unfold iterateDependencies.
    apply forOf_ext. intros k pj2.
    destruct (String.eqb k (mainPkgName cfg)); [reflexivity|].
    unfold checkDependency, checkDependencyBody. now rewrite auto. }
  unfold runLoaded, bind, fetchJson, prompt, orThrow, emit, ret, throw,
    returnEarly, mutate, readMemory.
  rewrite latest. simpl.
  destruct (registry (mainPkgName cfg)) as [metadata|]; simpl;
    [|reflexivity].
  destruct (versions metadata) as [vs|]; simpl; [|reflexivity].
  destruct (stableVersions vs) as [|first rest]; simpl; [reflexivity|].
  now rewrite Hloop.
Qed.

End Prompts.

(** C7: a run started with [--latest] and [--autoupdate] reaches no
    prompt, whatever the registry answers and whatever [package.json]
    holds, and its whole outcome is the same for every operator. *)
Theorem unattended_run_never_prompts `{SemverLib}
    (args : list string) (registry : Registry) (operator : Operator)
    (file : ManifestFile) :
  includes args "--latest" = true ->
  includes args "--autoupdate" = true ->
  Forall (fun e => isPrompt e = false)
         (trace (script args registry operator file))
  /\ forall operator',
       script args registry operator' file
       = script args registry operator file.
Proof.
  intros Hlatest Hauto. unfold script.
  destruct (parseArgs args) as [cfg|] eqn:Hargs.
  - destruct (parseArgs_flags _ _ Hargs) as (Hl & _ & Ha).
    rewrite Hlatest in Hl. rewrite Hauto in Ha. split.
    + now apply run_flags_no_prompt.
    + intros operator'. now apply run_flags_operator_irrelevant.
  - split; [repeat constructor | reflexivity].
Qed.

(** ** The write *)

Lemma filter_no_write (l : list Event) :
  Forall (fun e => isWrite e = false) l -> filter isWrite l = [].
Proof.
  induction 1 as [|e l He _ IH]; simpl; [reflexivity|]. now rewrite He.
Qed.

Lemma persisted_no_write (file : ManifestFile) (l : list Event) :
  Forall (fun e => isWrite e = false) l -> persisted file l = file.
Proof.
  induction 1 as [|e l He _ IH]; simpl; [reflexivity|].
  destruct e; try exact IH. discriminate.
Qed.

Lemma persisted_app (file : ManifestFile) (l l' : list Event) :
  persisted file (l ++ l') = persisted (persisted file l) l'.
Proof.
  revert file. induction l as [|e l IH]; intros file; [reflexivity|].
  destruct e; simpl; apply IH.
Qed.

Lemma firstn_no_write (n : nat) (l : list Event) :
  Forall (fun e => isWrite e = false) l ->
  Forall (fun e => isWrite e = false) (firstn n l).
Proof.
  intros Hall. revert n. induction Hall as [|e l He _ IH]; intros [|n];
    simpl; constructor; auto.
Qed.

(** A trace with one write splits around it in one way only. *)
Lemma write_split_unique (l1 l2 before after : list Event)
    (w w' : PackageJson) :
  Forall (fun e => isWrite e = false) l1 ->
  l1 ++ WriteFile w :: l2 = before ++ WriteFile w' :: after ->
  Forall (fun e => isWrite e = false) l2 ->
  before = l1 /\ w' = w /\ after = l2.
Proof.
  intros Hl1. revert before.
  induction Hl1 as [|e l1 He _ IH]; intros before E Hl2.
  - destruct before as [|b before]; simpl in E.
    + inversion E. auto.
    + inversion E; subst. exfalso.
      eapply in_trace_no_write; [exact Hl2|].
      apply in_or_app. right. now left.
  - destruct before as [|b before]; simpl in E.
    + inversion E; subst. discriminate.
    + inversion E; subst.
      destruct (IH before H1 Hl2) as (-> & -> & ->). auto.
Qed.

Section Write.
Context `{SemverLib}.
Variable cfg : Config.
Variable registry : Registry.
Variable operator : Operator.

Local Abbreviation main := (mainPkgName cfg).

(** A run either writes nothing, or ends with the write of its final
    manifest and the closing console line, after the registry request
    of every declared dependency. *)
Lemma run_trace_shape (file : ManifestFile) :
  let r := run cfg registry operator file in
  Forall (fun e => isWrite e = false) (trace r)
  \/ exists before,
       Forall (fun e => isWrite e = false) before
       /\ trace r
          = before ++ [WriteFile (memory r); Console Log ManifestUpdated]
       /\ completion r = Normal tt
       /\ forall pj dep,
            file = Parsed pj ->
            In dep (Js.keys (getAllDependencies pj)) -> dep <> main ->
            In (Fetch dep) before.
Proof.
  destruct file as [| |pj]; cbv zeta.
  - left. repeat constructor.
  - left. constructor.
  - destruct (selectedMain cfg registry operator) as [selected|] eqn:Hsel.
    + right. open_run Hsel.
      set (pj1 := applyMainVersion cfg selected pj).
      exists (selectionEvents cfg registry
              ++ Console Log (Updating main (written cfg selected))
              :: trace (iterateDependencies cfg registry operator
                          (getAllDependencies pj1) selected pj1)).
      split; [|split; [|split]].
      * apply Forall_app. split; [apply opening_no_write|].
        constructor; [reflexivity | apply iterate_no_write].
      * now rewrite <- app_assoc, <- app_comm_cons.
      * reflexivity.
      * intros pj' dep [= <-] Hin Hne. apply in_or_app. right. right.
        apply iterate_fetches; [|exact Hne].
        now apply allDeps_keys_after_main.
    + left. unfold run.
      destruct (runLoaded_unselected _ _ _ pj Hsel) as (-> & _).
      apply opening_no_write.
Qed.

(** C8: a run writes the manifest file at most once; when it does, what
    it writes is the final in-memory manifest, nothing but the closing
    console line follows, and the registry request of every declared
    dependency has gone before.  A run cut short after any number of its
    effects therefore leaves on disk either what was there or the
    complete final manifest. *)
Theorem manifest_written_once_at_the_end (file : ManifestFile) :
  let r := run cfg registry operator file in
  length (filter isWrite (trace r)) <= 1
  /\ (forall before w after,
        trace r = before ++ WriteFile w :: after ->
        w = memory r
        /\ after = [Console Log ManifestUpdated]
        /\ Forall (fun e => isWrite e = false) before
        /\ completion r = Normal tt
        /\ forall pj dep,
             file = Parsed pj ->
             In dep (Js.keys (getAllDependencies pj)) -> dep <> main ->
             In (Fetch dep) before)
  /\ forall n,
       persisted file (firstn n (trace r)) = file
       \/ persisted file (firstn n (trace r)) = Parsed (memory r).
Proof.
  intros r. pose proof (run_trace_shape file) as Hshape. cbv zeta in Hshape.
  fold r in Hshape. destruct Hshape as [Hnone|Hone].
  - split; [|split].
    + rewrite filter_no_write by exact Hnone. simpl. lia.
    + intros before w after E. exfalso.
      eapply in_trace_no_write; [exact Hnone|].
      rewrite E. apply in_or_app. right. now left.
    + intros n. left. now apply persisted_no_write, firstn_no_write.
  - destruct Hone as (l1 & Hl1 & E & Hdone & Hfetch).
    assert (Htail : Forall (fun e => isWrite e = false)
                      [Console Log ManifestUpdated])
      by (repeat constructor).
    split; [|split].
    + rewrite E, filter_app, (filter_no_write _ Hl1). simpl. lia.
    + intros before w after E'. rewrite E in E'.
      destruct (write_split_unique _ _ _ _ _ _ Hl1 E' Htail)
        as (-> & -> & ->).
      auto.
    + intros n. rewrite E, firstn_app, persisted_app.
      rewrite (persisted_no_write _ _ (firstn_no_write n _ Hl1)).
      destruct (n - length l1) as [|[|k]]; simpl; auto.
      destruct k; simpl; auto.
Qed.

End Write.

(** ** Where versions are stored *)

Section Storage.
Context `{SemverLib}.
Variable cfg : Config.
Variable registry : Registry.
Variable operator : Operator.

Local Abbreviation main := (mainPkgName cfg).
Local Abbreviation chosen := (selectedMain cfg registry operator).

(** The version stored for the main package: with [--latest] the head of
    the stable version list behind a caret, otherwise the operator's
    answer as it is. *)
Lemma written_version (selected : string) :
  chosen = Some selected ->
  exists metadata vs first rest,
    registry main = Some metadata /\ versions metadata = Some vs
    /\ stableVersions vs = first :: rest
    /\ if useLatest cfg
       then selected = first
            /\ written cfg selected = ("^" ++ first)%string
       else operator (SelectMain main (firstn 50 (first :: rest)))
            = Some selected
            /\ written cfg selected = selected.
Proof.
  unfold selectedMain, written.
  destruct (registry main) as [metadata|] eqn:Er; [|discriminate].
  destruct (versions metadata) as [vs|] eqn:Ev; [|discriminate].
  destruct (stableVersions vs) as [|first rest] eqn:Es; [discriminate|].
  intros Hsel. exists metadata, vs, first, rest.
  split; [reflexivity|]. split; [exact Ev|]. split; [exact Es|].
  destruct (useLatest cfg).
  - inversion Hsel; subst. now split.
  - now split.
Qed.

(** Where a completed run leaves the main package: under [dependencies]
    when the script reads a truthy value for it there, else under
    [devDependencies] when it reads a truthy value there, else under
    [dependencies]. *)
Lemma run_stores_main_version (selected : string) (pj : PackageJson) :
  main <> "__proto__" ->
  chosen = Some selected ->
  let r := run cfg registry operator (Parsed pj) in
  entries (memory r) main =
  if Js.truthyAt (dependencies pj) main
  then (Some (written cfg selected), snd (entries pj main))
  else if Js.truthyAt (devDependencies pj) main
       then (fst (entries pj main), Some (written cfg selected))
       else (Some (written cfg selected), snd (entries pj main)).
Proof.
  intros Hname Hsel r. subst r. open_run Hsel.
  rewrite iterate_entries_untouched by now left.
  now apply applyMainVersion_entries.
Qed.

(** The key lists after a run: no key is lost, and a key that is gained
    is the main package or a declared dependency that bears the name of
    a property of [Object.prototype]. *)
Lemma run_keys_frame (pj : PackageJson) :
  let r := run cfg registry operator (Parsed pj) in
  (forall k, In k (fst (declared pj)) -> In k (fst (declared (memory r))))
  /\ (forall k, In k (snd (declared pj)) -> In k (snd (declared (memory r))))
  /\ (forall k,
        In k (fst (declared (memory r))) \/ In k (snd (declared (memory r))) ->
        In k (Js.keys (getAllDependencies pj)) \/ k = main)
  /\ forall k,
       (In k (fst (declared (memory r))) /\ ~ In k (fst (declared pj)))
       \/ (In k (snd (declared (memory r))) /\ ~ In k (snd (declared pj))) ->
       k = main
       \/ (In k (Js.keys (getAllDependencies pj)) /\ Js.inherited k = true).
Proof.
  intros r. subst r. destruct chosen as [selected|] eqn:Hsel.
  2:{ unfold run.
      destruct (runLoaded_unselected _ _ _ pj Hsel) as (_ & -> & _).
      split; [tauto|]. split; [tauto|]. split.
      - intros k Hk. left. now apply getAllDependencies_keys.
      - intros k [[Hk Hn]|[Hk Hn]]; contradiction. }
  open_run Hsel.
  set (pj1 := applyMainVersion cfg selected pj).
  assert (Hgain : forall k,
             In k (fst (declared (memory (iterateDependencies cfg registry
                      operator (getAllDependencies pj1) selected pj1))))
             \/ In k (snd (declared (memory (iterateDependencies cfg registry
                      operator (getAllDependencies pj1) selected pj1)))) ->
             k = main
             \/ In k (fst (declared pj)) \/ In k (snd (declared pj))).
  { intros k Hk.
    destruct (iterate_gains cfg registry operator (getAllDependencies pj1)
                selected pj1 k) as [Gfst Gsnd].
    destruct (applyMainVersion_gains cfg selected pj k) as [Mfst Msnd].
    fold pj1 in Mfst, Msnd.
    assert (Hone : In k (fst (declared pj1)) \/ In k (snd (declared pj1))).
    { destruct Hk as [Hk|Hk].
      - destruct (Gfst Hk) as [Hold|(Hin & _)]; [now left|].
        now apply getAllDependencies_keys in Hin.
      - destruct (Gsnd Hk) as [Hold|(Hin & _)]; [now right|].
        now apply getAllDependencies_keys in Hin. }
    destruct Hone as [Hone|Hone]; [apply Mfst in Hone | apply Msnd in Hone];
      tauto. }
  split; [|split; [|split]].
  - intros k Hk. apply iterate_keeps.
    now apply (applyMainVersion_keeps cfg selected pj k).
  - intros k Hk. apply iterate_keeps.
    now apply (applyMainVersion_keeps cfg selected pj k).
  - intros k Hk. rewrite getAllDependencies_keys.
    destruct (Hgain k Hk); tauto.
  - intros k Hk.
    destruct (string_dec k main) as [->|Hne]; [now left|]. right.
    assert (Hdecl : In k (Js.keys (getAllDependencies pj))).
    { rewrite getAllDependencies_keys.
      destruct (Hgain k) as [Hm|Hold]; tauto. }
    split; [exact Hdecl|].
    destruct (iterate_gains cfg registry operator (getAllDependencies pj1)
                selected pj1 k) as [Gfst Gsnd].
    destruct (applyMainVersion_gains cfg selected pj k) as [Mfst Msnd].
    fold pj1 in Mfst, Msnd.
    destruct Hk as [[Hk Hnew]|[Hk Hnew]].
    + destruct (Gfst Hk) as [Hold|(_ & _ & Hinh)]; [|exact Hinh].
      destruct (Mfst Hold); tauto.
    + destruct (Gsnd Hk) as [Hold|(_ & _ & Hinh)]; [|exact Hinh].
      destruct (Msnd Hold); tauto.
Qed.

(** Whether the main package is a key after the run, where its name is
    not one of [Object.prototype]: [devDependencies] does not gain it,
    and [dependencies] gains it exactly when the run gets past the
    choice of the main version and the script reads a truthy value for
    it in neither mapping. *)
Lemma run_main_key (pj : PackageJson) :
  Js.inherited main = false ->
  let r := run cfg registry operator (Parsed pj) in
  (In main (snd (declared (memory r))) <-> In main (snd (declared pj)))
  /\ (In main (fst (declared (memory r))) <->
      In main (fst (declared pj))
      \/ (chosen <> None
          /\ Js.truthyAt (dependencies pj) main = false
          /\ Js.truthyAt (devDependencies pj) main = false)).
Proof.
  intros Hown r. subst r. destruct chosen as [selected|] eqn:Hsel.
  2:{ unfold run.
      destruct (runLoaded_unselected _ _ _ pj Hsel) as (_ & -> & _).
      split; [tauto|]. intuition congruence. }
  open_run Hsel.
  set (pj1 := applyMainVersion cfg selected pj).
  destruct (iterate_gains cfg registry operator (getAllDependencies pj1)
              selected pj1 main) as [Gfst Gsnd].
  destruct (iterate_keeps cfg registry operator (getAllDependencies pj1)
              selected pj1 main) as [Kfst Ksnd].
  destruct (applyMainVersion_declared cfg selected pj Hown) as [Hsnd Hfst].
  fold pj1 in Hsnd, Hfst.
  split.
  - rewrite <- Hsnd. split; [|exact Ksnd].
    intros Hk. destruct (Gsnd Hk) as [Hold|(_ & Hne & _)];
      [exact Hold | congruence].
  - split.
    + intros Hk. destruct (Gfst Hk) as [Hold|(_ & Hne & _)]; [|congruence].
      apply Hfst in Hold as [Hold|(_ & Hd & Hv)]; [now left|].
      right. repeat split; [discriminate | exact Hd | exact Hv].
    + intros Hk. apply Kfst, Hfst.
      destruct Hk as [Hk|(_ & Hd & Hv)]; [now left | right; now repeat split].
Qed.

End Storage.

(** C5, where the script departs from it: the main package [react] is
    declared under [devDependencies] with the empty range.  The script
    takes the falsy entry for a missing one and creates [react] under
    [dependencies]; the [devDependencies] entry stays as it was. *)
Lemma main_with_empty_dev_range_goes_to_dependencies :
  let r := @run SemverLite.lib (Examples.latestAuto "react") Examples.npm
             Examples.nobody (Parsed Examples.emptyDevRangeApp) in
  entries Examples.emptyDevRangeApp "react" = (None, Some "")
  /\ entries (memory r) "react" = (Some "^19.1.0", Some "")
  /\ In (WriteFile (memory r)) (trace r).
Proof. vm_compute. repeat split. tauto. Qed.

(** C9, where the script departs from it: [react-dom] is declared in
    both classes, with the empty range under [dependencies].  It is
    evaluated against the [devDependencies] range, found incompatible,
    and the replacement goes to the [devDependencies] entry; the
    [dependencies] entry stays as it was. *)
Lemma replacement_with_empty_range_goes_to_devDependencies :
  let r := @run SemverLite.lib (Examples.latestAuto "react") Examples.npm
             Examples.nobody (Parsed Examples.splitApp) in
  entries Examples.splitApp "react-dom" = (Some "", Some "18.2.0")
  /\ Js.get (getAllDependencies Examples.splitApp) "react-dom"
     = Some "18.2.0"
  /\ In (Console Log (Replaced "react-dom" "19.1.0")) (trace r)
  /\ entries (memory r) "react-dom" = (Some "", Some "19.1.0").
Proof. vm_compute. repeat split. tauto. Qed.

(** C10, where the script departs from it: the run adds the key [react]
    under [dependencies] although [react] is declared, under
    [devDependencies]. *)
Lemma main_key_added_although_declared :
  let r := @run SemverLite.lib (Examples.latestAuto "react") Examples.npm
             Examples.nobody (Parsed Examples.emptyDevRangeApp) in
  declared Examples.emptyDevRangeApp = ([], ["react"])
  /\ declared (memory r) = (["react"], ["react"]).
Proof. vm_compute. split; reflexivity. Qed.

(** ** The properties on concrete runs *)

(** The small semver instance on the strings used below. *)
Example semverLite_parses :
  map SemverLite.parse ["19.1.0"; "19.0.0-rc.1"; "1.0"; "01.0.0"; "latest"]
  = [Some (mkSemVer 19 1 0 []); Some (mkSemVer 19 0 0 ["rc"; "1"]);
     None; None; None].
Proof. reflexivity. Qed.

Example semverLite_satisfies :
  map (SemverLite.satisfies "19.1.0")
      ["^19.0.0"; "^18.2.0"; ""; "*"; "19.1.0"; "18.2.0"]
  = [true; false; true; true; true; false].
Proof. reflexivity. Qed.

(** Array-index keys come first in [Object.keys], other keys in the
    order of their creation. *)
Example set_places_index_keys :
  Js.keys (Js.set (Js.set [("1", 1); ("7", 7); ("b", 0)] "5" 5) "a" 2)
  = ["1"; "5"; "7"; "b"; "a"].
Proof. reflexivity. Qed.

(** The first end-to-end example of the specification:
    [--latest --autoupdate] on react and react-dom at 18.2.0. *)
Example spec_example_latest_autoupdate :
  persisted (Parsed Examples.specApp)
    (trace (@script SemverLite.lib ["react"; "--latest"; "--autoupdate"]
              Examples.npm Examples.nobody (Parsed Examples.specApp)))
  = Parsed (mkPackageJson
              (Some [("react", "^19.1.0"); ("react-dom", "19.1.0")]) None).
Proof. reflexivity. Qed.

(** The second one: [--check-incompatibilities] alone, the operator
    picks react 19.1.0, and no react-dom release accepts it. *)
Example spec_example_check_incompatibilities :
  let r := @script SemverLite.lib ["react"; "--check-incompatibilities"]
             Examples.legacyNpm (Examples.picks "19.1.0")
             (Parsed Examples.specApp) in
  persisted (Parsed Examples.specApp) (trace r)
  = Parsed (mkPackageJson
              (Some [("react", "19.1.0"); ("react-dom", "18.2.0")]) None)
  /\ In (Console Warn (NoCompatibleVersion "react-dom" "react" "19.1.0"))
        (trace r).
Proof. vm_compute. split; [reflexivity | tauto]. Qed.

(** The small semver instance reads the empty range as any release. *)
Lemma semverLite_empty_range : @EmptyRangeMatchesReleases SemverLite.lib.
Proof.
  intros v. unfold isStable, semver_valid, semver_prerelease. simpl.
  unfold SemverLite.satisfies, SemverLite.release.
  destruct (SemverLite.parse v) as [sv|]; [|discriminate].
  destruct (prerelease sv); [reflexivity | discriminate].
Qed.

Ltac distinct_keys :=
  repeat constructor; simpl; intuition discriminate.

(** C3 on a run: react goes to 19.1.0, the first stable version of
    react-dom accepts it and lies in the installed range [^19.0.0]. *)
Lemma already_compatible_entry_unchanged_witness :
  let installedRange :=
    Js.get (getAllDependencies Examples.upToDateApp) "react-dom" in
  let r := @run SemverLite.lib (Examples.latestAuto "react") Examples.npm
             Examples.nobody (Parsed Examples.upToDateApp) in
  @alreadyCompatible SemverLite.lib (Examples.latestAuto "react") "19.1.0"
    Examples.reactDomVersions installedRange
    (@stableVersions SemverLite.lib Examples.reactDomVersions) = Some true
  /\ In (Console Log (IsCompatible "react-dom" installedRange "react"
                        "19.1.0"))
        (trace r)
  /\ entries (memory r) "react-dom" = entries Examples.upToDateApp "react-dom"
  /\ forall w, In (WriteFile w) (trace r) ->
               entries w "react-dom"
               = entries Examples.upToDateApp "react-dom".
Proof.
  apply (@already_compatible_entry_unchanged SemverLite.lib
           (Examples.latestAuto "react") Examples.npm Examples.nobody
           Examples.upToDateApp "19.1.0" "react-dom"
           (Examples.document Examples.reactDomVersions)
           Examples.reactDomVersions "19.1.0" ["18.2.0"]
           [("react", "^19.0.0")]).
  - split; distinct_keys.
  - reflexivity.
  - simpl; tauto.
  - discriminate.
  - reflexivity.
  - reflexivity.
  - reflexivity.
  - reflexivity.
  - reflexivity.
  - right. exists "^19.0.0". split; reflexivity.
  - reflexivity.
Defined.

(** C4 on a run: react goes to 19.1.0, react-dom is pinned to 18.2.0
    and is replaced by the first candidate, 19.1.0. *)
Lemma autoupdate_stores_first_candidate_witness :
  let r := @run SemverLite.lib (Examples.latestAuto "react") Examples.npm
             Examples.nobody (Parsed Examples.reactApp) in
  completion r = Normal tt
  /\ In (WriteFile (memory r)) (trace r)
  /\ entries (memory r) "react-dom"
     = (if Js.truthyAt (dependencies Examples.reactApp) "react-dom"
        then (Some "19.1.0", snd (entries Examples.reactApp "react-dom"))
        else (fst (entries Examples.reactApp "react-dom"), Some "19.1.0"))
  /\ @isStable SemverLite.lib "19.1.0" = true
  /\ In (Console Log (Replaced "react-dom" "19.1.0")) (trace r)
  /\ Forall (fun e => isPromptFor "react-dom" e = false) (trace r).
Proof.
  apply (@autoupdate_stores_first_candidate SemverLite.lib
           (Examples.latestAuto "react") Examples.npm Examples.nobody
           Examples.reactApp "19.1.0" "react-dom"
           (Examples.document Examples.reactDomVersions)
           Examples.reactDomVersions "19.1.0" []).
  - exact semverLite_empty_range.
  - split; distinct_keys.
  - reflexivity.
  - reflexivity.
  - simpl; tauto.
  - discriminate.
  - reflexivity.
  - reflexivity.
  - reflexivity.
  - reflexivity.
  - reflexivity.
Defined.

(** C3, refuted as stated: the newest stable version of [tool], 2.0.0,
    lies in the installed range [^2.0.0] and declares no peer
    constraint.  The loop meets 1.0.1 first, which the registry
    document lists after 2.0.0 and which lies outside the range: [tool]
    is found incompatible and the run replaces its entry by 1.0.1. *)
Lemma newest_version_in_range_yet_replaced :
  let cfg := Examples.latestAuto "react" in
  let stable := @stableVersions SemverLite.lib Examples.backportVersions in
  let installedRange :=
    Js.get (getAllDependencies Examples.toolApp) "tool" in
  let r := @run SemverLite.lib cfg Examples.npm Examples.nobody
             (Parsed Examples.toolApp) in
  In "2.0.0" stable
  /\ forallb (fun v => String.eqb v "2.0.0"
                       || @descends SemverLite.lib "2.0.0" v) stable = true
  /\ installedRange = Some "^2.0.0"
  /\ @satisfiesRange SemverLite.lib "2.0.0" installedRange = true
  /\ peerOf Examples.backportVersions "2.0.0" = Some []
  /\ @alreadyCompatible SemverLite.lib cfg "19.1.0"
       Examples.backportVersions installedRange stable = Some false
  /\ entries Examples.toolApp "tool" = (Some "^2.0.0", None)
  /\ entries (memory r) "tool" = (Some "1.0.1", None)
  /\ In (WriteFile (memory r)) (trace r).
Proof. vm_compute. repeat split; tauto. Qed.

(** C4, refuted as stated: under [--autoupdate] the entry of [tool] is
    rewritten to 1.0.1, the first entry of its list of compatible
    versions, although that list holds the newer 2.0.0. *)
Lemma autoupdate_stores_older_candidate :
  let cfg := Examples.latestAuto "react" in
  let r := @run SemverLite.lib cfg Examples.npm Examples.nobody
             (Parsed Examples.toolApp) in
  @compatibleVersions SemverLite.lib cfg "19.1.0" Examples.backportVersions
    (@stableVersions SemverLite.lib Examples.backportVersions)
  = Some ["1.0.1"; "2.0.0"; "1.0.0"]
  /\ @descends SemverLite.lib "2.0.0" "1.0.1" = true
  /\ In (Console Log (Replaced "tool" "1.0.1")) (trace r)
  /\ entries (memory r) "tool" = (Some "1.0.1", None)
  /\ In (WriteFile (memory r)) (trace r).
Proof. vm_compute. repeat split; tauto. Qed.

(** Names of [Object.prototype].  A dependency named [constructor] that
    is declared under [devDependencies] only: line 184 reads the
    inherited property under [dependencies], and the replacement becomes
    a new key there while the [devDependencies] entry stays. *)
Example inherited_name_is_stored_under_dependencies :
  let r := @run SemverLite.lib (Examples.latestAuto "react")
             Examples.constructorNpm Examples.nobody
             (Parsed Examples.constructorApp) in
  entries Examples.constructorApp "constructor" = (None, Some "18.2.0")
  /\ In (Console Log (Replaced "constructor" "19.1.0")) (trace r)
  /\ entries (memory r) "constructor" = (Some "19.1.0", Some "18.2.0")
  /\ declared (memory r) = (["react"; "constructor"], ["constructor"]).
Proof. vm_compute. repeat split. tauto. Qed.

(** For a main package named [constructor], peer dependencies that do
    not mention it fail the test of line 148; for [react] they pass. *)
Example inherited_name_fails_peer_test :
  @peerAccepts SemverLite.lib (Examples.latestAuto "constructor") "19.1.0" []
  = false
  /\ @peerAccepts SemverLite.lib (Examples.latestAuto "react") "19.1.0" []
     = true
  /\ @alreadyCompatible SemverLite.lib (Examples.latestAuto "constructor")
       "19.1.0" Examples.backportVersions (Some "^1.0.0")
       (@stableVersions SemverLite.lib Examples.backportVersions)
     = Some false.
Proof. repeat split; reflexivity. Qed.

(** An assignment to [__proto__] does not reach a mapping that does not
    own a property of that name. *)
Example assign_proto :
  Js.assign [("a", "1")] "__proto__" "2" = [("a", "1")]
  /\ Js.assign [("__proto__", "1")] "__proto__" "2" = [("__proto__", "2")]
  /\ Js.assign [("a", "1")] "constructor" "2"
     = [("a", "1"); ("constructor", "2")]
  /\ Js.truthyAt (Some [("a", "1")]) "__proto__" = true
  /\ Js.truthyAt (Some [("a", "1")]) "b" = false
  /\ Js.truthyAt None "constructor" = false.
Proof. repeat split; reflexivity. Qed.

(** A [null] entry among the stable versions: the loop ends without an
    answer when it comes to it first, with an answer when a version
    before it passes the test; the filter fails either way. *)
Example null_entry_evaluation :
  let cfg := Examples.latestAuto "react" in
  @alreadyCompatible SemverLite.lib cfg "19.1.0"
    [("1.0.0", Examples.plain); ("2.0.0", NullVersion)] (Some "^1.0.0")
    ["2.0.0"; "1.0.0"] = None
  /\ @alreadyCompatible SemverLite.lib cfg "19.1.0"
       [("1.0.0", NullVersion); ("2.0.0", Examples.plain)] (Some "^2.0.0")
       ["2.0.0"; "1.0.0"] = Some true
  /\ @compatibleVersions SemverLite.lib cfg "19.1.0"
       [("1.0.0", NullVersion); ("2.0.0", Examples.plain)]
       ["2.0.0"; "1.0.0"] = None.
Proof. repeat split; reflexivity. Qed.


(** C7 on a run. *)
Lemma unattended_run_never_prompts_witness :
  Forall (fun e => isPrompt e = false)
         (trace (@script SemverLite.lib ["react"; "--latest"; "--autoupdate"]
                   Examples.npm Examples.nobody (Parsed Examples.reactApp)))
  /\ forall operator',
       @script SemverLite.lib ["react"; "--latest"; "--autoupdate"]
         Examples.npm operator' (Parsed Examples.reactApp)
       = @script SemverLite.lib ["react"; "--latest"; "--autoupdate"]
           Examples.npm Examples.nobody (Parsed Examples.reactApp).
Proof.
  apply (@unattended_run_never_prompts SemverLite.lib
           ["react"; "--latest"; "--autoupdate"] Examples.npm
           Examples.nobody (Parsed Examples.reactApp)); reflexivity.
Defined.

(** * Further properties of the script *)

(** ** The command line *)

Lemma find_plain_none (args : list string) :
  find (fun arg => negb (String.prefix "--" arg)) args = None <->
  forall a, In a args -> String.prefix "--" a = true.
Proof.
  induction args as [|a args IH]; simpl.
  - split; [intros _ x [] | reflexivity].
  - destruct (String.prefix "--" a) eqn:E; simpl.
    + rewrite IH. split.
      * intros Hall x [<-|Hx]; [exact E | now apply Hall].
      * intros Hall x Hx. apply Hall. now right.
    + split; [discriminate|]. intros Hall.
      specialize (Hall a (or_introl eq_refl)). congruence.
Qed.

Lemma find_plain_first (flags rest : list string) (name : string) :
  Forall (fun a => String.prefix "--" a = true) flags ->
  String.prefix "--" name = false ->
  find (fun arg => negb (String.prefix "--" arg)) (flags ++ name :: rest)
  = Some name.
Proof.
  intros Hflags Hname. induction Hflags as [|a flags Ha _ IH]; simpl.
  - now rewrite Hname.
  - now rewrite Ha.
Qed.

Lemma find_plain_some (args : list string) (name : string) :
  find (fun arg => negb (String.prefix "--" arg)) args = Some name ->
  exists flags rest,
    args = flags ++ name :: rest
    /\ Forall (fun a => String.prefix "--" a = true) flags
    /\ String.prefix "--" name = false.
Proof.
  induction args as [|a args IH]; simpl; [discriminate|].
  destruct (String.prefix "--" a) eqn:E; simpl.
  - intros Hfind. destruct (IH Hfind) as (flags & rest & -> & Hflags & Hn).
    exists (a :: flags), rest. repeat split; auto.
  - intros [= <-]. exists [], args. repeat split; auto.
Qed.

Lemma includes_true_iff (args : list string) (flag : string) :
  includes args flag = true <-> In flag args.
Proof.
  unfold includes. rewrite existsb_exists. split.
  - intros (x & Hx & E). apply String.eqb_eq in E. now subst.
  - intros Hin. exists flag. split; [exact Hin | apply String.eqb_refl].
Qed.

(** X1: the script stops for want of a package name exactly when every
    argument starts with [--] (an empty command line included) or the
    first argument that does not is the empty string; it then prints
    the usage line and exits with status 1, having read no file, asked
    the registry nothing and written nothing. *)
Theorem script_needs_package_name `{SemverLib} (args : list string) :
  (parseArgs args = None <->
   (forall a, In a args -> String.prefix "--" a = true)
   \/ exists flags rest,
        args = flags ++ "" :: rest
        /\ Forall (fun a => String.prefix "--" a = true) flags)
  /\ (parseArgs args = None ->
      forall registry operator file,
        script args registry operator file
        = mkOutcome [Console Error MissingName] unloaded (Exited 1)).
Proof.
  split.
  - unfold parseArgs.
    destruct (find _ args) as [name|] eqn:Hfind.
    + destruct (find_plain_some _ _ Hfind) as (flags & rest & E & Hf & Hn).
      destruct name as [|c name]; simpl.
      * split; [intros _; right; now exists flags, rest | reflexivity].
      * split; [discriminate|]. intros [Hall|(fl & rs & E' & Hfl)].
        -- apply find_plain_none in Hall. congruence.
        -- rewrite E' in Hfind.
           rewrite (find_plain_first fl rs "" Hfl eq_refl) in Hfind.
           discriminate.
    + split; [|reflexivity]. intros _. left. now apply find_plain_none.
  - intros Hnone registry operator file. unfold script. now rewrite Hnone.
Qed.

(** X2: the package name is the first argument that does not start with
    [--]; the three flags are recognised wherever they stand, before or
    after the name, and every other argument is ignored. *)
Theorem parseArgs_first_plain_argument
    (flags rest : list string) (name : string) :
  Forall (fun a => String.prefix "--" a = true) flags ->
  String.prefix "--" name = false ->
  name <> "" ->
  exists cfg,
    parseArgs (flags ++ name :: rest) = Some cfg
    /\ mainPkgName cfg = name
    /\ (useLatest cfg = true <-> In "--latest" (flags ++ rest))
    /\ (showIncompatible cfg = true <->
        In "--check-incompatibilities" (flags ++ rest))
    /\ (autoUpdate cfg = true <-> In "--autoupdate" (flags ++ rest)).
Proof.
  intros Hflags Hname Hne.
  assert (Hin : forall flag, String.prefix "--" flag = true ->
                  (includes (flags ++ name :: rest) flag = true <->
                   In flag (flags ++ rest))).
  { intros flag Hflag. rewrite includes_true_iff, !in_app_iff. simpl.
    split; [|tauto]. intros [Hi|[->|Hi]]; [tauto | congruence | tauto]. }
  unfold parseArgs. rewrite (find_plain_first _ _ _ Hflags Hname).
  destruct name as [|c name]; [contradiction|]. simpl.
  eexists. split; [reflexivity|]. simpl.
  repeat split; try (apply Hin; reflexivity).
Qed.

(** X2 on a command line with the name between the flags. *)
Lemma parseArgs_first_plain_argument_witness :
  exists cfg,
    parseArgs (["--autoupdate"] ++ "react" :: ["--latest"; "react-dom"])
    = Some cfg
    /\ mainPkgName cfg = "react"
    /\ (useLatest cfg = true <->
        In "--latest" (["--autoupdate"] ++ ["--latest"; "react-dom"]))
    /\ (showIncompatible cfg = true <->
        In "--check-incompatibilities"
           (["--autoupdate"] ++ ["--latest"; "react-dom"]))
    /\ (autoUpdate cfg = true <->
        In "--autoupdate" (["--autoupdate"] ++ ["--latest"; "react-dom"])).
Proof.
  apply (parseArgs_first_plain_argument ["--autoupdate"]
           ["--latest"; "react-dom"] "react").
  - repeat constructor.
  - reflexivity.
  - discriminate.
Defined.

(** ** Runs that stop early *)

Lemma filter_none {A : Type} (f : A -> bool) (l : list A) :
  (forall x, In x l -> f x = false) -> filter f l = [].
Proof.
  induction l as [|a l IH]; simpl; intros Hall; [reflexivity|].
  rewrite (Hall a (or_introl eq_refl)). apply IH.
  intros x Hx. apply Hall. now right.
Qed.

Section EarlyStops.
Context `{SemverLib}.
Variable cfg : Config.
Variable registry : Registry.
Variable operator : Operator.

Local Abbreviation main := (mainPkgName cfg).

Lemma opening_requests_main (d : string) :
  In (Fetch d) (selectionEvents cfg registry) -> d = main.
Proof.
  unfold selectionEvents.
  intros [Hin|[Hin|Hin]]; [discriminate | now inversion Hin |].
  destruct (registry main) as [metadata|]; [|contradiction].
  destruct (versions metadata) as [vs|]; [|contradiction].
  destruct (stableVersions vs); [|destruct (useLatest cfg)];
    simpl in Hin; intuition discriminate.
Qed.

Lemma opening_prompts_main (q : Question) :
  In (Prompt q) (selectionEvents cfg registry) ->
  exists choices, q = SelectMain main choices.
Proof.
  unfold selectionEvents.
  intros [Hin|[Hin|Hin]]; [discriminate | discriminate |].
  destruct (registry main) as [metadata|]; [|contradiction].
  destruct (versions metadata) as [vs|]; [|contradiction].
  destruct (stableVersions vs); [|destruct (useLatest cfg)];
    simpl in Hin; try intuition discriminate.
  destruct Hin as [Hin|[]]. inversion Hin. eauto.
Qed.

(** X3: a run that does not complete has changed nothing: it wrote no
    file, the disk and the in-memory manifest are as they were, the
    registry was asked about the main package at most, and the only
    prompt that can have been shown is the one for the main package's
    version. *)
Theorem aborted_run_changes_nothing (file : ManifestFile) :
  let r := run cfg registry operator file in
  completion r <> Normal tt ->
  Forall (fun e => isWrite e = false) (trace r)
  /\ persisted file (trace r) = file
  /\ (forall pj, file = Parsed pj -> memory r = pj)
  /\ (forall d, In (Fetch d) (trace r) -> d = main)
  /\ (forall q, In (Prompt q) (trace r) ->
                exists choices, q = SelectMain main choices).
Proof.
  intros r Hstop.
  assert (Hcases :
            trace r = [Console Error ManifestNotFound] /\ file = Missing
            \/ trace r = [] /\ file = Malformed
            \/ exists pj, file = Parsed pj /\ memory r = pj
                          /\ trace r = selectionEvents cfg registry).
  { subst r. destruct file as [| |pj]; [now left | right; now left |].
    right. right. exists pj. split; [reflexivity|].
    destruct (selectedMain cfg registry operator) as [selected|] eqn:Hsel.
    - exfalso. apply Hstop. now open_run Hsel.
    - unfold run. now destruct (runLoaded_unselected _ _ _ pj Hsel)
        as (-> & -> & _). }
  assert (Hnw : Forall (fun e => isWrite e = false) (trace r)).
  { destruct Hcases as [[-> _]|[[-> _]|(pj & _ & _ & ->)]];
      [repeat constructor | constructor | apply opening_no_write]. }
  split; [exact Hnw|]. split; [now apply persisted_no_write|].
  split; [|split].
  - intros pj Hf.
    destruct Hcases as [[_ E]|[[_ E]|(pj' & E & Hm & _)]]; congruence.
  - intros d Hd.
    destruct Hcases as [[E _]|[[E _]|(pj & _ & _ & E)]]; rewrite E in Hd.
    + destruct Hd as [Hd|[]]. discriminate.
    + destruct Hd.
    + now apply opening_requests_main.
  - intros q Hq.
    destruct Hcases as [[E _]|[[E _]|(pj & _ & _ & E)]]; rewrite E in Hq.
    + destruct Hq as [Hq|[]]. discriminate.
    + destruct Hq.
    + now apply opening_prompts_main.
Qed.

(** X4: when the registry document of the main package lists no valid
    version without a prerelease part, the run reports it and returns:
    no prompt is shown, with or without [--latest], no dependency is
    looked at, and the manifest is neither changed nor written. *)
Theorem no_stable_version_stops_the_run
    (pj : PackageJson) (metadata : PackageDoc) (vs : Js.Obj VersionDoc) :
  registry main = Some metadata ->
  versions metadata = Some vs ->
  (forall v, In v (Js.keys vs) -> isStable v = false) ->
  run cfg registry operator (Parsed pj)
  = mkOutcome [Console Log (Fetching main); Fetch main;
               Console Error NoStableVersions]
              pj Returned.
Proof.
  intros Hreg Hvs Hnone.
  assert (Hempty : stableVersions vs = []).
  { unfold stableVersions. now rewrite filter_none. }
  unfold run. unfold_run. rewrite Hreg. simpl. rewrite Hvs. simpl.
  now rewrite Hempty.
Qed.

End EarlyStops.

(** X3 on a run: the operator is not there to choose a react version. *)
Lemma aborted_run_changes_nothing_witness :
  let file := Parsed Examples.reactApp in
  let r := @run SemverLite.lib (Examples.interactive "react") Examples.npm
             Examples.nobody file in
  Forall (fun e => isWrite e = false) (trace r)
  /\ persisted file (trace r) = file
  /\ (forall pj, file = Parsed pj -> memory r = pj)
  /\ (forall d, In (Fetch d) (trace r) -> d = "react")
  /\ (forall q, In (Prompt q) (trace r) ->
                exists choices, q = SelectMain "react" choices).
Proof.
  apply (@aborted_run_changes_nothing SemverLite.lib
           (Examples.interactive "react") Examples.npm Examples.nobody
           (Parsed Examples.reactApp)).
  vm_compute. discriminate.
Defined.

(** X4 on a run: a package with release candidates only. *)
Lemma no_stable_version_stops_the_run_witness :
  @run SemverLite.lib (Examples.interactive "preview")
    MoreExamples.previewNpm Examples.nobody (Parsed Examples.reactApp)
  = mkOutcome [Console Log (Fetching "preview"); Fetch "preview";
               Console Error NoStableVersions]
              Examples.reactApp Returned.
Proof.
  apply (@no_stable_version_stops_the_run SemverLite.lib
           (Examples.interactive "preview") MoreExamples.previewNpm
           Examples.nobody Examples.reactApp
           (Examples.document MoreExamples.previewVersions)
           MoreExamples.previewVersions).
  - reflexivity.
  - reflexivity.
  - intros v [<-|[<-|[]]]; reflexivity.
Defined.

(** ** The evaluation of one dependency *)

Section Evaluation.
Context `{SemverLib}.
Variable cfg : Config.
Variable selected : string.
Variable vs : Js.Obj VersionDoc.

Lemma accepted_readable (version : string) :
  readable vs version = true ->
  exists peer, peerOf vs version = Some peer
               /\ accepted cfg selected vs version
                  = peerAccepts cfg selected peer.
Proof.
  unfold readable, accepted. destruct (peerOf vs version) as [peer|];
    [|discriminate].
  intros _. now exists peer.
Qed.

(** A version that the test turns down is one it could be made on. *)
Lemma rejected_readable (version : string) :
  accepted cfg selected vs version = false -> readable vs version = true.
Proof.
  unfold readable, accepted. now destruct (peerOf vs version).
Qed.

Lemma compatibleVersions_filter (versions : list string) :
  forallb (readable vs) versions = true ->
  compatibleVersions cfg selected vs versions
  = Some (filter (accepted cfg selected vs) versions).
Proof.
  induction versions as [|v rest IH]; simpl; [reflexivity|].
  intros Hall. apply andb_true_iff in Hall as [Hv Hrest].
  destruct (accepted_readable v Hv) as (peer & Hp & Ha).
  rewrite Hp, Ha, (IH Hrest).
  now destruct (peerAccepts cfg selected peer).
Qed.

(** The filter fails exactly on a version it cannot read. *)
Lemma compatibleVersions_none_iff (versions : list string) :
  compatibleVersions cfg selected vs versions = None <->
  forallb (readable vs) versions = false.
Proof.
  destruct (forallb (readable vs) versions) eqn:Hall.
  - rewrite (compatibleVersions_filter _ Hall). split; discriminate.
  - split; [reflexivity|]. intros _. revert Hall.
    induction versions as [|v rest IH]; simpl; [discriminate|].
    unfold readable at 1. destruct (peerOf vs v) as [peer|]; simpl;
      [|reflexivity].
    intros Hrest. now rewrite (IH Hrest).
Qed.

Lemma alreadyCompatible_filter (range : option string)
    (versions : list string) :
  forallb (readable vs) versions = true ->
  alreadyCompatible cfg selected vs range versions
  = Some match filter (accepted cfg selected vs) versions with
         | first :: _ => satisfiesRange first range
         | [] => false
         end.
Proof.
  induction versions as [|v rest IH]; simpl; [reflexivity|].
  intros Hall. apply andb_true_iff in Hall as [Hv Hrest].
  destruct (accepted_readable v Hv) as (peer & Hp & Ha).
  rewrite Hp, Ha.
  destruct (peerAccepts cfg selected peer); [reflexivity|].
  now apply IH.
Qed.

(** Where every stable version can be read, both evaluation steps
    succeed, and what they give is read off the accepted versions. *)
Lemma stable_evaluation (range : option string) :
  forallb (readable vs) (stableVersions vs) = true ->
  compatibleVersions cfg selected vs (stableVersions vs)
  = Some (filter (accepted cfg selected vs) (stableVersions vs))
  /\ alreadyCompatible cfg selected vs range (stableVersions vs)
     = Some match filter (accepted cfg selected vs) (stableVersions vs) with
            | first :: _ => satisfiesRange first range
            | [] => false
            end.
Proof.
  intros Hall. split.
  - now apply compatibleVersions_filter.
  - now apply alreadyCompatible_filter.
Qed.

(** Where the test turns every stable version down, every one of them
    can be read. *)
Lemma none_accepted_readable (versions : list string) :
  filter (accepted cfg selected vs) versions = [] ->
  forallb (readable vs) versions = true.
Proof.
  induction versions as [|v rest IH]; simpl; [reflexivity|].
  destruct (accepted cfg selected vs v) eqn:Ha; [discriminate|].
  intros Hrest. now rewrite (rejected_readable v Ha), (IH Hrest).
Qed.

(** A stable version that cannot be read has a [null] entry. *)
Lemma unreadable_stable :
  forallb (readable vs) (stableVersions vs) = false <->
  exists v, In v (stableVersions vs) /\ Js.get vs v = Some NullVersion.
Proof.
  split.
  - intros Hall.
    destruct (forallb_forall (readable vs) (stableVersions vs)) as [_ Hfa].
    destruct (existsb (fun v => negb (readable vs v)) (stableVersions vs))
      eqn:Hex.
    + apply existsb_exists in Hex as (v & Hin & Hv).
      exists v. split; [exact Hin|].
      apply (peerOf_none_listed vs v); [now apply stableVersions_in in Hin|].
      unfold readable in Hv. now destruct (peerOf vs v).
    + rewrite Hfa in Hall; [discriminate|].
      intros v Hin. destruct (readable vs v) eqn:Hr; [reflexivity|].
      assert (Hyes : existsb (fun v => negb (readable vs v))
                       (stableVersions vs) = true).
      { apply existsb_exists. exists v. split; [exact Hin|].
        now rewrite Hr. }
      congruence.
  - intros (v & Hin & Hnull).
    destruct (forallb (readable vs) (stableVersions vs)) eqn:Hall;
      [|reflexivity].
    rewrite forallb_forall in Hall. specialize (Hall v Hin).
    unfold readable, peerOf in Hall. now rewrite Hnull in Hall.
Qed.

(** Whenever the filter yields its list, the loop has answered whether
    the first entry of that list lies in the installed range. *)
Lemma alreadyCompatible_of_candidates (range : option string)
    (versions candidates : list string) :
  compatibleVersions cfg selected vs versions = Some candidates ->
  alreadyCompatible cfg selected vs range versions
  = Some match candidates with
         | first :: _ => satisfiesRange first range
         | [] => false
         end.
Proof.
  revert candidates. induction versions as [|v rest IH]; simpl;
    intros candidates.
  - now intros [= <-].
  - destruct (peerOf vs v) as [peer|]; [|discriminate].
    destruct (compatibleVersions cfg selected vs rest) as [kept|];
      [|discriminate].
    destruct (peerAccepts cfg selected peer); intros [= <-].
    + reflexivity.
    + now apply IH.
Qed.

(** X5: the two evaluation steps of a turn agree.  The filter of lines
    161-164 fails, with a [TypeError], exactly when the entry of some
    stable version is [null]; whenever it yields its list of
    candidates, the loop of lines 145-154 has answered whether the
    first candidate lies in the installed range, and [false] when there
    is no candidate. *)
Theorem candidates_and_fast_path (range : option string) :
  (compatibleVersions cfg selected vs (stableVersions vs) = None
   <-> exists v, In v (stableVersions vs)
                 /\ Js.get vs v = Some NullVersion)
  /\ forall candidates,
       compatibleVersions cfg selected vs (stableVersions vs)
       = Some candidates ->
       alreadyCompatible cfg selected vs range (stableVersions vs)
       = Some match candidates with
              | first :: _ => satisfiesRange first range
              | [] => false
              end.
Proof.
  split.
  - rewrite compatibleVersions_none_iff. apply unreadable_stable.
  - intros candidates. apply alreadyCompatible_of_candidates.
Qed.

End Evaluation.

Section TryBlock.
Context `{SemverLib}.
Variable cfg : Config.
Variable registry : Registry.
Variable operator : Operator.
Variable allDeps : Js.Obj string.
Variable selected : string.
Variable dep : string.

(** X6: the [try] block of a turn ends with an exception in four cases
    only: the registry request is rejected; the registry document has
    no [versions]; the entry of some stable version is [null] and the
    loop of lines 145-154 has not found the dependency already
    compatible; or, without [--autoupdate], the prompt about an
    incompatible dependency with candidates is rejected. *)
Theorem try_block_throws_in_four_cases (pj : PackageJson) :
  completion
    (checkDependencyBody cfg registry operator allDeps selected dep pj)
  = Thrown
  <->
  registry dep = None
  \/ (exists depMeta, registry dep = Some depMeta /\ versions depMeta = None)
  \/ (exists depMeta vs,
        registry dep = Some depMeta /\ versions depMeta = Some vs
        /\ alreadyCompatible cfg selected vs (Js.get allDeps dep)
             (stableVersions vs) <> Some true
        /\ exists v, In v (stableVersions vs)
                     /\ Js.get vs v = Some NullVersion)
  \/ exists depMeta vs first rest,
       registry dep = Some depMeta /\ versions depMeta = Some vs
       /\ compatibleVersions cfg selected vs (stableVersions vs)
          = Some (first :: rest)
       /\ satisfiesRange first (Js.get allDeps dep) = false
       /\ autoUpdate cfg = false
       /\ operator (SelectCompatible dep (mainPkgName cfg) selected
                      (firstn 20 (first :: rest))) = None.
Proof.
  unfold_turn.
  destruct (registry dep) as [depMeta|] eqn:Hreg; simpl.
  2:{ split; [now left | reflexivity]. }
  destruct (versions depMeta) as [vs|] eqn:Hvs; simpl.
  2:{ split; [|reflexivity]. intros _. right. left. now exists depMeta. }
  assert (Hnull : compatibleVersions cfg selected vs (stableVersions vs)
                  = None
                  <-> exists v, In v (stableVersions vs)
                                /\ Js.get vs v = Some NullVersion).
  { rewrite compatibleVersions_none_iff. apply unreadable_stable. }
  assert (Hcases :
            forall P : Prop,
              (forall first rest,
                 compatibleVersions cfg selected vs (stableVersions vs)
                 = Some (first :: rest) ->
                 satisfiesRange first (Js.get allDeps dep) = false ->
                 autoUpdate cfg = false ->
                 operator (SelectCompatible dep (mainPkgName cfg) selected
                             (firstn 20 (first :: rest))) = None -> P) ->
              (alreadyCompatible cfg selected vs (Js.get allDeps dep)
                 (stableVersions vs) <> Some true ->
               compatibleVersions cfg selected vs (stableVersions vs)
               = None -> P) ->
              Some depMeta = None
              \/ (exists m, Some depMeta = Some m /\ versions m = None)
              \/ (exists m vs,
                    Some depMeta = Some m /\ versions m = Some vs
                    /\ alreadyCompatible cfg selected vs (Js.get allDeps dep)
                         (stableVersions vs) <> Some true
                    /\ exists v, In v (stableVersions vs)
                                 /\ Js.get vs v = Some NullVersion)
              \/ (exists m vs first rest,
                    Some depMeta = Some m /\ versions m = Some vs
                    /\ compatibleVersions cfg selected vs (stableVersions vs)
                       = Some (first :: rest)
                    /\ satisfiesRange first (Js.get allDeps dep) = false
                    /\ autoUpdate cfg = false
                    /\ operator (SelectCompatible dep (mainPkgName cfg)
                                   selected (firstn 20 (first :: rest)))
                       = None) ->
              P).
  { intros P Hprompt Heval
           [E|[(m & E & Ev)|[(m & v & E & Ev & Ha & Hn)
                            |(m & v & f & r & E & Ev & Hc & Hs & Hau & Ho)]]].
    - discriminate.
    - inversion E; subst. congruence.
    - inversion E; subst. rewrite Hvs in Ev.
      inversion Ev; subst. apply Heval; [exact Ha | now apply Hnull].
    - inversion E; subst. rewrite Hvs in Ev.
      inversion Ev; subst. now apply (Hprompt f r). }
  destruct (alreadyCompatible cfg selected vs (Js.get allDeps dep)
              (stableVersions vs)) as [[|]|] eqn:Ha; simpl;
    pose proof (alreadyCompatible_of_candidates cfg selected vs
                  (Js.get allDeps dep) (stableVersions vs)) as Hhead.
  - split; [discriminate|]. intros Hd.
    apply (fun a b => Hcases _ a b Hd).
    + intros first rest Hc Hs _ _. specialize (Hhead _ Hc). congruence.
    + intros Hn. now destruct Hn.
  - destruct (compatibleVersions cfg selected vs (stableVersions vs))
      as [[|first rest]|] eqn:Hc; simpl.
    + destruct (showIncompatible cfg); simpl; (split; [discriminate|]);
        intros Hd; apply (fun a b => Hcases _ a b Hd); intros;
        discriminate.
    + assert (Hs : satisfiesRange first (Js.get allDeps dep) = false).
      { specialize (Hhead _ eq_refl). congruence. }
      destruct (autoUpdate cfg) eqn:Hauto; simpl.
      * split; [discriminate|]. intros Hd.
        apply (fun a b => Hcases _ a b Hd); intros; discriminate.
      * destruct (operator _) as [answer|] eqn:Hop; simpl.
        -- split; [discriminate|]. intros Hd.
           apply (fun a b => Hcases _ a b Hd).
           ++ intros f r [= <- <-] _ _ Ho. simpl in Ho. congruence.
           ++ intros; discriminate.
        -- split; [|reflexivity]. intros _. right. right. right.
           exists depMeta, vs, first, rest. repeat split; assumption.
    + split; [|reflexivity]. intros _. right. right. left.
      exists depMeta, vs. split; [reflexivity|]. split; [exact Hvs|].
      split; [congruence | now apply Hnull].
  - split; [|reflexivity]. intros _. right. right. left.
    exists depMeta, vs. split; [reflexivity|]. split; [exact Hvs|].
    split; [congruence|].
    apply alreadyCompatible_none_iff in Ha
      as (passed & u & later & E & _ & Hu).
    assert (Hin : In u (stableVersions vs)).
    { rewrite E. apply in_or_app. right. now left. }
    exists u. split; [exact Hin|].
    apply (peerOf_none_listed vs u); [|exact Hu].
    now apply stableVersions_in in Hin.
Qed.

End TryBlock.

(** The turn for a document with a stable version that cannot be read:
    the filter fails, whatever the loop before it answered. *)
Ltac unreadable_turn cfg selected vs range Hread :=
  apply (compatibleVersions_none_iff cfg selected vs) in Hread;
  rewrite Hread;
  destruct (alreadyCompatible cfg selected vs range (stableVersions vs))
    as [[|]|]; simpl.

(** ** What the operator is asked *)

Section PromptChoices.
Context `{SemverLib}.
Variable cfg : Config.
Variable registry : Registry.
Variable operator : Operator.

Local Abbreviation main := (mainPkgName cfg).

Lemma checkDependency_prompt_choices allDeps selected dep pj :
  dep <> main ->
  Forall (fun e => forall q, e = Prompt q ->
                     offersCandidates cfg registry selected q)
         (trace (checkDependency cfg registry operator allDeps selected dep
                   pj)).
Proof.
  intros Hne. unfold_turn.
  destruct (registry dep) as [depMeta|] eqn:Hreg; simpl.
  2:{ repeat constructor; discriminate. }
  destruct (versions depMeta) as [vs|] eqn:Hvs; simpl.
  2:{ repeat constructor; discriminate. }
  destruct (forallb (readable vs) (stableVersions vs)) eqn:Hread.
  2:{ unreadable_turn cfg selected vs (Js.get allDeps dep) Hread;
        repeat constructor; discriminate. }
  destruct (stable_evaluation cfg selected vs (Js.get allDeps dep) Hread)
    as [-> ->].
  destruct (filter (accepted cfg selected vs) (stableVersions vs))
    as [|first rest] eqn:Hcand; simpl.
  - destruct (showIncompatible cfg); simpl; repeat constructor; discriminate.
  - destruct (satisfiesRange first (Js.get allDeps dep)); simpl.
    + repeat constructor; discriminate.
    + destruct (autoUpdate cfg) eqn:Hauto; simpl.
      * repeat constructor; discriminate.
      * assert (Hq : offersCandidates cfg registry selected
                       (SelectCompatible dep main selected
                          (firstn 20 (first :: rest)))).
        { simpl. repeat split; auto.
          - discriminate.
          - apply (firstn_le_length 20 (first :: rest)).
          - exists depMeta, vs. rewrite Hcand. auto. }
        destruct (operator _); simpl;
          repeat constructor; try discriminate;
          intros q [= <-]; exact Hq.
Qed.

(** X7: every prompt of a run is bounded.  The prompt for the main
    package appears only without [--latest] and offers the first 50
    entries of the main package's stable version list, at least one; a
    prompt about a dependency appears only without [--autoupdate], names
    a dependency other than the main package and offers the first 20
    candidates of that dependency for the chosen main version, at least
    one. *)
Theorem prompts_offer_bounded_choices (file : ManifestFile) (q : Question) :
  In (Prompt q) (trace (run cfg registry operator file)) ->
  offersStableVersions cfg registry q
  \/ exists selected,
       selectedMain cfg registry operator = Some selected
       /\ offersCandidates cfg registry selected q.
Proof.
  assert (Hopening : In (Prompt q) (selectionEvents cfg registry) ->
                     offersStableVersions cfg registry q).
  { unfold selectionEvents.
    intros [Hin|[Hin|Hin]]; [discriminate | discriminate |].
    destruct (registry main) as [metadata|] eqn:Hreg; [|contradiction].
    destruct (versions metadata) as [vs|] eqn:Hvs; [|contradiction].
    destruct (stableVersions vs) as [|first rest] eqn:Hst;
      [|destruct (useLatest cfg) eqn:Hl]; simpl in Hin;
      try intuition discriminate.
    destruct Hin as [[= <-]|[]]. simpl. repeat split; auto.
    - discriminate.
    - apply (firstn_le_length 50 (first :: rest)).
    - exists metadata, vs. rewrite Hst. auto. }
  destruct file as [| |pj].
  - intros [Hin|[]]. discriminate.
  - intros [].
  - destruct (selectedMain cfg registry operator) as [selected|] eqn:Hsel.
    + open_run Hsel. intros Hin. apply in_app_or in Hin as [Hin|Hin];
        [left; now apply Hopening|].
      destruct Hin as [Hin|Hin]; [discriminate|].
      apply in_app_or in Hin as [Hin|Hin].
      * right. exists selected. split; [reflexivity|].
        assert (Hloop :
                  Forall (fun e => forall q', e = Prompt q' ->
                                     offersCandidates cfg registry selected q')
                    (trace (iterateDependencies cfg registry operator
                              (getAllDependencies
                                 (applyMainVersion cfg selected pj))
                              selected (applyMainVersion cfg selected pj)))).
        { apply forOf_trace_forall; [intros; apply loopBody_normal|].
          intros k pj' _. cbv beta.
          destruct (String.eqb_spec k main) as [->|Hk]; [constructor|].
          now apply checkDependency_prompt_choices. }
        rewrite Forall_forall in Hloop. now apply (Hloop _ Hin).
      * destruct Hin as [Hin|[Hin|[]]]; discriminate.
    + unfold run. destruct (runLoaded_unselected _ _ _ pj Hsel) as (-> & _).
      intros Hin. left. now apply Hopening.
Qed.

End PromptChoices.

(** ** Dependencies without a compatible version *)

Section NoCandidate.
Context `{SemverLib}.
Variable cfg : Config.
Variable registry : Registry.
Variable operator : Operator.

Local Abbreviation main := (mainPkgName cfg).
Local Abbreviation chosen := (selectedMain cfg registry operator).

(** Every effect of a turn is about the dependency of that turn. *)
Lemma checkDependency_subject allDeps selected dep pj :
  Forall (fun e => subject e = Some dep)
         (trace (checkDependency cfg registry operator allDeps selected dep
                   pj)).
Proof.
  unfold_turn. split_turn registry operator;
    repeat apply Forall_cons; try apply Forall_nil; reflexivity.
Qed.

(** The effects of the loop that are about [dep] come from the turns
    of [dep]. *)
Lemma iterate_about (P : Event -> Prop) allDeps selected dep pj :
  (forall pj',
     Forall P (trace (checkDependency cfg registry operator allDeps
                        selected dep pj'))) ->
  Forall (fun e => subject e = Some dep -> P e)
         (trace (iterateDependencies cfg registry operator allDeps selected
                   pj)).
Proof.
  intros Hturn.
  apply forOf_trace_forall; [intros; apply loopBody_normal|].
  intros k pj' _. cbv beta.
  destruct (String.eqb_spec k main) as [->|_]; [constructor|].
  destruct (string_dec k dep) as [->|Hk].
  - eapply Forall_impl; [|apply Hturn]. auto.
  - eapply Forall_impl; [|apply checkDependency_subject].
    simpl. intros e He He'. congruence.
Qed.

(** The effects of a completed run that are about a dependency other
    than the main package come from the turns of that dependency. *)
Lemma run_about (P : Event -> Prop) selected dep pj :
  chosen = Some selected -> dep <> main ->
  (forall pj',
     Forall P (trace (checkDependency cfg registry operator
                        (getAllDependencies
                           (applyMainVersion cfg selected pj))
                        selected dep pj'))) ->
  Forall (fun e => subject e = Some dep -> P e)
         (trace (run cfg registry operator (Parsed pj))).
Proof.
  intros Hsel Hne Hturn. open_run Hsel.
  apply Forall_app. split.
  - rewrite Forall_forall. intros e He Hs. exfalso.
    destruct e as [l m|pkg|q|w]; try discriminate.
    + unfold selectionEvents in He.
      destruct He as [He|[He|He]]; try (inversion He; subst; discriminate).
      destruct (registry main) as [metadata|]; [|contradiction].
      destruct (versions metadata) as [vs|]; [|contradiction].
      destruct (stableVersions vs); [|destruct (useLatest cfg)];
        simpl in He; intuition (try discriminate);
        match goal with E : _ = Console _ _ |- _ =>
          inversion E; subst; discriminate end.
    + apply opening_requests_main in He. simpl in Hs. congruence.
    + apply opening_prompts_main in He as [choices ->]. discriminate.
  - constructor; [discriminate|]. apply Forall_app. split.
    + now apply iterate_about.
    + repeat constructor; discriminate.
Qed.

(** X8: a declared dependency other than the main package none of whose
    stable versions accepts the chosen main version keeps its manifest
    entries; the run says so on the console exactly when
    [--check-incompatibilities] is set, and never prompts about it nor
    reports a replacement for it, with or without [--autoupdate]. *)
Theorem no_candidate_leaves_entry
    (pj : PackageJson) (selected dep : string) (depMeta : PackageDoc)
    (vs : Js.Obj VersionDoc) :
  In dep (Js.keys (getAllDependencies pj)) -> dep <> main ->
  chosen = Some selected ->
  registry dep = Some depMeta -> versions depMeta = Some vs ->
  filter (accepted cfg selected vs) (stableVersions vs) = [] ->
  let r := run cfg registry operator (Parsed pj) in
  entries (memory r) dep = entries pj dep
  /\ (In (Console Warn (NoCompatibleVersion dep main selected)) (trace r)
      <-> showIncompatible cfg = true)
  /\ Forall (fun e => isPromptFor dep e = false) (trace r)
  /\ forall v, ~ In (Console Log (Replaced dep v)) (trace r).
Proof.
  intros Hin Hne Hsel Hreg Hvs Hnone r.
  set (pj1 := applyMainVersion cfg selected pj).
  assert (Hturn : forall pj',
             checkDependency cfg registry operator (getAllDependencies pj1)
               selected dep pj'
             = mkOutcome
                 (Fetch dep
                  :: if showIncompatible cfg
                     then [Console Warn
                             (NoCompatibleVersion dep main selected)]
                     else [])
                 pj' (Normal tt)).
  { intros pj'. unfold_turn. rewrite Hreg. simpl. rewrite Hvs. simpl.
    destruct (stable_evaluation cfg selected vs
                (Js.get (getAllDependencies pj1) dep)
                (none_accepted_readable cfg selected vs _ Hnone))
      as [-> ->].
    rewrite Hnone. simpl. now destruct (showIncompatible cfg). }
  assert (Habout : forall P : Event -> Prop,
             P (Fetch dep) ->
             (showIncompatible cfg = true ->
              P (Console Warn (NoCompatibleVersion dep main selected))) ->
             Forall (fun e => subject e = Some dep -> P e) (trace r)).
  { intros P Hf Hn. apply (run_about P selected dep pj Hsel Hne).
    intros pj'. fold pj1. rewrite Hturn. cbn [trace].
    constructor; [exact Hf|].
    destruct (showIncompatible cfg); [|constructor].
    constructor; [now apply Hn | constructor]. }
  split; [|split; [|split]].
  - subst r. open_run Hsel. fold pj1. unfold iterateDependencies.
    rewrite (forOf_memory_inv _
               (loopBody_normal cfg registry operator
                  (getAllDependencies pj1) selected)
               (fun pj => entries pj dep)).
    + now apply applyMainVersion_entries_other.
    + intros k pj' _. cbv beta.
      destruct (String.eqb k main); [reflexivity|].
      destruct (string_dec k dep) as [->|Hk].
      * now rewrite Hturn.
      * rewrite checkDependency_memory.
        destruct (replacement _ _ _ _ _ _); [|reflexivity].
        now apply writeDependency_entries_other.
  - split.
    + intros Hnotice.
      assert (Hall :
                Forall (fun e =>
                          subject e = Some dep ->
                          e = Console Warn
                                (NoCompatibleVersion dep main selected) ->
                          showIncompatible cfg = true)
                       (trace r))
        by (apply Habout; [discriminate | auto]).
      rewrite Forall_forall in Hall. now apply (Hall _ Hnotice).
    + intros Hshow.
      apply (run_shows_turn _ _ _ selected pj dep); try assumption.
      intros pj'. fold pj1. rewrite Hturn, Hshow. simpl. tauto.
  - assert (Hall : Forall (fun e => subject e = Some dep ->
                                    isPromptFor dep e = false) (trace r))
      by (apply Habout; reflexivity).
    eapply Forall_impl; [|exact Hall]. simpl. intros e He.
    destruct e as [l m|pkg|[m c|d m s c]|w]; try reflexivity.
    destruct (string_dec d dep) as [->|Hd]; [now apply He|].
    simpl. now apply String.eqb_neq.
  - intros v Hv.
    assert (Hall : Forall (fun e => subject e = Some dep ->
                                    e <> Console Log (Replaced dep v))
                          (trace r))
      by (apply Habout; [discriminate | intros _; discriminate]).
    rewrite Forall_forall in Hall. now apply (Hall _ Hv).
Qed.

End NoCandidate.

(** ** What [--check-incompatibilities] changes *)

Lemma muted_bind {A B : Type} (m m' : M A) (f f' : A -> M B) :
  (forall pj, m pj = muted (m' pj)) ->
  (forall a pj, f a pj = muted (f' a pj)) ->
  forall pj, bind m f pj = muted (bind m' f' pj).
Proof.
  intros Hm Hf pj. unfold bind. rewrite Hm.
  destruct (m' pj) as [t pj' [a| | |code]]; try reflexivity.
  unfold muted at 1. cbn [trace memory completion]. rewrite Hf.
  destruct (f' a pj') as [t' pj'' c]. unfold muted, withoutNotices.
  cbn [trace memory completion]. now rewrite filter_app.
Qed.

Lemma muted_forOf (body body' : string -> M unit) (ks : list string) :
  (forall k pj, body k pj = muted (body' k pj)) ->
  forall pj, forOf ks body pj = muted (forOf ks body' pj).
Proof.
  intros Hbody. induction ks as [|k ks IH]; intros pj; [reflexivity|].
  simpl. apply muted_bind; [apply Hbody | intros _; apply IH].
Qed.

Section CheckFlag.
Context `{SemverLib}.
Variable cfg : Config.
Variable registry : Registry.
Variable operator : Operator.

Lemma alreadyCompatible_withCheck b selected vs range versions :
  alreadyCompatible (withCheck b cfg) selected vs range versions
  = alreadyCompatible cfg selected vs range versions.
Proof.
  induction versions as [|v rest IH]; simpl; [reflexivity|].
  destruct (peerOf vs v) as [peer|]; [|reflexivity].
  change (peerAccepts (withCheck b cfg) selected peer)
    with (peerAccepts cfg selected peer).
  now rewrite IH.
Qed.

Lemma compatibleVersions_withCheck b selected vs versions :
  compatibleVersions (withCheck b cfg) selected vs versions
  = compatibleVersions cfg selected vs versions.
Proof.
  induction versions as [|v rest IH]; simpl; [reflexivity|].
  destruct (peerOf vs v) as [peer|]; [|reflexivity].
  change (peerAccepts (withCheck b cfg) selected peer)
    with (peerAccepts cfg selected peer).
  now rewrite IH.
Qed.

Lemma checkDependency_muted allDeps selected dep pj :
  checkDependency (withCheck false cfg) registry operator allDeps selected
    dep pj
  = muted (checkDependency (withCheck true cfg) registry operator allDeps
             selected dep pj).
Proof.
  unfold_turn.
  destruct (registry dep) as [depMeta|]; simpl; [|reflexivity].
  destruct (versions depMeta) as [vs|]; simpl; [|reflexivity].
  rewrite !alreadyCompatible_withCheck, !compatibleVersions_withCheck.
  split_turn registry operator; reflexivity.
Qed.

Lemma iterate_muted allDeps selected pj :
  iterateDependencies (withCheck false cfg) registry operator allDeps
    selected pj
  = muted (iterateDependencies (withCheck true cfg) registry operator
             allDeps selected pj).
Proof.
  unfold iterateDependencies. apply muted_forOf. intros k pj'. simpl.
  destruct (String.eqb k (mainPkgName cfg)); [reflexivity|].
  apply checkDependency_muted.
Qed.

Lemma run_muted (file : ManifestFile) :
  run (withCheck false cfg) registry operator file
  = muted (run (withCheck true cfg) registry operator file).
Proof.
  destruct file as [| |pj]; try reflexivity.
  unfold run, runLoaded, bind, fetchJson, prompt, orThrow, emit, ret, throw,
    returnEarly, mutate, readMemory.
  simpl.
  destruct (registry (mainPkgName cfg)) as [metadata|]; simpl;
    [|reflexivity].
  destruct (versions metadata) as [vs|]; simpl; [|reflexivity].
  destruct (stableVersions vs) as [|first rest]; simpl; [reflexivity|].
  destruct (useLatest cfg); simpl.
  - change (applyMainVersion (withCheck false cfg))
      with (applyMainVersion (withCheck true cfg)).
    rewrite iterate_muted.
    destruct (iterateDependencies _ _ _ _ _ _) as [t m [[]| | |c]];
      unfold muted, withoutNotices; simpl; try reflexivity.
    now rewrite filter_app.
  - destruct (operator _) as [answer|]; simpl; [|reflexivity].
    change (applyMainVersion (withCheck false cfg))
      with (applyMainVersion (withCheck true cfg)).
    rewrite iterate_muted.
    destruct (iterateDependencies _ _ _ _ _ _) as [t m [[]| | |c]];
      unfold muted, withoutNotices; simpl; try reflexivity.
    now rewrite filter_app.
Qed.

(** X9: [--check-incompatibilities] is a reporting flag only.  The run
    without it is the run with it minus the "no compatible version"
    console lines: same registry requests, same prompts, same stored
    versions, same file written, same completion. *)
Theorem check_flag_only_adds_notices (file : ManifestFile) :
  let quiet := run (withCheck false cfg) registry operator file in
  let loud := run (withCheck true cfg) registry operator file in
  trace quiet = withoutNotices (trace loud)
  /\ memory quiet = memory loud
  /\ completion quiet = completion loud
  /\ persisted file (trace quiet) = persisted file (trace loud)
  /\ requests (trace quiet) = requests (trace loud)
  /\ filter isPrompt (trace quiet) = filter isPrompt (trace loud).
Proof.
  cbv zeta. rewrite run_muted. unfold muted.
  cbn [trace memory completion].
  generalize (trace (run (withCheck true cfg) registry operator file)).
  intros t. unfold withoutNotices.
  split; [reflexivity|]. split; [reflexivity|]. split; [reflexivity|].
  split; [|split].
  - revert file.
    induction t as [|e t IH]; intros file; [reflexivity|].
    destruct e as [l m|pkg|q|w]; simpl; try apply IH.
    destruct l; try apply IH. destruct m; simpl; apply IH.
  - induction t as [|e t IH]; [reflexivity|].
    destruct e as [l m|pkg|q|w]; simpl; try (now rewrite IH).
    destruct l; try exact IH. destruct m; simpl; exact IH.
  - induction t as [|e t IH]; [reflexivity|].
    destruct e as [l m|pkg|q|w]; simpl; try (now rewrite IH).
    destruct l; try exact IH. destruct m; simpl; exact IH.
Qed.

End CheckFlag.

(** ** Registry requests *)

Lemma requests_app (l l' : list Event) :
  requests (l ++ l') = requests l ++ requests l'.
Proof.
  induction l as [|e l IH]; [reflexivity|].
  destruct e; simpl; now rewrite IH.
Qed.

Section Requests.
Context `{SemverLib}.
Variable cfg : Config.
Variable registry : Registry.
Variable operator : Operator.

Local Abbreviation main := (mainPkgName cfg).
Local Abbreviation others allDeps :=
  (filter (fun d => negb (String.eqb d main)) (Js.keys allDeps)).

Lemma checkDependency_requests allDeps selected dep pj :
  requests (trace (checkDependency cfg registry operator allDeps selected
                     dep pj)) = [dep].
Proof. unfold_turn. split_turn registry operator; reflexivity. Qed.

Lemma iterate_requests allDeps selected pj :
  requests (trace (iterateDependencies cfg registry operator allDeps
                     selected pj))
  = others allDeps.
Proof.
  unfold iterateDependencies. revert pj.
  induction (Js.keys allDeps) as [|k ks IH]; intros pj; [reflexivity|].
  rewrite (forOf_cons _ (loopBody_normal cfg registry operator allDeps
                           selected)).
  cbv zeta. cbn [trace]. rewrite requests_app, IH. simpl.
  destruct (String.eqb k main); simpl; [reflexivity|].
  now rewrite checkDependency_requests.
Qed.

Lemma opening_requests :
  requests (selectionEvents cfg registry) = [main].
Proof.
  unfold selectionEvents. simpl.
  destruct (registry main) as [metadata|]; [|reflexivity].
  destruct (versions metadata) as [vs|]; [|reflexivity].
  destruct (stableVersions vs); [|destruct (useLatest cfg)]; reflexivity.
Qed.

(** X10: a run asks the registry about the main package first and then,
    if it gets as far as the loop, about every other package of the
    merged dependency mapping once, in the order of that mapping; no
    package is requested twice, and none that the manifest does not
    declare. *)
Theorem each_package_requested_once (pj : PackageJson) :
  wellFormed pj ->
  let r := run cfg registry operator (Parsed pj) in
  requests (trace r)
  = main
    :: match selectedMain cfg registry operator with
       | Some selected =>
           others (getAllDependencies (applyMainVersion cfg selected pj))
       | None => []
       end
  /\ NoDup (requests (trace r))
  /\ forall d, In d (requests (trace r)) ->
               d = main \/ In d (Js.keys (getAllDependencies pj)).
Proof.
  intros Hwf r.
  assert (Heq : requests (trace r)
                = main
                  :: match selectedMain cfg registry operator with
                     | Some selected =>
                         others (getAllDependencies
                                   (applyMainVersion cfg selected pj))
                     | None => []
                     end).
  { subst r. destruct (selectedMain cfg registry operator)
      as [selected|] eqn:Hsel.
    - open_run Hsel. rewrite requests_app, opening_requests. simpl.
      rewrite requests_app, iterate_requests. simpl. now rewrite app_nil_r.
    - unfold run. destruct (runLoaded_unselected _ _ _ pj Hsel) as (-> & _).
      apply opening_requests. }
  split; [exact Heq|]. rewrite Heq.
  destruct (selectedMain cfg registry operator) as [selected|].
  - split.
    + constructor.
      * rewrite filter_In. intros [_ Hm]. now rewrite String.eqb_refl in Hm.
      * apply NoDup_filter, getAllDependencies_nodup.
        now apply applyMainVersion_wellFormed.
    + intros d [<-|Hd]; [now left|]. apply filter_In in Hd as [Hd Hm].
      apply negb_true_iff, String.eqb_neq in Hm. right.
      apply getAllDependencies_keys in Hd. apply getAllDependencies_keys.
      destruct (applyMainVersion_gains cfg selected pj d) as [Gfst Gsnd].
      destruct Hd as [Hd|Hd]; [apply Gfst in Hd | apply Gsnd in Hd];
        destruct Hd as [Hd| ->]; tauto.
  - split; [repeat constructor; tauto|].
    intros d [<-|[]]. now left.
Qed.

End Requests.

(** X10 on a run. *)
Lemma each_package_requested_once_witness :
  let r := @run SemverLite.lib (Examples.latestAuto "react") Examples.npm
             Examples.nobody (Parsed MoreExamples.heldBackApp) in
  requests (trace r)
  = "react"
    :: match @selectedMain SemverLite.lib (Examples.latestAuto "react")
               Examples.npm Examples.nobody with
       | Some selected =>
           filter (fun d => negb (String.eqb d "react"))
             (Js.keys (getAllDependencies
                         (@applyMainVersion (Examples.latestAuto "react")
                            selected MoreExamples.heldBackApp)))
       | None => []
       end
  /\ NoDup (requests (trace r))
  /\ forall d, In d (requests (trace r)) ->
               d = "react"
               \/ In d (Js.keys (getAllDependencies MoreExamples.heldBackApp)).
Proof.
  apply (@each_package_requested_once SemverLite.lib
           (Examples.latestAuto "react") Examples.npm Examples.nobody
           MoreExamples.heldBackApp).
  split; distinct_keys.
Defined.

(** ** The merged dependency mapping *)

(** X11: for a manifest whose objects hold each key once,
    [getAllDependencies] holds exactly the packages declared under
    [dependencies] or [devDependencies], each once, and gives a package
    its [devDependencies] range when it has one (an empty range
    included) and its [dependencies] range otherwise. *)
Theorem getAllDependencies_merges (pj : PackageJson) :
  wellFormed pj ->
  NoDup (Js.keys (getAllDependencies pj))
  /\ (forall k, In k (Js.keys (getAllDependencies pj)) <->
                In k (fst (declared pj)) \/ In k (snd (declared pj)))
  /\ forall k, Js.get (getAllDependencies pj) k
               = match snd (entries pj k) with
                 | Some range => Some range
                 | None => fst (entries pj k)
                 end.
Proof.
  intros Hwf. split; [now apply getAllDependencies_nodup|]. split.
  - apply getAllDependencies_keys.
  - intros k. now apply getAllDependencies_get.
Qed.

(** X11 on a manifest that declares a package in both classes. *)
Lemma getAllDependencies_merges_witness :
  NoDup (Js.keys (getAllDependencies Examples.splitApp))
  /\ (forall k, In k (Js.keys (getAllDependencies Examples.splitApp)) <->
                In k (fst (declared Examples.splitApp))
                \/ In k (snd (declared Examples.splitApp)))
  /\ forall k, Js.get (getAllDependencies Examples.splitApp) k
               = match snd (entries Examples.splitApp k) with
                 | Some range => Some range
                 | None => fst (entries Examples.splitApp k)
                 end.
Proof.
  apply (getAllDependencies_merges Examples.splitApp).
  split; distinct_keys.
Defined.

(** ** Entries that change *)

Section LoopInvariant.
Variable body : string -> M unit.
Hypothesis body_normal : forall k pj, completion (body k pj) = Normal tt.
Variable Inv : list Event -> PackageJson -> Prop.

(** What every turn keeps of the trace so far and the manifest, the
    loop keeps. *)
Lemma forOf_invariant (ks : list string) :
  (forall k t pj, In k ks -> Inv t pj ->
                  Inv (t ++ trace (body k pj)) (memory (body k pj))) ->
  forall t pj, Inv t pj ->
               Inv (t ++ trace (forOf ks body pj))
                   (memory (forOf ks body pj)).
Proof.
  induction ks as [|k ks IH]; intros Hstep t pj Hinv.
  - simpl. now rewrite app_nil_r.
  - rewrite (forOf_cons body body_normal). cbv zeta.
    cbn [trace memory]. rewrite app_assoc. apply IH.
    + intros k' t' pj' Hk'. apply Hstep. now right.
    + apply Hstep; [now left | exact Hinv].
Qed.

End LoopInvariant.

Section ChangedEntries.
Context `{SemverLib}.
Variable cfg : Config.
Variable registry : Registry.
Variable operator : Operator.

Local Abbreviation main := (mainPkgName cfg).

(** A turn that stores a version says so. *)
Lemma checkDependency_reports allDeps selected dep pj v :
  replacement cfg registry operator allDeps selected dep = Some v ->
  In (Console Log (Replaced dep v))
     (trace (checkDependency cfg registry operator allDeps selected dep pj)).
Proof.
  unfold_turn. split_turn registry operator; intros E;
    try discriminate; inversion E; subst; simpl; tauto.
Qed.

(** X12: a run never changes an entry behind the user's back.  For
    every package other than the main package, both manifest entries
    are after the run what they were before, unless the console reports
    a replacement for that package; then the reported version is what
    one of its entries now holds. *)
Theorem changed_entry_is_reported (pj : PackageJson) (k : string) :
  let r := run cfg registry operator (Parsed pj) in
  k = main
  \/ entries (memory r) k = entries pj k
  \/ exists v,
       In (Console Log (Replaced k v)) (trace r)
       /\ (fst (entries (memory r) k) = Some v
           \/ snd (entries (memory r) k) = Some v).
Proof.
  intros r. destruct (string_dec k main) as [Hk|Hk]; [now left | right].
  subst r.
  destruct (selectedMain cfg registry operator) as [selected|] eqn:Hsel.
  2:{ left. unfold run.
      now destruct (runLoaded_unselected _ _ _ pj Hsel) as (_ & -> & _). }
  open_run Hsel.
  set (pj1 := applyMainVersion cfg selected pj).
  set (allDeps := getAllDependencies pj1).
  set (Inv := fun (t : list Event) (cur : PackageJson) =>
                entries cur k = entries pj k
                \/ exists v,
                     In (Console Log (Replaced k v)) t
                     /\ (fst (entries cur k) = Some v
                         \/ snd (entries cur k) = Some v)).
  assert (Hloop : Inv ([] ++ trace (iterateDependencies cfg registry operator
                                      allDeps selected pj1))
                      (memory (iterateDependencies cfg registry operator
                                 allDeps selected pj1))).
  { unfold iterateDependencies.
    apply (forOf_invariant _
             (loopBody_normal cfg registry operator allDeps selected) Inv).
    - intros d t cur _ Hinv. cbv beta.
      assert (Hweak : Inv (t ++ trace
                             ((if String.eqb d main then ret tt
                               else checkDependency cfg registry operator
                                      allDeps selected d) cur)) cur).
      { destruct Hinv as [E|(v & Hv & Hval)]; [now left|].
        right. exists v. split; [|exact Hval].
        apply in_or_app. now left. }
      destruct (String.eqb d main); [exact Hweak|].
      rewrite checkDependency_memory.
      destruct (replacement cfg registry operator allDeps selected d)
        as [v|] eqn:Hrep; [|exact Hweak].
      unfold Inv in Hweak |- *.
      destruct (string_dec d k) as [->|Hd].
      + destruct (writeDependency_entries_cases k v cur) as [E|Hval].
        * rewrite E. exact Hweak.
        * right. exists v. split; [|exact Hval].
          apply in_or_app. right. now apply checkDependency_reports.
      + destruct Hweak as [E|(v' & Hv' & Hval)].
        * left. now rewrite writeDependency_entries_other by congruence.
        * right. exists v'. split; [exact Hv'|].
          now rewrite writeDependency_entries_other by congruence.
    - left. now apply applyMainVersion_entries_other. }
  simpl app in Hloop. destruct Hloop as [E|(v & Hv & Hval)]; [now left|].
  right. exists v. split; [|exact Hval].
  apply in_or_app. right. right. apply in_or_app. now left.
Qed.

End ChangedEntries.

(** ** Replacements chosen by the operator *)

Section OperatorChoice.
Context `{SemverLib}.
Variable cfg : Config.
Variable registry : Registry.
Variable operator : Operator.

Local Abbreviation main := (mainPkgName cfg).
Local Abbreviation chosen := (selectedMain cfg registry operator).

(** The turn of an incompatible dependency without [--autoupdate], when
    the operator answers. *)
Lemma checkDependency_prompted allDeps selected dep pj depMeta vs first rest
    answer :
  autoUpdate cfg = false ->
  registry dep = Some depMeta -> versions depMeta = Some vs ->
  compatibleVersions cfg selected vs (stableVersions vs)
  = Some (first :: rest) ->
  satisfiesRange first (Js.get allDeps dep) = false ->
  operator (SelectCompatible dep main selected (firstn 20 (first :: rest)))
  = Some answer ->
  checkDependency cfg registry operator allDeps selected dep pj
  = mkOutcome
      [Fetch dep;
       Console Warn (NotCompatible dep (Js.get allDeps dep) main selected);
       Prompt (SelectCompatible dep main selected
                 (firstn 20 (first :: rest)));
       Console Log (Replaced dep answer)]
      (writeDependency dep answer pj) (Normal tt).
Proof.
  intros Hauto Hreg Hvs Hcand Hsat Hop. unfold_turn.
  rewrite Hreg. simpl. rewrite Hvs. simpl.
  rewrite (alreadyCompatible_of_candidates cfg selected vs _ _ _ Hcand),
    Hcand, Hsat.
  simpl. rewrite Hauto. simpl.
  simpl in Hop. rewrite Hop. reflexivity.
Qed.

(** X13: without [--autoupdate], a declared dependency whose first
    candidate lies outside its installed range is put to the operator
    with the first 20 candidates, and the operator's answer is stored as
    it is, under [dependencies] when the dependency holds a non-empty
    range there and under [devDependencies] otherwise.  The semver
    library is taken to read the empty range as any release, and the
    dependency not to bear the name of a property of
    [Object.prototype]. *)
Theorem operator_choice_is_stored
    (pj : PackageJson) (selected dep : string) (depMeta : PackageDoc)
    (vs : Js.Obj VersionDoc) (first : string) (rest : list string)
    (answer : string) :
  EmptyRangeMatchesReleases ->
  wellFormed pj ->
  Js.inherited dep = false ->
  autoUpdate cfg = false ->
  In dep (Js.keys (getAllDependencies pj)) -> dep <> main ->
  chosen = Some selected ->
  registry dep = Some depMeta -> versions depMeta = Some vs ->
  compatibleVersions cfg selected vs (stableVersions vs)
  = Some (first :: rest) ->
  satisfiesRange first (Js.get (getAllDependencies pj) dep) = false ->
  operator (SelectCompatible dep main selected (firstn 20 (first :: rest)))
  = Some answer ->
  let r := run cfg registry operator (Parsed pj) in
  completion r = Normal tt
  /\ In (Prompt (SelectCompatible dep main selected
                   (firstn 20 (first :: rest))))
        (trace r)
  /\ In (Console Log (Replaced dep answer)) (trace r)
  /\ entries (memory r) dep
     = (if Js.truthyAt (dependencies pj) dep
        then (Some answer, snd (entries pj dep))
        else (fst (entries pj dep), Some answer))
  /\ In (WriteFile (memory r)) (trace r).
Proof.
  intros Hlaw Hwf Hown Hauto Hin Hne Hsel Hreg Hvs Hcand Hsat Hop r.
  set (pj1 := applyMainVersion cfg selected pj).
  assert (Hturn : forall pj',
             checkDependency cfg registry operator (getAllDependencies pj1)
               selected dep pj'
             = mkOutcome
                 [Fetch dep;
                  Console Warn (NotCompatible dep
                                  (Js.get (getAllDependencies pj1) dep)
                                  main selected);
                  Prompt (SelectCompatible dep main selected
                            (firstn 20 (first :: rest)));
                  Console Log (Replaced dep answer)]
                 (writeDependency dep answer pj') (Normal tt)).
  { intros pj'.
    apply (checkDependency_prompted _ _ _ pj' depMeta vs first rest);
      try assumption.
    unfold pj1. now rewrite allDeps_get_after_main. }
  assert (Hentries : entries pj1 dep = entries pj dep)
    by now apply applyMainVersion_entries_other.
  assert (Htruthy : Js.truthyAt (dependencies pj) dep = false ->
                    Js.truthyAt (devDependencies pj) dep = true).
  { intros Hdeps.
    apply in_keys_get in Hin as [range Hrange].
    rewrite Hrange in Hsat. simpl in Hsat.
    assert (Hstable : isStable first = true).
    { pose proof (compatibleVersions_incl _ _ _ _ _ Hcand) as Hincl.
      specialize (Hincl first (or_introl eq_refl)).
      now apply stableVersions_in in Hincl. }
    assert (Hrt : Js.truthy range = true).
    { destruct range; [|reflexivity].
      rewrite (Hlaw _ Hstable) in Hsat. discriminate. }
    rewrite getAllDependencies_get in Hrange by exact Hwf.
    rewrite (truthyAt_own (dependencies pj) _ Hown) in Hdeps.
    rewrite (truthyAt_own (devDependencies pj) _ Hown).
    destruct (Js.getOpt (devDependencies pj) dep) as [d|].
    - inversion Hrange; subst. exact Hrt.
    - rewrite Hrange in Hdeps. congruence. }
  split; [subst r; now open_run Hsel|].
  split; [|split; [|split]].
  - apply (run_shows_turn _ _ _ selected pj dep); try assumption.
    intros pj'. fold pj1. rewrite Hturn. simpl. tauto.
  - apply (run_shows_turn _ _ _ selected pj dep); try assumption.
    intros pj'. fold pj1. rewrite Hturn. simpl. tauto.
  - subst r. open_run Hsel. fold pj1.
    rewrite iterate_entries_at;
      [| apply getAllDependencies_nodup, applyMainVersion_wellFormed, Hwf
       | now apply allDeps_keys_after_main
       | exact Hne ].
    rewrite Hturn. cbn [memory].
    rewrite writeDependency_entries by exact Hown.
    destruct (truthyAt_entries _ _ _ Hown Hentries) as [-> ->].
    rewrite Hentries.
    destruct (Js.truthyAt (dependencies pj) dep); [reflexivity|].
    now rewrite Htruthy.
  - subst r. open_run Hsel.
    apply in_or_app. right. right. apply in_or_app. right. now left.
Qed.

End OperatorChoice.

(** X13 on a run: react goes to 19.1.0, react-dom is held at [^17.0.0],
    and the operator takes the one candidate on offer. *)
Lemma operator_choice_is_stored_witness :
  let r := @run SemverLite.lib (MoreExamples.latestOnly "react")
             Examples.npm MoreExamples.takesFirst
             (Parsed MoreExamples.heldBackApp) in
  completion r = Normal tt
  /\ In (Prompt (SelectCompatible "react-dom" "react" "19.1.0"
                   (firstn 20 ["19.1.0"])))
        (trace r)
  /\ In (Console Log (Replaced "react-dom" "19.1.0")) (trace r)
  /\ entries (memory r) "react-dom"
     = (if Js.truthyAt (dependencies MoreExamples.heldBackApp) "react-dom"
        then (Some "19.1.0",
              snd (entries MoreExamples.heldBackApp "react-dom"))
        else (fst (entries MoreExamples.heldBackApp "react-dom"),
              Some "19.1.0"))
  /\ In (WriteFile (memory r)) (trace r).
Proof.
  apply (@operator_choice_is_stored SemverLite.lib
           (MoreExamples.latestOnly "react") Examples.npm
           MoreExamples.takesFirst MoreExamples.heldBackApp "19.1.0"
           "react-dom" (Examples.document Examples.reactDomVersions)
           Examples.reactDomVersions "19.1.0" [] "19.1.0").
  - exact semverLite_empty_range.
  - split; distinct_keys.
  - reflexivity.
  - reflexivity.
  - simpl; tauto.
  - discriminate.
  - reflexivity.
  - reflexivity.
  - reflexivity.
  - reflexivity.
  - reflexivity.
  - reflexivity.
Defined.

(** ** Where the main package and new keys go *)

Section MainPackage.
Context `{SemverLib}.
Variable cfg : Config.
Variable registry : Registry.
Variable operator : Operator.

Local Abbreviation main := (mainPkgName cfg).
Local Abbreviation chosen := (selectedMain cfg registry operator).

(** X14: a run that gets past the choice of the main package's version
    stores it under [dependencies] when the script reads a truthy value
    for the main package there, else under [devDependencies] when it
    reads a truthy value there, else under [dependencies], and the loop
    over the dependencies leaves it there.  A truthy value is a
    non-empty range the mapping holds or, where the mapping exists and
    holds nothing for a main package named like a property of
    [Object.prototype] ([constructor], ...), that inherited property.
    With [--latest] the value stored is a caret followed by the head of
    the stable version list, otherwise the operator's answer as it is.
    The main package is taken not to be named [__proto__], a name no
    assignment of a string reaches. *)
Theorem main_version_is_stored (pj : PackageJson) (selected : string) :
  main <> "__proto__" ->
  chosen = Some selected ->
  let r := run cfg registry operator (Parsed pj) in
  entries (memory r) main
  = (if Js.truthyAt (dependencies pj) main
     then (Some (written cfg selected), snd (entries pj main))
     else if Js.truthyAt (devDependencies pj) main
          then (fst (entries pj main), Some (written cfg selected))
          else (Some (written cfg selected), snd (entries pj main)))
  /\ In (WriteFile (memory r)) (trace r)
  /\ exists metadata vs first rest,
       registry main = Some metadata /\ versions metadata = Some vs
       /\ stableVersions vs = first :: rest
       /\ if useLatest cfg
          then selected = first
               /\ written cfg selected = ("^" ++ first)%string
          else operator (SelectMain main (firstn 50 (first :: rest)))
               = Some selected
               /\ written cfg selected = selected.
Proof.
  intros Hname Hsel r. split; [|split].
  - now apply run_stores_main_version.
  - subst r. open_run Hsel.
    apply in_or_app. right. right. apply in_or_app. right. now left.
  - now apply written_version.
Qed.

(** X15: a run removes no key from [dependencies] or [devDependencies],
    and every key of the two mappings after the run is a package the
    manifest declared or the main package.  A key that either mapping
    gains is the main package or a declared dependency that bears the
    name of a property of [Object.prototype].  For a main package that
    bears no such name, [devDependencies] does not gain it, and
    [dependencies] gains it exactly when the run gets past the choice
    of the main version and the main package holds a non-empty range in
    neither mapping. *)
Theorem run_adds_no_key_but_main (pj : PackageJson) :
  let r := run cfg registry operator (Parsed pj) in
  (forall k, In k (fst (declared pj)) -> In k (fst (declared (memory r))))
  /\ (forall k, In k (snd (declared pj)) -> In k (snd (declared (memory r))))
  /\ (forall k,
        In k (fst (declared (memory r))) \/ In k (snd (declared (memory r))) ->
        In k (Js.keys (getAllDependencies pj)) \/ k = main)
  /\ (forall k,
        (In k (fst (declared (memory r))) /\ ~ In k (fst (declared pj)))
        \/ (In k (snd (declared (memory r))) /\ ~ In k (snd (declared pj))) ->
        k = main
        \/ (In k (Js.keys (getAllDependencies pj))
            /\ Js.inherited k = true))
  /\ (Js.inherited main = false ->
      (In main (snd (declared (memory r))) <-> In main (snd (declared pj)))
      /\ (In main (fst (declared (memory r))) <->
          In main (fst (declared pj))
          \/ (chosen <> None
              /\ Js.truthyAt (dependencies pj) main = false
              /\ Js.truthyAt (devDependencies pj) main = false))).
Proof.
  intros r. destruct (run_keys_frame cfg registry operator pj)
    as (Hfst & Hsnd & Hall & Hnew). fold r in Hfst, Hsnd, Hall, Hnew.
  repeat split; try assumption;
    apply (run_main_key cfg registry operator pj); assumption.
Qed.

End MainPackage.

(** X14 on a run: react is a development dependency. *)
Lemma main_version_is_stored_witness :
  let cfg := Examples.latestAuto "react" in
  let pj := mkPackageJson None (Some [("react", "^18.0.0")]) in
  let r := @run SemverLite.lib cfg Examples.npm Examples.nobody (Parsed pj) in
  entries (memory r) "react"
  = (if Js.truthyAt (dependencies pj) "react"
     then (Some (written cfg "19.1.0"), snd (entries pj "react"))
     else if Js.truthyAt (devDependencies pj) "react"
          then (fst (entries pj "react"), Some (written cfg "19.1.0"))
          else (Some (written cfg "19.1.0"), snd (entries pj "react")))
  /\ In (WriteFile (memory r)) (trace r)
  /\ exists metadata vs first rest,
       Examples.npm "react" = Some metadata /\ versions metadata = Some vs
       /\ @stableVersions SemverLite.lib vs = first :: rest
       /\ if useLatest cfg
          then "19.1.0" = first
               /\ written cfg "19.1.0" = ("^" ++ first)%string
          else Examples.nobody
                 (SelectMain "react" (firstn 50 (first :: rest)))
               = Some "19.1.0"
               /\ written cfg "19.1.0" = "19.1.0".
Proof.
  apply (@main_version_is_stored SemverLite.lib (Examples.latestAuto "react")
           Examples.npm Examples.nobody
           (mkPackageJson None (Some [("react", "^18.0.0")])) "19.1.0").
  - discriminate.
  - reflexivity.
Defined.

(** ** Running the script again *)

Section Idempotence.
Context `{SemverLib}.
Variable cfg : Config.
Variable registry : Registry.
Variable operator : Operator.
Hypothesis latest : useLatest cfg = true.
Hypothesis auto : autoUpdate cfg = true.
Hypothesis itself : ReleaseSatisfiesItself.
Hypothesis nonempty : EmptyStringInvalid.

Local Abbreviation main := (mainPkgName cfg).
Local Abbreviation chosen := (selectedMain cfg registry operator).

Lemma stable_truthy (v : string) : isStable v = true -> Js.truthy v = true.
Proof.
  destruct v; [|reflexivity]. unfold isStable.
  unfold EmptyStringInvalid in nonempty. now rewrite nonempty.
Qed.

Lemma written_truthy (selected : string) :
  Js.truthy (written cfg selected) = true.
Proof. unfold written. now rewrite latest. Qed.

(** What a turn stores under [--autoupdate]. *)
Lemma replacement_autoupdate allDeps selected dep :
  replacement cfg registry operator allDeps selected dep
  = match registry dep with
    | Some depMeta =>
        match versions depMeta with
        | Some vs =>
            match compatibleVersions cfg selected vs (stableVersions vs) with
            | Some (first :: _) =>
                if satisfiesRange first (Js.get allDeps dep)
                then None else Some first
            | _ => None
            end
        | None => None
        end
    | None => None
    end.
Proof.
  unfold replacement.
  destruct (registry dep) as [depMeta|]; [|reflexivity].
  destruct (versions depMeta) as [vs|]; [|reflexivity].
  pose proof (alreadyCompatible_of_candidates cfg selected vs
                (Js.get allDeps dep) (stableVersions vs)) as Hhead.
  destruct (compatibleVersions cfg selected vs (stableVersions vs))
    as [[|first rest]|].
  - now rewrite (Hhead _ eq_refl).
  - rewrite (Hhead _ eq_refl), auto.
    now destruct (satisfiesRange first (Js.get allDeps dep)).
  - now destruct (alreadyCompatible cfg selected vs (Js.get allDeps dep)
                    (stableVersions vs)) as [[|]|].
Qed.

(** X16: an unattended run is idempotent.  With [--latest] and
    [--autoupdate], running the script again on the manifest a run left
    behind, against the same registry, leaves that manifest as it is:
    the second run ends like the first and writes the same manifest
    again.  The semver library is taken to let a release satisfy the
    range made of its own version string and to reject the empty
    string as a version. *)
Theorem unattended_run_is_idempotent (pj : PackageJson) :
  wellFormed pj ->
  let first := run cfg registry operator (Parsed pj) in
  let second := run cfg registry operator (Parsed (memory first)) in
  memory second = memory first
  /\ completion second = completion first
  /\ forall w, In (WriteFile w) (trace second) -> w = memory first.
Proof using latest auto itself nonempty.
  intros Hwf first second.
  assert (Hgoal : memory second = memory first
                  /\ completion second = completion first).
  { subst first second.
    destruct chosen as [selected|] eqn:Hsel.
    2:{ unfold run.
        destruct (runLoaded_unselected _ _ _ pj Hsel) as (_ & Hm & _).
        rewrite Hm. now split. }
    unfold run. rewrite (runLoaded_selected _ _ _ _ pj Hsel).
    cbv zeta. cbn [memory completion].
    set (pj1 := applyMainVersion cfg selected pj).
    set (A1 := getAllDependencies pj1).
    set (P := memory (iterateDependencies cfg registry operator A1
                        selected pj1)).
    assert (Hwf1 : wellFormed pj1)
      by now apply applyMainVersion_wellFormed.
    assert (HwfP : wellFormed P) by now apply iterate_wellFormed.
    assert (HmainP : slots P main = slots pj1 main)
      by (apply iterate_slots_untouched; now left).
    assert (Hagain : applyMainVersion cfg selected P = P).
    { apply (applyMainVersion_settled cfg selected pj P);
        [apply written_truthy | exact HmainP]. }
    open_run Hsel. rewrite Hagain. split; [|reflexivity].
    set (A2 := getAllDependencies P).
    assert (Hkeys : forall k, In k (Js.keys A2) -> In k (Js.keys A1)).
    { intros k Hk. unfold A2 in Hk. apply getAllDependencies_keys in Hk.
      destruct (iterate_gains cfg registry operator A1 selected pj1 k)
        as [Gfst Gsnd]. fold P in Gfst, Gsnd.
      destruct Hk as [Hk|Hk]; [apply Gfst in Hk | apply Gsnd in Hk];
        (destruct Hk as [Hk|(Hk & _)];
         [apply getAllDependencies_keys; tauto | exact Hk]). }
    assert (Hstep : forall k, In k (Js.keys A2) -> k <> main ->
                      memory (checkDependency cfg registry operator A2
                                selected k P) = P).
    { intros k Hk Hne. rewrite checkDependency_memory.
      assert (HPk : slots P k
                    = slots (memory (checkDependency cfg registry operator
                                       A1 selected k pj1)) k).
      { apply iterate_slots_at;
          [now apply getAllDependencies_nodup | now apply Hkeys | exact Hne]. }
      rewrite checkDependency_memory in HPk.
      rewrite replacement_autoupdate in HPk |- *.
      destruct (registry k) as [depMeta|]; [|reflexivity].
      destruct (versions depMeta) as [vs|]; [|reflexivity].
      destruct (compatibleVersions cfg selected vs (stableVersions vs))
        as [[|v rest]|] eqn:Hcand; try reflexivity.
      assert (Hv : Js.truthy v = true).
      { apply stable_truthy.
        apply compatibleVersions_incl in Hcand.
        specialize (Hcand v (or_introl eq_refl)).
        now apply stableVersions_in in Hcand. }
      assert (HA1 : Js.get A1 k
                    = match snd (entries pj1 k) with
                      | Some range => Some range
                      | None => fst (entries pj1 k)
                      end)
        by now apply getAllDependencies_get.
      assert (HA2 : Js.get A2 k
                    = match snd (entries P k) with
                      | Some range => Some range
                      | None => fst (entries P k)
                      end)
        by now apply getAllDependencies_get.
      destruct (satisfiesRange v (Js.get A1 k)) eqn:Hsat1.
      - (* compatible in the first run: same range, same answer *)
        assert (E2 : Js.get A2 k = Js.get A1 k).
        { rewrite HA2, HA1, (slots_entries _ _ _ HPk). reflexivity. }
        now rewrite E2, Hsat1.
      - (* replaced in the first run: compatible now, or the same
           version is stored where it is already *)
        destruct (satisfiesRange v (Js.get A2 k)); [reflexivity|].
        now apply (writeDependency_settled k v pj1 P). }
    assert (Hturns : forall k (t : list Event) cur,
               In k (Js.keys A2) -> cur = P ->
               memory ((if String.eqb k main then ret tt
                        else checkDependency cfg registry operator A2
                               selected k) cur) = P).
    { intros k t cur Hk ->.
      destruct (String.eqb_spec k main) as [->|Hne]; [reflexivity|].
      now apply Hstep. }
    exact (forOf_invariant _
             (loopBody_normal cfg registry operator A2 selected)
             (fun _ cur => cur = P) (Js.keys A2) Hturns [] P eq_refl). }
  destruct Hgoal as [Hm Hc]. split; [exact Hm|]. split; [exact Hc|].
  intros w Hw. subst second. apply run_writes_memory in Hw.
  now rewrite Hw.
Qed.

End Idempotence.

Lemma compareMain_refl (v : SemVer) : compareMain v v = Eq.
Proof. unfold compareMain. now rewrite !N.compare_refl. Qed.

Lemma sameVersion_refl (v : SemVer) : SemverLite.sameVersion v v = true.
Proof.
  unfold SemverLite.sameVersion. rewrite compareMain_refl.
  now destruct (list_eq_dec string_dec (prerelease v) (prerelease v)).
Qed.

(** The small instance reads no version behind a caret. *)
Lemma semverLite_caret_invalid (s : string) :
  SemverLite.parse (String "^" s) = None.
Proof.
  unfold SemverLite.parse. simpl.
  destruct (SemverLite.cutAt "+" s) as [core build]. simpl.
  destruct (SemverLite.cutAt "-" core) as [main pre].
  unfold SemverLite.parseMain. simpl.
  destruct (SemverLite.splitOn "." main) as [|a [|b [|c [|d l]]]];
    reflexivity.
Qed.

(** In the small instance a version satisfies the range made of its own
    string. *)
Lemma semverLite_satisfies_itself :
  @ReleaseSatisfiesItself SemverLite.lib.
Proof.
  intros v. unfold isStable, semver_valid. simpl.
  destruct (SemverLite.parse v) as [sv|] eqn:Hparse; [|discriminate].
  intros _. unfold SemverLite.satisfies. rewrite Hparse.
  destruct v as [|c s]; [discriminate|].
  destruct (Ascii.eqb_spec c "^") as [->|Hcaret].
  { now rewrite semverLite_caret_invalid in Hparse. }
  destruct (Ascii.eqb_spec c "*") as [->|Hstar].
  { destruct s; [discriminate | apply sameVersion_refl]. }
  destruct c as [[] [] [] [] [] [] [] []];
    try (exfalso; apply Hcaret; reflexivity);
    try (exfalso; apply Hstar; reflexivity);
    apply sameVersion_refl.
Qed.

(** X16 on a run and its rerun. *)
Lemma unattended_run_is_idempotent_witness :
  let first := @run SemverLite.lib (Examples.latestAuto "react")
                 Examples.npm Examples.nobody (Parsed Examples.reactApp) in
  let second := @run SemverLite.lib (Examples.latestAuto "react")
                  Examples.npm Examples.nobody (Parsed (memory first)) in
  memory second = memory first
  /\ completion second = completion first
  /\ forall w, In (WriteFile w) (trace second) -> w = memory first.
Proof.
  apply (@unattended_run_is_idempotent SemverLite.lib
           (Examples.latestAuto "react") Examples.npm Examples.nobody).
  - reflexivity.
  - reflexivity.
  - exact semverLite_satisfies_itself.
  - reflexivity.
  - split; distinct_keys.
Defined.

(** ** What a reported replacement is *)

Section ReportedReplacement.
Context `{SemverLib}.
Variable cfg : Config.
Variable registry : Registry.
Variable operator : Operator.

Local Abbreviation main := (mainPkgName cfg).

Lemma checkDependency_replaced allDeps selected dep pj :
  Forall (fun e => forall d v, e = Console Log (Replaced d v) ->
                               d = dep
                               /\ replacedBy cfg registry operator allDeps
                                    selected dep v)
         (trace (checkDependency cfg registry operator allDeps selected dep
                   pj)).
Proof.
  unfold replacedBy. unfold_turn.
  destruct (registry dep) as [depMeta|] eqn:Hreg; simpl.
  2:{ repeat apply Forall_cons; try apply Forall_nil; discriminate. }
  destruct (versions depMeta) as [vs|] eqn:Hvs; simpl.
  2:{ repeat apply Forall_cons; try apply Forall_nil; discriminate. }
  destruct (forallb (readable vs) (stableVersions vs)) eqn:Hread.
  2:{ unreadable_turn cfg selected vs (Js.get allDeps dep) Hread;
        repeat apply Forall_cons; try apply Forall_nil; discriminate. }
  destruct (stable_evaluation cfg selected vs (Js.get allDeps dep) Hread)
    as [-> ->].
  destruct (filter (accepted cfg selected vs) (stableVersions vs))
    as [|first rest] eqn:Hcand; simpl.
  - destruct (showIncompatible cfg); simpl;
      repeat apply Forall_cons; try apply Forall_nil; discriminate.
  - destruct (satisfiesRange first (Js.get allDeps dep)) eqn:Hsat; simpl.
    + repeat apply Forall_cons; try apply Forall_nil; discriminate.
    + destruct (autoUpdate cfg) eqn:Hauto; simpl.
      * repeat apply Forall_cons; try apply Forall_nil; try discriminate.
        intros ? ? [= <- <-]. split; [reflexivity|].
        exists depMeta, vs, first, rest. repeat split; auto.
      * destruct (operator _) as [answer|] eqn:Hop; simpl;
          repeat apply Forall_cons; try apply Forall_nil; try discriminate.
        intros ? ? [= <- <-]. split; [reflexivity|].
        exists depMeta, vs, first, rest. repeat split; auto.
Qed.

(** X17: a replacement reported on the console is never made up.  It is
    reported for a dependency other than the main package, whose
    registry document has candidates for the chosen main version, the
    first of them outside the installed range; with [--autoupdate] the
    reported version is that first candidate (a listed, valid version
    without prerelease part that accepts the main version), without it
    the operator's answer to the prompt offering the first 20
    candidates. *)
Theorem reported_replacement_is_a_candidate
    (pj : PackageJson) (dep v : string) :
  In (Console Log (Replaced dep v))
     (trace (run cfg registry operator (Parsed pj))) ->
  exists selected,
    selectedMain cfg registry operator = Some selected
    /\ dep <> main
    /\ replacedBy cfg registry operator
         (getAllDependencies (applyMainVersion cfg selected pj))
         selected dep v.
Proof.
  destruct (selectedMain cfg registry operator) as [selected|] eqn:Hsel.
  2:{ unfold run. destruct (runLoaded_unselected _ _ _ pj Hsel) as (-> & _).
      unfold selectionEvents. intros [Hin|[Hin|Hin]]; try discriminate.
      destruct (registry main) as [metadata|]; [|contradiction].
      destruct (versions metadata) as [vs|]; [|contradiction].
      destruct (stableVersions vs); [|destruct (useLatest cfg)];
        simpl in Hin; intuition discriminate. }
  open_run Hsel. intros Hin. exists selected. split; [reflexivity|].
  apply in_app_or in Hin as [Hin|Hin].
  { exfalso. unfold selectionEvents in Hin.
    destruct Hin as [Hin|[Hin|Hin]]; try discriminate.
    destruct (registry main) as [metadata|]; [|contradiction].
    destruct (versions metadata) as [vs|]; [|contradiction].
    destruct (stableVersions vs); [|destruct (useLatest cfg)];
      simpl in Hin; intuition discriminate. }
  destruct Hin as [Hin|Hin]; [discriminate|].
  apply in_app_or in Hin as [Hin|Hin].
  2:{ destruct Hin as [Hin|[Hin|[]]]; discriminate. }
  set (allDeps := getAllDependencies (applyMainVersion cfg selected pj))
    in *.
  assert (Hloop :
            Forall (fun e => forall d w, e = Console Log (Replaced d w) ->
                               d <> main
                               /\ replacedBy cfg registry operator allDeps
                                    selected d w)
              (trace (iterateDependencies cfg registry operator allDeps
                        selected (applyMainVersion cfg selected pj)))).
  { apply forOf_trace_forall; [intros; apply loopBody_normal|].
    intros k pj' _. cbv beta.
    destruct (String.eqb_spec k main) as [->|Hk]; [constructor|].
    eapply Forall_impl; [|apply checkDependency_replaced].
    simpl. intros e He d w Hd. destruct (He d w Hd) as [-> Hr].
    now split. }
  rewrite Forall_forall in Hloop. now apply (Hloop _ Hin).
Qed.

End ReportedReplacement.

(** X17 on a run. *)
Lemma reported_replacement_is_a_candidate_witness :
  exists selected,
    @selectedMain SemverLite.lib (Examples.latestAuto "react") Examples.npm
      Examples.nobody = Some selected
    /\ "react-dom" <> "react"
    /\ @replacedBy SemverLite.lib (Examples.latestAuto "react") Examples.npm
         Examples.nobody
         (getAllDependencies
            (@applyMainVersion (Examples.latestAuto "react") selected
               Examples.reactApp))
         selected "react-dom" "19.1.0".
Proof.
  apply (@reported_replacement_is_a_candidate SemverLite.lib
           (Examples.latestAuto "react") Examples.npm Examples.nobody
           Examples.reactApp "react-dom" "19.1.0").
  vm_compute. tauto.
Defined.

(** X7 on a run: the prompt about react-dom. *)
Lemma prompts_offer_bounded_choices_witness :
  let q := SelectCompatible "react-dom" "react" "19.1.0" ["19.1.0"] in
  @offersStableVersions SemverLite.lib (MoreExamples.latestOnly "react")
    Examples.npm q
  \/ exists selected,
       @selectedMain SemverLite.lib (MoreExamples.latestOnly "react")
         Examples.npm MoreExamples.takesFirst = Some selected
       /\ @offersCandidates SemverLite.lib (MoreExamples.latestOnly "react")
            Examples.npm selected q.
Proof.
  apply (@prompts_offer_bounded_choices SemverLite.lib
           (MoreExamples.latestOnly "react") Examples.npm
           MoreExamples.takesFirst (Parsed MoreExamples.heldBackApp)
           (SelectCompatible "react-dom" "react" "19.1.0" ["19.1.0"])).
  vm_compute. tauto.
Defined.

(** X8 on a run: no react-dom release accepts react 19.1.0. *)
Lemma no_candidate_leaves_entry_witness :
  let cfg := Examples.latestAuto "react" in
  let r := @run SemverLite.lib cfg Examples.legacyNpm Examples.nobody
             (Parsed Examples.specApp) in
  entries (memory r) "react-dom" = entries Examples.specApp "react-dom"
  /\ (In (Console Warn (NoCompatibleVersion "react-dom" "react" "19.1.0"))
         (trace r)
      <-> showIncompatible cfg = true)
  /\ Forall (fun e => isPromptFor "react-dom" e = false) (trace r)
  /\ forall v, ~ In (Console Log (Replaced "react-dom" v)) (trace r).
Proof.
  apply (@no_candidate_leaves_entry SemverLite.lib
           (Examples.latestAuto "react") Examples.legacyNpm Examples.nobody
           Examples.specApp "19.1.0" "react-dom"
           (Examples.document
              [("18.2.0", Examples.withPeers [("react", "^18.2.0")])])
           [("18.2.0", Examples.withPeers [("react", "^18.2.0")])]).
  - simpl; tauto.
  - discriminate.
  - reflexivity.
  - reflexivity.
  - reflexivity.
  - reflexivity.
Defined.
